(** * Landing-prediction physics engine of Modern-Telemetry ([src/utils/geo.ts])

    A shallow embedding of the atmosphere model, the wind-field model, the
    velocity fusion and the trajectory integrator of [predictLanding], and
    the properties the specification states about them.

    A JavaScript [number] is an IEEE-754 binary64 value; it is modelled by
    Rocq's primitive [float], whose operations are the same binary64
    operations with round-to-nearest-even.  Decimal literals denote, as in
    JavaScript, the nearest binary64 value.  Integer counters that stay far
    below 2^53 ([steps]) are kept in [Z].  [Math.cos], [Math.sin] and
    [Math.pow] are parameters of the development (class [MathLib]); the
    statements hold for every platform, and the sample runs only call them
    where ECMAScript fixes the result.  The one exception is the range of
    the atmosphere model, which needs a coarse bound on [Math.pow]
    ([pow_in_range]).

    Main results:
    - [predictLanding_null_iff]: when [predictLanding] returns [null];
    - [timeToImpact_accumulates]: the step cap, termination, and
      [timeToImpact] as the accumulated time steps;
    - [path_ends_at_ground], [predictLanding_on_ground]: the last point of
      the path, and the run that starts at or below the ground;
    - [gradient_wind_profile]: clamping and linear blend of the wind layers;
    - [meters_per_degree]: the two meters-per-degree conversions;
    - [velocity_fusion]: GPS availability, IMU fallback and the auto weight;
    - [reference_density_first_step_only], [getAirDensity_range]: the
      atmosphere model, its calibration, and the range in which the density
      is a finite positive number;
    - [no_drag_at_zero_relative_velocity]: the drag of a vehicle at rest in
      the air.

    Further results cover the rest of [geo.ts] and the views that call it:
    - [calculateTotalDistance_incremental], [calculateSmoothedSpeed_window],
      [calculateSmoothedSpeed_edges], [calculateSpeed_not_later],
      [stationary_track]: the distance and speed helpers;
    - [gradient_wind_total], [particle_wind_agrees]: the wind field on
      unsorted layers, and its copy in the 3D view;
    - [single_apogee]: the flight phases of a run;
    - [path_is_decimated], [path_never_below_ground], [path_ends_at_landing]:
      the recorded path;
    - [predictLanding_without_number], [heading_source_selects_inputs]: NaN
      altitudes, and the inputs each heading source reads;
    - [density_reading_threshold], [gps_track_needs_later_sample],
      [ballistic_ascent_needs_mass]: readings and settings that are not
      usable;
    - [flight_view_prediction], [map_view_prediction],
      [export_row_prediction], [export_history_window]: the guards of the
      callers against the sanity checks of the predictor. *)

From Stdlib Require Import Floats ZArith QArith Qabs Qpower List Bool Lia Lqa.
Import ListNotations.

Set Warnings "-inexact-float,-abstract-large-number".

#[local] Open Scope float_scope.

(** ** JavaScript number operators *)

(** [a > b] and [a >= b] are [b < a] and [b <= a]; every comparison with a
    NaN operand is [false]. *)
Notation "x >? y" := (PrimFloat.ltb y x) (at level 70, no associativity, only parsing) : float_scope.
Notation "x >=? y" := (PrimFloat.leb y x) (at level 70, no associativity, only parsing) : float_scope.

(** [a === b] on numbers: IEEE equality ([NaN] differs from itself, [+0 === -0]). *)
Definition strict_eq (x y : float) : bool := (x =? y).

Definition Math_PI : float := 3.141592653589793.

Definition Math_abs (x : float) : float := abs x.

Definition Math_sqrt (x : float) : float := sqrt x.

(** [Math.max(x, y)]: NaN when an argument is NaN; [+0] is larger than [-0]. *)
Definition Math_max (x y : float) : float :=
  if is_nan x || is_nan y then nan
  else if x <? y then y
  else if y <? x then x
  else if get_sign x then y else x.

(** [x % y] on numbers: the exact remainder of the truncating division, with
    the sign of the dividend (ECMAScript Number::remainder). *)
Definition js_rem (x y : float) : float :=
  match Prim2SF x, Prim2SF y with
  | S754_nan, _ | _, S754_nan => nan
  | S754_infinity _, _ => nan
  | _, S754_zero _ => nan
  | _, S754_infinity _ => x
  | S754_zero _, _ => x
  | S754_finite sx mx ex, S754_finite _ my ey =>
      let e := Z.min ex ey in
      let X := Z.shiftl (Zpos mx) (ex - e) in
      let Y := Z.shiftl (Zpos my) (ey - e) in
      let r := Z.rem X Y in
      SF2Prim (binary_normalize prec emax (if sx then (- r)%Z else r) e sx)
  end.

(** The transcendental functions of [Math] are implementation-approximated
    in ECMAScript: they are an interface of the platform. *)
Class MathLib : Type := {
  Math_cos : float -> float;
  Math_sin : float -> float;
  Math_pow : float -> float -> float
}.

(** The results ECMAScript fixes exactly, as far as this development uses
    them: [cos(+-0) = 1], [sin(+0) = +0], and [pow(b, e) = NaN] for a finite
    negative base [b] and the non-integral exponent [5.2561]. *)
Record ES_exact (M : MathLib) : Prop := {
  cos_zero : forall x, is_zero x = true -> Math_cos x = 1;
  sin_pos_zero : Math_sin 0 = 0;
  pow_neg_base : forall b, (b <? 0) = true -> is_infinity b = false ->
                           Math_pow b 5.2561 = nan
}.

(** A platform that returns the exact results above and NaN on every other
    argument; it is used to evaluate runs that call [Math] only on those. *)
Definition exact_only : MathLib := {|
  Math_cos := fun x => if is_zero x then 1 else nan;
  Math_sin := fun x => if is_zero x then x else nan;
  Math_pow := fun b e => if is_zero e then 1 else nan
|}.

(** A coarse bound on [Math.pow(b, 5.2561)], which ECMAScript leaves to the
    implementation: for a base between 2^-16 and 2^16 the result lies
    between 2^-85 and 2^85. The mathematical power lies between 2^-84.1 and
    2^84.1 there, so the bound holds of every implementation that is right
    within a factor 1.8. *)
Definition pow_in_range (M : MathLib) : Prop :=
  forall b, (0x1p-16 <=? b) = true -> (b <=? 0x1p+16) = true ->
    (0x1p-85 <=? Math_pow b 5.2561) = true /\ (Math_pow b 5.2561 <=? 0x1p+85) = true.

(** A platform within that bound, for closed runs at sea level: its power
    is 1 for every base between 2^-16 and 2^16 (the exact result for the
    base 1 of sea level), and NaN elsewhere. *)
Definition sea_level_only : MathLib := {|
  Math_cos := fun x => if is_zero x then 1 else nan;
  Math_sin := fun x => if is_zero x then x else nan;
  Math_pow := fun b e => if (0x1p-16 <=? b) && (b <=? 0x1p+16) then 1 else nan
|}.

(** The exact rational value of a finite float (0 for infinities and NaN). *)
Definition F2Q (x : float) : Q :=
  match Prim2SF x with
  | S754_finite s m e =>
      let v := if s then Zneg m else Zpos m in
      match e with
      | Zneg p => Qmake v (2 ^ p)
      | _ => inject_Z (v * 2 ^ e)
      end
  | _ => 0%Q
  end.

(** The same value, read on the representation of a number. *)
Definition SF2Q (f : spec_float) : Q :=
  match f with
  | S754_finite s m e =>
      let v := if s then Zneg m else Zpos m in
      match e with
      | Zneg p => Qmake v (2 ^ p)
      | _ => inject_Z (v * 2 ^ e)
      end
  | _ => 0%Q
  end.

(** ** The order of floats, read on integer keys

    [SFcompare] orders the non-NaN floats as: negative infinity, the negative
    finite ones, both zeros, the positive finite ones, positive infinity; two
    finite floats of one sign compare by exponent, then mantissa. A key is
    that position as a triple of integers compared lexicographically. *)
Definition SFkey (f : spec_float) : option (Z * Z * Z) :=
  match f with
  | S754_nan => None
  | S754_infinity true => Some (-2, 0, 0)%Z
  | S754_infinity false => Some (2, 0, 0)%Z
  | S754_zero _ => Some (0, 0, 0)%Z
  | S754_finite true m e => Some (-1, - e, Zneg m)%Z
  | S754_finite false m e => Some (1, e, Zpos m)%Z
  end.

Definition fkey (x : float) : option (Z * Z * Z) := SFkey (Prim2SF x).

Definition lex3 (a b : Z * Z * Z) : comparison :=
  let '(a1, a2, a3) := a in
  let '(b1, b2, b3) := b in
  match (a1 ?= b1)%Z with
  | Eq => match (a2 ?= b2)%Z with Eq => (a3 ?= b3)%Z | c => c end
  | c => c
  end.

Definition lt3 (a b : Z * Z * Z) : Prop :=
  let '(a1, a2, a3) := a in
  let '(b1, b2, b3) := b in
  (a1 < b1 \/ (a1 = b1 /\ (a2 < b2 \/ (a2 = b2 /\ a3 < b3))))%Z.

Definition lt3b (a b : Z * Z * Z) : bool := match lex3 a b with Lt => true | _ => false end.
Definition le3b (a b : Z * Z * Z) : bool := match lex3 a b with Gt => false | _ => true end.
Definition eq3b (a b : Z * Z * Z) : bool := match lex3 a b with Eq => true | _ => false end.

Definition key_test (f : Z * Z * Z -> Z * Z * Z -> bool) (a b : option (Z * Z * Z)) : bool :=
  match a, b with Some a, Some b => f a b | _, _ => false end.

(** ** Constants *)

Definition R_EARTH : float := 6371e3.
Definition G : float := 9.81.
Definition R_GAS : float := 287.05.
Definition T_STD : float := 288.15.
Definition P_STD : float := 101325.
Definition L_RATE : float := 0.0065.

(** ** Data model ([src/types]) *)

Module WindLayer.
Record t : Type := mk { altitude : float; speed : float; direction : float }.
End WindLayer.

Inductive WindMode : Type := single | gradient.

(** [speed], [direction] and [layers] are read through [??] and [||]: an
    absent (undefined or null) property is [None]. *)
Module WindSettings.
Record t : Type := mk {
  mode : WindMode;
  speed : option float;
  direction : option float;
  layers : option (list WindLayer.t);
  windSpeed : option float;
  windDirection : option float
}.
End WindSettings.

Module DescentSettings.
Record t : Type := mk { mass : float; parachuteArea : float; dragCoefficient : float }.
End DescentSettings.

Inductive HeadingSource : Type := gps | imu | fused | auto.

(** The two properties of [LandingSettings] that [predictLanding] reads;
    [gpsWeight] is compared with [undefined]. *)
Module LandingSettings.
Record t : Type := mk { headingSource : HeadingSource; gpsWeight : option float }.
End LandingSettings.

Module HistoryPoint.
Record t : Type := mk { latitude : float; longitude : float; timeElapsed : float }.
End HistoryPoint.

Module Wind.
Record t : Type := mk { speed : float; dir : float }.
End Wind.

Module Coord.
Record t : Type := mk { lat : float; lon : float }.
End Coord.

Module PathPoint.
Record t : Type := mk { lat : float; lon : float; alt : float }.
End PathPoint.

Module LandingPrediction.
Record t : Type := mk {
  lat : float;
  lon : float;
  timeToImpact : float;
  confidenceRadius : float;
  path : list PathPoint.t
}.
End LandingPrediction.

(** [a ?? b] *)
Definition nullish {A : Type} (a : option A) (b : A) : A :=
  match a with Some v => v | None => b end.

(** ** Atmosphere, wind and position models *)

Section Physics.
Context {M : MathLib}.

(** ISA density at [altitude], as [getAirDensity] computes it before the
    optional scaling (also evaluated at the reference altitude). *)
Definition isaDensityAt (altitude : float) : float :=
  let temperature := T_STD - (L_RATE * altitude) in
  let pressure := P_STD * Math_pow (1 - (L_RATE * altitude) / T_STD) 5.2561 in
  pressure / (R_GAS * temperature).

Definition getAirDensity (altitude refDensity refAlt : float) : float :=
  if altitude >? 40000 then 0
  else
    let isaDensity := isaDensityAt altitude in
    if refDensity >? 0.1 then
      let refIsaDensity := isaDensityAt refAlt in
      let factor := refDensity / refIsaDensity in
      isaDensity * factor
    else isaDensity.

Definition layerWind (l : WindLayer.t) : Wind.t :=
  Wind.mk (WindLayer.speed l) (WindLayer.direction l).

(** The [for] loop of [getWindAtAltitude] over the adjacent pairs
    [layers[i], layers[i+1]], with the final [return { speed: 0, dir: 0 }]. *)
Fixpoint interpolateLayers (alt : float) (layers : list WindLayer.t) : Wind.t :=
  match layers with
  | lower :: ((upper :: _) as rest) =>
      if (alt >=? WindLayer.altitude lower) && (alt <=? WindLayer.altitude upper) then
        let ratio := (alt - WindLayer.altitude lower)
                     / (WindLayer.altitude upper - WindLayer.altitude lower) in
        Wind.mk
          (WindLayer.speed lower
           + (WindLayer.speed upper - WindLayer.speed lower) * ratio)
          (WindLayer.direction lower
           + (WindLayer.direction upper - WindLayer.direction lower) * ratio)
      else interpolateLayers alt rest
  | _ => Wind.mk 0 0
  end.

Definition getWindAtAltitude (alt : float) (settings : WindSettings.t) : Wind.t :=
  match WindSettings.mode settings with
  | single =>
      let s := nullish (WindSettings.speed settings)
                 (nullish (WindSettings.windSpeed settings) 0) in
      let d := nullish (WindSettings.direction settings)
                 (nullish (WindSettings.windDirection settings) 0) in
      Wind.mk s d
  | gradient =>
      let layers := nullish (WindSettings.layers settings) [] in
      match layers with
      | [] => Wind.mk 0 0
      | first :: _ =>
          if alt <=? WindLayer.altitude first then layerWind first
          else
            let top := last layers first in
            if alt >=? WindLayer.altitude top then layerWind top
            else interpolateLayers alt layers
      end
  end.

Definition displaceCoordinate (lat lon dx dy : float) : Coord.t :=
  let rLat := lat * Math_PI / 180 in
  let dLat := (dy / R_EARTH) * (180 / Math_PI) in
  let dLon := (dx / (R_EARTH * Math_cos rLat)) * (180 / Math_PI) in
  Coord.mk (lat + dLat) (lon + dLon).

(** ** Velocity fusion (step 2 of [predictLanding]) *)

(** A. GPS ground-track vector: [Some (vN_gps, vE_gps)] when [hasGpsVec]
    is set. The guard [history.length >= 3] keeps both reads in range. *)
Definition gpsGroundTrack (history : list HistoryPoint.t) : option (float * float) :=
  if (3 <=? length history)%nat then
    match nth_error history (length history - 1),
          nth_error history (length history - 3) with
    | Some pLast, Some pPrev =>
        let dtHist := (HistoryPoint.timeElapsed pLast - HistoryPoint.timeElapsed pPrev) / 1000 in
        if (dtHist >? 0.1) && (dtHist <? 3.0) then
          let metersPerDegLat := 111320 in
          let metersPerDegLon :=
            111320 * Math_cos (HistoryPoint.latitude pLast * Math_PI / 180) in
          let dLat := HistoryPoint.latitude pLast - HistoryPoint.latitude pPrev in
          let dLon := HistoryPoint.longitude pLast - HistoryPoint.longitude pPrev in
          Some ((dLat * metersPerDegLat) / dtHist, (dLon * metersPerDegLon) / dtHist)
        else None
    | _, _ => None
    end
  else None.

(** B. IMU heading vector. *)
Definition imuVector (hSpeedCurrent headingCurrent : float) : float * float :=
  let radHeading := headingCurrent * (Math_PI / 180) in
  (hSpeedCurrent * Math_cos radHeading, hSpeedCurrent * Math_sin radHeading).

(** The weight of the "Fused or Auto" branch. *)
Definition fusionWeight (landingSettings : LandingSettings.t) (hSpeedCurrent : float) : float :=
  match LandingSettings.headingSource landingSettings with
  | fused => nullish (LandingSettings.gpsWeight landingSettings) 0.5
  | _ =>
      let isGuided := hSpeedCurrent >? 5.0 in
      if isGuided then 0.3 else 0.8
  end.

(** C. Fusion logic: the pair [(vN, vE)]. *)
Definition fuseVelocity (gpsVec : option (float * float)) (imuVec : float * float)
    (hSpeedCurrent : float) (landingSettings : LandingSettings.t) : float * float :=
  let '(vN_imu, vE_imu) := imuVec in
  match gpsVec with
  | None => (vN_imu, vE_imu)
  | Some (vN_gps, vE_gps) =>
      match LandingSettings.headingSource landingSettings with
      | gps => (vN_gps, vE_gps)
      | imu => (vN_imu, vE_imu)
      | _ =>
          let gpsWeight := fusionWeight landingSettings hSpeedCurrent in
          ((vN_gps * gpsWeight) + (vN_imu * (1 - gpsWeight)),
           (vE_gps * gpsWeight) + (vE_imu * (1 - gpsWeight)))
      end
  end.

(** ** Trajectory integrator (steps 3 and 4 of [predictLanding]) *)

Definition dt : float := 0.2.
Definition MAX_STEPS : Z := 18000.

(** The variables the simulation loop updates. *)
Record SimState : Type := mkSim {
  vN : float;
  vE : float;
  vU : float;
  currentLat : float;
  currentLon : float;
  currentAlt : float;
  t : float;
  steps : Z;
  isAscending : bool;
  path : list PathPoint.t
}.

Section Loop.
(** The variables of [predictLanding] the loop reads and never writes. *)
Variable descentSettings : DescentSettings.t.
Variable windSettings : WindSettings.t.
Variables alt groundAlt currentDensity : float.

(** [(mass, area, cd)] of the current phase. *)
Definition phaseParameters (s : SimState) : float * float * float :=
  if isAscending s then
    (DescentSettings.mass descentSettings * 2.0, 0.015, 0.5)
  else
    ((if DescentSettings.mass descentSettings >? 0
      then DescentSettings.mass descentSettings else 1.0),
     (if DescentSettings.parachuteArea descentSettings >? 0
      then DescentSettings.parachuteArea descentSettings else 0.5),
     (if DescentSettings.dragCoefficient descentSettings >? 0
      then DescentSettings.dragCoefficient descentSettings else 1.5)).

(** The reference density passed to [getAirDensity]: [t === 0 ? currentDensity : 0]. *)
Definition referenceDensity (s : SimState) : float :=
  if strict_eq (t s) 0 then currentDensity else 0.

(** A. [stepDensity] *)
Definition stepDensity (s : SimState) : float :=
  getAirDensity (currentAlt s) (referenceDensity s) alt.

(** B. the wind velocity vector [(wN, wE, wU)] *)
Definition windVelocity (s : SimState) : float * float * float :=
  let wind := getWindAtAltitude (currentAlt s) windSettings in
  let windToRad := js_rem (Wind.dir wind + 180) 360 * (Math_PI / 180) in
  (Wind.speed wind * Math_cos windToRad, Wind.speed wind * Math_sin windToRad, 0).

(** C. the relative velocity [(relN, relE, relU)] *)
Definition relativeVelocity (s : SimState) : float * float * float :=
  let '(wN, wE, wU) := windVelocity s in
  (vN s - wN, vE s - wE, vU s - wU).

(** D. the drag force [(fDragN, fDragE, fDragU)] *)
Definition dragForce (s : SimState) : float * float * float :=
  let '(_, area, cd) := phaseParameters s in
  let '(relN, relE, relU) := relativeVelocity s in
  let vRelSq := relN * relN + relE * relE + relU * relU in
  let vRelMag := Math_sqrt vRelSq in
  let dragFactor := -0.5 * stepDensity s * vRelMag * cd * area in
  (dragFactor * relN, dragFactor * relE, dragFactor * relU).

(** E, F. the net acceleration [(aN, aE, aU)] *)
Definition acceleration (s : SimState) : float * float * float :=
  let '(mass, _, _) := phaseParameters s in
  let '(fDragN, fDragE, fDragU) := dragForce s in
  let fGravU := - mass * G in
  (fDragN / mass, fDragE / mass, (fDragU + fGravU) / mass).

(** One iteration of the [while] body. *)
Definition step (s : SimState) : SimState :=
  let isAscending' :=
    if isAscending s && (vU s <=? 0) then false else isAscending s in
  let '(aN, aE, aU) := acceleration s in
  let vN' := vN s + aN * dt in
  let vE' := vE s + aE * dt in
  let vU' := vU s + aU * dt in
  let dLatMeters := vN' * dt in
  let dLonMeters := vE' * dt in
  let newCoords := displaceCoordinate (currentLat s) (currentLon s) dLonMeters dLatMeters in
  let currentAlt' := currentAlt s + vU' * dt in
  let t' := t s + dt in
  let steps' := (steps s + 1)%Z in
  let path' :=
    if (steps' mod 5 =? 0)%Z || (currentAlt' <=? groundAlt) then
      path s ++ [PathPoint.mk (Coord.lat newCoords) (Coord.lon newCoords)
                   (Math_max groundAlt currentAlt')]
    else path s in
  mkSim vN' vE' vU' (Coord.lat newCoords) (Coord.lon newCoords) currentAlt'
        t' steps' isAscending' path'.

(** [currentAlt > groundAlt && steps < MAX_STEPS] *)
Definition loopCondition (s : SimState) : bool :=
  (currentAlt s >? groundAlt) && (steps s <? MAX_STEPS)%Z.

(** The [while] loop, run for at most [fuel] iterations. *)
Fixpoint simulate (fuel : nat) (s : SimState) : SimState :=
  match fuel with
  | O => s
  | S fuel' => if loopCondition s then simulate fuel' (step s) else s
  end.

(** The states in which the loop body is entered, in order. *)
Fixpoint visited (fuel : nat) (s : SimState) : list SimState :=
  match fuel with
  | O => []
  | S fuel' => if loopCondition s then s :: visited fuel' (step s) else []
  end.

(** "Ensure ground point is exact". *)
Definition closePath (s : SimState) : list PathPoint.t :=
  if (0 <? length (path s))%nat
     && (PathPoint.alt (last (path s) (PathPoint.mk 0 0 0)) >? groundAlt)
  then path s ++ [PathPoint.mk (currentLat s) (currentLon s) groundAlt]
  else path s.
End Loop.

(** The state at the loop's entry. *)
Definition initialState (lat lon alt vSpeedCurrent : float) (v : float * float) : SimState :=
  mkSim (fst v) (snd v) vSpeedCurrent lat lon alt 0 0 (vSpeedCurrent >? 0) [].

(** The state when the loop of [predictLanding] is left (for inputs that
    pass the sanity checks). *)
Definition finalState (lat lon alt vSpeedCurrent hSpeedCurrent headingCurrent : float)
    (descentSettings : DescentSettings.t) (windSettings : WindSettings.t)
    (landingSettings : LandingSettings.t)
    (groundAlt currentDensity : float) (history : list HistoryPoint.t) : SimState :=
  let v := fuseVelocity (gpsGroundTrack history)
             (imuVector hSpeedCurrent headingCurrent) hSpeedCurrent landingSettings in
  simulate descentSettings windSettings alt groundAlt currentDensity
    (Z.to_nat MAX_STEPS) (initialState lat lon alt vSpeedCurrent v).

(** [predictLanding]; [null] is [None]. The parameters with a default
    value ([groundAlt], [currentDensity], [history]) are passed explicitly. *)
Definition predictLanding (lat lon alt vSpeedCurrent hSpeedCurrent headingCurrent : float)
    (descentSettings : DescentSettings.t) (windSettings : WindSettings.t)
    (landingSettings : LandingSettings.t)
    (groundAlt currentDensity : float) (history : list HistoryPoint.t)
    : option LandingPrediction.t :=
  if alt <? 5 then None
  else if (Math_abs lat <? 0.0001) && (Math_abs lon <? 0.0001) then None
  else
    let s := finalState lat lon alt vSpeedCurrent hSpeedCurrent headingCurrent
               descentSettings windSettings landingSettings
               groundAlt currentDensity history in
    let confidence := 15 + (alt * 0.05) + (t s * 0.5) in
    Some (LandingPrediction.mk (currentLat s) (currentLon s) (t s) confidence
            (closePath groundAlt s)).
End Physics.

(** ** Distances and speeds over the track *)

(** [Math.atan2] is implementation-approximated like the functions of
    [MathLib]; it is an interface of the platform of its own, read by
    [calculateDistance] only. *)
Class MathAtan2 : Type := {
  Math_atan2 : float -> float -> float
}.

(** ECMAScript fixes [atan2(+0, x) = +0] for every [x > 0]. *)
Record ES_exact_atan2 (A : MathAtan2) : Prop := {
  atan2_pos_zero : forall x, (x >? 0) = true -> Math_atan2 0 x = 0
}.

(** A platform that returns the exact results of [atan2] for a zero first
    argument and a positive second one, and NaN elsewhere. *)
Definition exact_only_atan2 : MathAtan2 := {|
  Math_atan2 := fun y x => if is_zero y && (x >? 0) then y else nan
|}.

(** The outcome of a call that can fail: the value returned, or the
    [TypeError] of a property read on [undefined]. *)
Inductive Completion (A : Type) : Type :=
| Returns (a : A)
| ThrowsTypeError.

Arguments Returns {A} a.
Arguments ThrowsTypeError {A}.

Section Track.
Context {M : MathLib} {A : MathAtan2}.

(** Great-circle distance (haversine). *)
Definition calculateDistance (lat1 lon1 lat2 lon2 : float) : float :=
  let phi1 := lat1 * Math_PI / 180 in
  let phi2 := lat2 * Math_PI / 180 in
  let dPhi := (lat2 - lat1) * Math_PI / 180 in
  let dLambda := (lon2 - lon1) * Math_PI / 180 in
  let a := Math_sin (dPhi / 2) * Math_sin (dPhi / 2)
           + Math_cos phi1 * Math_cos phi2
             * Math_sin (dLambda / 2) * Math_sin (dLambda / 2) in
  let c := 2 * Math_atan2 (Math_sqrt a) (Math_sqrt (1 - a)) in
  R_EARTH * c.

Definition calculateSpeed (prevLat prevLon prevTime currLat currLon currTime : float)
    : float :=
  let dist := calculateDistance prevLat prevLon currLat currLon in
  let timeDiff := (currTime - prevTime) / 1000 in
  if timeDiff <=? 0 then 0 else dist / timeDiff.

(** The distance between two samples of the track. *)
Definition segment (p q : HistoryPoint.t) : float :=
  calculateDistance (HistoryPoint.latitude p) (HistoryPoint.longitude p)
    (HistoryPoint.latitude q) (HistoryPoint.longitude q).

(** The summing loops of [calculateSmoothedSpeed] and
    [calculateTotalDistance]: [total += calculateDistance(...)] for the
    adjacent pairs of [history], in order. *)
Fixpoint addSegments (total : float) (history : list HistoryPoint.t) : float :=
  match history with
  | p :: ((q :: _) as rest) => addSegments (total + segment p q) rest
  | _ => total
  end.

(** [windowSize] is an integer, as at the call sites (12, and the default
    5). [history[startIndex]] is [undefined] when the index is past the
    end, and the read of its [timeElapsed] throws. *)
Definition calculateSmoothedSpeed (history : list HistoryPoint.t) (windowSize : Z)
    : Completion float :=
  if (length history <? 2)%nat then Returns 0
  else
    let endIndex := (Z.of_nat (length history) - 1)%Z in
    let startIndex := Z.max 0 (endIndex - windowSize) in
    if (startIndex =? endIndex)%Z then Returns 0
    else
      let totalDist := addSegments 0 (skipn (Z.to_nat startIndex) history) in
      match nth_error history (Z.to_nat startIndex),
            nth_error history (Z.to_nat endIndex) with
      | Some startPoint, Some endPoint =>
          let timeDiff :=
            (HistoryPoint.timeElapsed endPoint - HistoryPoint.timeElapsed startPoint)
            / 1000 in
          if timeDiff <=? 0.1 then Returns 0 else Returns (totalDist / timeDiff)
      | _, _ => ThrowsTypeError
      end.

Definition calculateTotalDistance (history : list HistoryPoint.t) : float :=
  addSegments 0 history.
End Track.

(** ** Callers of the predictor and of the wind field *)

(** The properties of [TelemetryPacket] the callers read. *)
Module TelemetryPacket.
Record t : Type := mk {
  latitude : float;
  longitude : float;
  heading : float;
  timeElapsed : float;
  relAltitude : float;
  vSpeed : float;
  hSpeed : float;
  density : float
}.
End TelemetryPacket.

(** A packet read as a sample [{latitude, longitude, timeElapsed}] of the track. *)
Definition historyPoint (p : TelemetryPacket.t) : HistoryPoint.t :=
  HistoryPoint.mk (TelemetryPacket.latitude p) (TelemetryPacket.longitude p)
    (TelemetryPacket.timeElapsed p).

(** The call the views make ([App.tsx], the map view and the CSV export of
    the 3D view): the predictor on the fields of a packet [p], over a ground
    at 0 m, with the packet's density reading and a list of packets as
    history. *)
Definition predictFrom `{M : MathLib} (p : TelemetryPacket.t)
    (descent : DescentSettings.t) (wind : WindSettings.t) (landing : LandingSettings.t)
    (history : list TelemetryPacket.t) : option LandingPrediction.t :=
  predictLanding (TelemetryPacket.latitude p) (TelemetryPacket.longitude p)
    (TelemetryPacket.relAltitude p) (TelemetryPacket.vSpeed p) (TelemetryPacket.hSpeed p)
    (TelemetryPacket.heading p) descent wind landing 0 (TelemetryPacket.density p)
    (map historyPoint history).

(** The filter of the map view: the packets with a GPS fix. *)
Definition validHistory (history : list TelemetryPacket.t) : list TelemetryPacket.t :=
  filter (fun p => (Math_abs (TelemetryPacket.latitude p) >? 0.0001)
                   || (Math_abs (TelemetryPacket.longitude p) >? 0.0001))
    history.

(** [array.slice(start, end)] for indices that are natural numbers. *)
Definition slice {A : Type} (array : list A) (start finish : nat) : list A :=
  firstn (finish - start) (skipn start array).

(** The history the CSV export passes for row [i]:
    [history.slice(Math.max(0, i - 5), i + 1)]. *)
Definition histSlice (history : list TelemetryPacket.t) (i : nat) : list TelemetryPacket.t :=
  slice history (Z.to_nat (Z.max 0 (Z.of_nat i - 5))) (i + 1).

(** The wind a particle of the 3D view is moved by: the [for] loop with
    [break] over the adjacent layers; [speed] and [direction] keep their
    initial 0 when no pair matches. *)
Fixpoint particleLayers (absoluteY : float) (layers : list WindLayer.t) : float * float :=
  match layers with
  | lower :: ((upper :: _) as rest) =>
      if (absoluteY >=? WindLayer.altitude lower) && (absoluteY <=? WindLayer.altitude upper)
      then
        let r := (absoluteY - WindLayer.altitude lower)
                 / (WindLayer.altitude upper - WindLayer.altitude lower) in
        (WindLayer.speed lower + (WindLayer.speed upper - WindLayer.speed lower) * r,
         WindLayer.direction lower
         + (WindLayer.direction upper - WindLayer.direction lower) * r)
      else particleLayers absoluteY rest
  | _ => (0, 0)
  end.

(** [(speed, direction)] of the particle loop of the 3D view, which reads
    [mode], [speed], [direction] and [layers] of the wind settings as their
    type declares them (all present). *)
Definition particleWind (absoluteY : float) (mode : WindMode) (speed direction : float)
    (layers : list WindLayer.t) : float * float :=
  match mode with
  | single => (speed, direction)
  | gradient =>
      match layers with
      | [] => (0, 0)
      | first :: _ =>
          if absoluteY <=? WindLayer.altitude first
          then (WindLayer.speed first, WindLayer.direction first)
          else
            let top := last layers first in
            if absoluteY >=? WindLayer.altitude top
            then (WindLayer.speed top, WindLayer.direction top)
            else particleLayers absoluteY layers
      end
  end.

(** ** Auxiliary definitions of the statements *)

(** The value of [t] after [n] executions of [t += dt], from [t = 0]. *)
Fixpoint timeAfter (n : nat) : float :=
  match n with
  | O => 0
  | S k => timeAfter k + dt
  end.

(** [n * 0.2] evaluated on numbers, for an integer [n] below 2^53. *)
Definition stepsTimesDt (n : Z) : float := of_uint63 (Uint63.of_Z n) * 0.2.

(** [timeAfter n] stays within [0, 3600] and within [eps] of the exact
    product [n / 5], for every [n] up to [fuel] steps from [n0]. *)
Fixpoint timeCheck (eps : Q) (fuel : nat) (n0 : Z) (t0 : float) : bool :=
  (0 <=? t0) && (t0 <=? 3600)
  && Qle_bool (Qabs (F2Q t0 - inject_Z n0 * (1 # 5))) eps
  && (Z.eqb n0 0 || negb (strict_eq t0 0))
  && match fuel with
     | O => true
     | S fuel' => timeCheck eps fuel' (n0 + 1) (t0 + dt)
     end.

(** The step counts [n0, n0 + 1, ...] at which the accumulated time is the
    same number as the product [n * 0.2]. *)
Fixpoint agreements (fuel : nat) (n0 : Z) (t0 : float) : list Z :=
  (if strict_eq t0 (stepsTimesDt n0) then [n0] else [])
  ++ match fuel with
     | O => []
     | S fuel' => agreements fuel' (n0 + 1) (t0 + dt)
     end.

(** The step counter and the clock move together. *)
Definition clocked (s : SimState) : Prop :=
  (0 <= steps s <= MAX_STEPS)%Z /\ t s = timeAfter (Z.to_nat (steps s)).


Definition gradientField (layers : list WindLayer.t) : WindSettings.t :=
  WindSettings.mk gradient None None (Some layers) None None.

(** The plain linear blend of two layers at the altitude fraction [ratio]. *)
Definition linearBlend (lower upper : WindLayer.t) (ratio : float) : Wind.t :=
  Wind.mk
    (WindLayer.speed lower + (WindLayer.speed upper - WindLayer.speed lower) * ratio)
    (WindLayer.direction lower
     + (WindLayer.direction upper - WindLayer.direction lower) * ratio).

Definition altitudeFraction (lower upper : WindLayer.t) (alt : float) : float :=
  (alt - WindLayer.altitude lower) / (WindLayer.altitude upper - WindLayer.altitude lower).

(** A finite number: neither NaN nor an infinity. *)
Definition finite (x : float) : Prop := is_finite x = true.

(** A number that is zero or negative, read on its representation. *)
Definition SFnonpositive (f : spec_float) : Prop :=
  match f with
  | S754_zero _ | S754_infinity true | S754_finite true _ _ => True
  | _ => False
  end.

(** Samples that share one position and carry finite timestamps. *)
Definition stationaryAt (lat lon : float) (history : list HistoryPoint.t) : Prop :=
  Forall (fun p => HistoryPoint.latitude p = lat /\ HistoryPoint.longitude p = lon
                   /\ finite (HistoryPoint.timeElapsed p)) history.

(** Layers whose altitudes are numbers. *)
Definition numericAltitudes (layers : list WindLayer.t) : bool :=
  forallb (fun l => negb (is_nan (WindLayer.altitude l))) layers.

(** The path holds one point for every fifth step, and one more when the
    last step reached the ground between two of them; that point lies on
    the ground. *)
Definition decimated (groundAlt : float) (s : SimState) : Prop :=
  (0 <= steps s)%Z
  /\ (Z.of_nat (length (path s)) = (steps s / 5)%Z
      \/ (Z.of_nat (length (path s)) = (steps s / 5 + 1)%Z
          /\ (currentAlt s <=? groundAlt) = true
          /\ exists points p,
               path s = points ++ [p] /\ strict_eq (PathPoint.alt p) groundAlt = true)).

(** A recorded point at or above the ground (or without an altitude). *)
Definition aboveGround (groundAlt : float) (p : PathPoint.t) : Prop :=
  (groundAlt <=? PathPoint.alt p) = true \/ is_nan (PathPoint.alt p) = true.

(** The last recorded point is above the ground, or it is the current
    position of a vehicle that is no longer above the ground. *)
Definition pathEndsAt (groundAlt : float) (s : SimState) : Prop :=
  path s = []
  \/ exists points p,
       path s = points ++ [p]
       /\ ((PathPoint.alt p >? groundAlt) = true
           \/ ((currentAlt s >? groundAlt) = false
               /\ PathPoint.lat p = currentLat s /\ PathPoint.lon p = currentLon s)).

(** ** Sample inputs *)

Module Sample.
Definition descent : DescentSettings.t := DescentSettings.mk 1.0 0.5 1.5.
(** Calm air: a single wind of speed 0 from 180 degrees. *)
Definition calm : WindSettings.t :=
  WindSettings.mk single (Some 0) (Some 180) (Some []) None None.
Definition policy : LandingSettings.t := LandingSettings.mk auto (Some 0.5).
Definition layers : list WindLayer.t :=
  [WindLayer.mk 0 12.5 350; WindLayer.mk 1000 3.3 20.3; WindLayer.mk 2000 5 90].
Definition track : list HistoryPoint.t :=
  [HistoryPoint.mk 10 20 0; HistoryPoint.mk 10.00001 20 500; HistoryPoint.mk 10.00002 20 1000].
(** Three samples of a vehicle at rest on the equator, half a second apart. *)
Definition atRest : list HistoryPoint.t :=
  [HistoryPoint.mk 0 20 0; HistoryPoint.mk 0 20 500; HistoryPoint.mk 0 20 1000].
(** Layers that are not sorted by altitude. *)
Definition unsorted : list WindLayer.t :=
  [WindLayer.mk 0 2 10; WindLayer.mk 3000 8 40; WindLayer.mk 1000 4 20; WindLayer.mk 2000 6 30].
(** A packet at [relAltitude] m over Munich, received at [timeElapsed] ms. *)
Definition packet (relAltitude timeElapsed : float) : TelemetryPacket.t :=
  TelemetryPacket.mk 48.1 11.5 0 timeElapsed relAltitude 0 0 0.
(** A packet without a GPS fix. *)
Definition noFix : TelemetryPacket.t := TelemetryPacket.mk 0 0 0 0 3 0 0 0.
Definition flight : list TelemetryPacket.t :=
  map (packet 120) [0; 500; 1000; 1500; 2000; 2500; 3000].
Definition imuOnly : LandingSettings.t := LandingSettings.mk imu None.
(** Three samples whose timestamps run backwards. *)
Definition reversed : list HistoryPoint.t :=
  [HistoryPoint.mk 10 20 1000; HistoryPoint.mk 10.00001 20 500; HistoryPoint.mk 10.00002 20 0].
(** Descent settings without a mass. *)
Definition noMass : DescentSettings.t := DescentSettings.mk 0 0.5 1.5.
End Sample.

(** * Properties *)

(** ** Facts about the order of floats *)

Lemma SFcompare_key f1 f2 :
  SFcompare f1 f2 =
  match SFkey f1, SFkey f2 with
  | Some a, Some b => Some (lex3 a b)
  | _, _ => None
  end.
Proof.
  destruct f1 as [[]|[]| |[] m1 e1], f2 as [[]|[]| |[] m2 e2]; cbn; try reflexivity.
  rewrite Z.compare_opp, (Z.compare_antisym e1 e2).
  destruct (e1 ?= e2)%Z; reflexivity.
Qed.

Lemma lex3_Lt a b : lex3 a b = Lt <-> lt3 a b.
Proof.
  destruct a as [[a1 a2] a3], b as [[b1 b2] b3]; unfold lex3, lt3.
  destruct (Z.compare_spec a1 b1), (Z.compare_spec a2 b2), (Z.compare_spec a3 b3);
    split; intros; try discriminate; try reflexivity; try lia.
Qed.

Lemma lex3_Gt a b : lex3 a b = Gt <-> lt3 b a.
Proof.
  destruct a as [[a1 a2] a3], b as [[b1 b2] b3]; unfold lex3, lt3.
  destruct (Z.compare_spec a1 b1), (Z.compare_spec a2 b2), (Z.compare_spec a3 b3);
    split; intros; try discriminate; try reflexivity; try lia.
Qed.

Lemma lex3_Eq a b : lex3 a b = Eq <-> a = b.
Proof.
  destruct a as [[a1 a2] a3], b as [[b1 b2] b3]; unfold lex3.
  destruct (Z.compare_spec a1 b1), (Z.compare_spec a2 b2), (Z.compare_spec a3 b3);
    split; intros E; try discriminate; try reflexivity;
    try (injection E; lia); subst; reflexivity.
Qed.

Lemma ltb_lex x y : (x <? y) = key_test lt3b (fkey x) (fkey y).
Proof.
  rewrite FloatAxioms.ltb_spec. unfold SFltb, fkey, key_test, lt3b. rewrite SFcompare_key.
  destruct (SFkey (Prim2SF x)), (SFkey (Prim2SF y)); reflexivity.
Qed.

Lemma leb_lex x y : (x <=? y) = key_test le3b (fkey x) (fkey y).
Proof.
  rewrite FloatAxioms.leb_spec. unfold SFleb, fkey, key_test, le3b. rewrite SFcompare_key.
  destruct (SFkey (Prim2SF x)), (SFkey (Prim2SF y)); reflexivity.
Qed.

Lemma eqb_lex x y : (x =? y) = key_test eq3b (fkey x) (fkey y).
Proof.
  rewrite FloatAxioms.eqb_spec. unfold SFeqb, fkey, key_test, eq3b. rewrite SFcompare_key.
  destruct (SFkey (Prim2SF x)), (SFkey (Prim2SF y)); reflexivity.
Qed.

Lemma is_nan_lex x : is_nan x = match fkey x with Some _ => false | None => true end.
Proof.
  unfold is_nan. rewrite eqb_lex. destruct (fkey x) as [a|]; cbn; [|reflexivity].
  unfold eq3b. replace (lex3 a a) with Eq; [reflexivity|].
  symmetry. now apply lex3_Eq.
Qed.

Lemma lt3b_true a b : lt3b a b = true <-> lt3 a b.
Proof. unfold lt3b. rewrite <- lex3_Lt. destruct (lex3 a b); split; congruence. Qed.

Lemma lt3b_false a b : lt3b a b = false <-> ~ lt3 a b.
Proof. rewrite <- lt3b_true. destruct (lt3b a b); split; congruence. Qed.

Lemma le3b_false a b : le3b a b = false <-> lt3 b a.
Proof. unfold le3b. rewrite <- lex3_Gt. destruct (lex3 a b); split; congruence. Qed.

Lemma le3b_true a b : le3b a b = true <-> ~ lt3 b a.
Proof. rewrite <- le3b_false. destruct (le3b a b); split; congruence. Qed.

Lemma eq3b_true a b : eq3b a b = true <-> a = b.
Proof. unfold eq3b. rewrite <- lex3_Eq. destruct (lex3 a b); split; congruence. Qed.

Lemma eq3b_false a b : eq3b a b = false <-> a <> b.
Proof. rewrite <- eq3b_true. destruct (eq3b a b); split; congruence. Qed.

Lemma triple_eq (a1 a2 a3 b1 b2 b3 : Z) :
  (a1, a2, a3) = (b1, b2, b3) <-> (a1 = b1 /\ a2 = b2 /\ a3 = b3).
Proof. split; [intros E; injection E; auto | intros (-> & -> & ->); reflexivity]. Qed.

(** Decides a statement about the order of floats: the comparisons of the
    hypotheses and of the goal are read on keys, and the keys compared by
    [lia]. *)
Ltac float_order :=
  unfold strict_eq in *;
  rewrite ?ltb_lex, ?leb_lex, ?eqb_lex, ?is_nan_lex in *;
  repeat match goal with H : context [fkey _] |- _ => revert H end;
  repeat match goal with
         | |- context [fkey ?x] => destruct (fkey x) as [[[? ?] ?]|]
         end;
  unfold key_test; intros;
  rewrite ?lt3b_true, ?lt3b_false, ?le3b_true, ?le3b_false,
          ?eq3b_true, ?eq3b_false, ?triple_eq in *;
  unfold lt3 in *;
  try discriminate; try reflexivity; try lia.


Lemma leb_ltb_false x y : (x <=? y) = true -> (y <? x) = false.
Proof. intros. float_order. Qed.

Lemma leb_ltb_trans x y z : (x <=? y) = true -> (y <? z) = true -> (x <? z) = true.
Proof. intros. float_order. Qed.

Lemma ltb_trans x y z : (x <? y) = true -> (y <? z) = true -> (x <? z) = true.
Proof. intros. float_order. Qed.

Lemma not_ltb_leb x y :
  is_nan x = false -> is_nan y = false -> (x <? y) = false -> (y <=? x) = true.
Proof. intros. float_order. Qed.

Lemma ltb_not_nan_l x y : (x <? y) = true -> is_nan x = false.
Proof. intros. float_order. Qed.

Lemma ltb_not_nan_r x y : (x <? y) = true -> is_nan y = false.
Proof. intros. float_order. Qed.

Lemma leb_not_nan_l x y : (x <=? y) = true -> is_nan x = false.
Proof. intros. float_order. Qed.

(** [Math.max(g, c)] is [c] when [c > g], and equals [g] when [c <= g]. *)
Lemma Math_max_above g c : (c >? g) = true -> Math_max g c = c.
Proof.
  intros H. unfold Math_max.
  rewrite (ltb_not_nan_l _ _ H), (ltb_not_nan_r _ _ H), H. reflexivity.
Qed.

Lemma Math_max_below g c : (c <=? g) = true -> strict_eq (Math_max g c) g = true.
Proof.
  intros H. unfold Math_max.
  assert (Hc : is_nan c = false) by float_order.
  assert (Hg : is_nan g = false) by float_order.
  rewrite Hc, Hg, (leb_ltb_false _ _ H). unfold orb.
  destruct (c <? g) eqn:E.
  - float_order.
  - destruct (get_sign g); float_order.
Qed.

(** ** Facts about special values *)

Lemma is_zero_SF x : is_zero x = true <-> exists s, Prim2SF x = S754_zero s.
Proof.
  unfold is_zero. rewrite FloatAxioms.eqb_spec.
  change (Prim2SF zero) with (S754_zero false).
  destruct (Prim2SF x) as [s|[]| |[] m e]; cbn; split; intros H;
    try discriminate; try reflexivity; try (now exists s);
    destruct H as (s' & H); discriminate.
Qed.

Lemma is_nan_SF x : is_nan x = true <-> Prim2SF x = S754_nan.
Proof.
  unfold is_nan. rewrite FloatAxioms.eqb_spec, negb_true_iff.
  destruct (Prim2SF x) as [s|[]| |[] m e] eqn:E; unfold SFeqb;
    rewrite SFcompare_key; cbn; rewrite ?Z.compare_refl, ?Pos.compare_refl;
    split; intros H; try discriminate; reflexivity.
Qed.

Lemma is_infinity_SF x : is_infinity x = true <-> exists s, Prim2SF x = S754_infinity s.
Proof.
  unfold is_infinity. rewrite FloatAxioms.eqb_spec, abs_spec.
  change (Prim2SF infinity) with (S754_infinity false).
  destruct (Prim2SF x) as [s|s| |s m e]; cbn; split; intros H;
    try discriminate; try reflexivity; try (now exists s);
    destruct H as (s' & H); discriminate.
Qed.

Lemma finite_SF x :
  finite x <->
  (exists s, Prim2SF x = S754_zero s) \/ (exists s m e, Prim2SF x = S754_finite s m e).
Proof.
  unfold finite, is_finite. rewrite negb_true_iff, orb_false_iff.
  split.
  - intros [Hn Hi].
    destruct (Prim2SF x) as [s|s| |s m e] eqn:E.
    + left. now exists s.
    + assert (is_infinity x = true) by (apply is_infinity_SF; now exists s). congruence.
    + assert (is_nan x = true) by now apply is_nan_SF. congruence.
    + right. now exists s, m, e.
  - intros H. split.
    + destruct (is_nan x) eqn:E; [|reflexivity].
      apply is_nan_SF in E. destruct H as [(s & H)|(s & m & e & H)]; congruence.
    + destruct (is_infinity x) eqn:E; [|reflexivity].
      apply is_infinity_SF in E. destruct E as (s' & E).
      destruct H as [(s & H)|(s & m & e & H)]; congruence.
Qed.

(** The rounding of a result keeps the sign it is given. *)
Lemma binary_round_aux_shape sx mx ex lx :
  let r := binary_round_aux prec emax sx mx ex lx in
  r = S754_zero sx \/ r = S754_infinity sx \/ r = S754_nan
  \/ exists m e, r = S754_finite sx m e.
Proof.
  cbv zeta. unfold binary_round_aux.
  destruct (shr_fexp prec emax mx ex lx) as [mrs' e'].
  destruct (shr_fexp prec emax _ e' loc_Exact) as [mrs'' e''].
  destruct (shr_m mrs'') as [|m|m]; auto.
  destruct (e'' <=? emax - prec)%Z; eauto 6.
Qed.

(** [x + 0] is [x], except that [-0 + 0] is [+0]. *)
Lemma add_zero_r x : Prim2SF x <> S754_zero true -> x + 0 = x.
Proof.
  intros H. apply Prim2SF_inj. rewrite add_spec.
  change (Prim2SF 0) with (S754_zero false).
  destruct (Prim2SF x) as [[]|[]| |[] m e]; cbn; try reflexivity.
  now elim H.
Qed.

Lemma Prim2SF_5 : Prim2SF 5 = S754_finite false 5629499534213120 (-50).
Proof. vm_compute. reflexivity. Qed.

Lemma Prim2SF_15 : Prim2SF 15 = S754_finite false 8444249301319680 (-49).
Proof. vm_compute. reflexivity. Qed.

Lemma Prim2SF_0_05 : Prim2SF 0.05 = S754_finite false 7205759403792794 (-57).
Proof. vm_compute. reflexivity. Qed.

(** A number that is not below 5 and not NaN is positive. *)
Lemma not_below_5_positive alt :
  (alt <? 5) = false -> is_nan alt = false ->
  Prim2SF alt = S754_infinity false \/ exists m e, Prim2SF alt = S754_finite false m e.
Proof.
  intros H N.
  rewrite FloatAxioms.ltb_spec, Prim2SF_5 in H.
  destruct (Prim2SF alt) as [s|[]| |[] m e] eqn:E; try discriminate; eauto.
  assert (is_nan alt = true) by now apply is_nan_SF. congruence.
Qed.

(** For a positive altitude, [15 + alt * 0.05] is not [-0]. *)
Lemma confidence_base_not_neg_zero alt :
  (alt <? 5) = false -> is_nan alt = false ->
  Prim2SF (15 + alt * 0.05) <> S754_zero true.
Proof.
  intros H N. rewrite add_spec, mul_spec, Prim2SF_15, Prim2SF_0_05.
  destruct (not_below_5_positive alt H N) as [E|(m & e & E)]; rewrite E.
  - discriminate.
  - unfold SF64mul, SFmul. cbn [xorb].
    destruct (binary_round_aux_shape false (Zpos (m * 7205759403792794)) (e + -57) loc_Exact)
      as [R|[R|[R|(m' & e' & R)]]]; rewrite R; try discriminate.
    unfold SF64add, SFadd, binary_normalize. cbn [cond_Zopp Z.add].
    unfold binary_round.
    destruct (shl_align _ _ _) as [mz ez].
    destruct (binary_round_aux_shape false (Zpos mz) ez loc_Exact)
      as [R'|[R'|[R'|(m'' & e'' & R')]]]; rewrite R'; discriminate.
Qed.

(** ** Facts about rounding

    [binary_round_aux] shifts the mantissa right until it fits the
    precision; the lemmas follow the number of binary digits through the
    shifts to bound the exponent of the result. *)

Section Rounding.
#[local] Open Scope Z_scope.

Lemma digits2_pos_succ p : (Zpos (digits2_pos (Pos.succ p)) <= Zpos (digits2_pos p) + 1)%Z.
Proof.
  induction p as [p IH|p IH|]; cbn [Pos.succ digits2_pos]; rewrite ?Pos2Z.inj_succ; lia.
Qed.

Lemma Zdigits2_succ m : 0 <= m -> Zdigits2 (m + 1) <= Zdigits2 m + 1.
Proof.
  intros H. destruct m as [|p|p]; [cbn; lia| |lia].
  replace (Zpos p + 1) with (Zpos (Pos.succ p)) by lia.
  apply digits2_pos_succ.
Qed.

Lemma Zdigits2_nonneg m : 0 <= Zdigits2 m.
Proof. destruct m; cbn; lia. Qed.

Lemma shr_1_spec r :
  0 <= shr_m r ->
  0 <= shr_m (shr_1 r) /\ Zdigits2 (shr_m (shr_1 r)) = Z.max 0 (Zdigits2 (shr_m r) - 1).
Proof.
  destruct r as [m rb sb]. cbn [shr_m]. intros H.
  destruct m as [|[p|p|]|p]; cbn [shr_1 shr_m Zdigits2 digits2_pos];
    rewrite ?Pos2Z.inj_succ; lia.
Qed.

Lemma iter_shr_1_spec p : forall r,
  0 <= shr_m r ->
  0 <= shr_m (Corelib.Floats.SpecFloat.iter_pos shr_1 p r)
  /\ Zdigits2 (shr_m (Corelib.Floats.SpecFloat.iter_pos shr_1 p r)) = Z.max 0 (Zdigits2 (shr_m r) - Zpos p).
Proof.
  induction p as [p IH|p IH|]; intros r H; cbn [Corelib.Floats.SpecFloat.iter_pos].
  - destruct (shr_1_spec r H) as [H1 D1].
    destruct (IH _ H1) as [H2 D2]. destruct (IH _ H2) as [H3 D3].
    split; [assumption|]. rewrite D3, D2, D1. lia.
  - destruct (IH _ H) as [H2 D2]. destruct (IH _ H2) as [H3 D3].
    split; [assumption|]. rewrite D3, D2. lia.
  - apply shr_1_spec; assumption.
Qed.

Lemma round_nearest_even_spec m l :
  0 <= m -> 0 <= round_nearest_even m l
            /\ Zdigits2 (round_nearest_even m l) <= Zdigits2 m + 1.
Proof.
  intros H. pose proof (Zdigits2_succ m H).
  destruct l as [|[]]; cbn [round_nearest_even]; try (split; lia).
  destruct (Z.even m); split; lia.
Qed.

Lemma shr_record_of_loc_m m l : shr_m (shr_record_of_loc m l) = m.
Proof. destruct l as [|[]]; reflexivity. Qed.

(** shr_fexp on a non-negative mantissa *)
Lemma shr_fexp_spec m e l :
  0 <= m ->
  let '(mrs, e') := shr_fexp prec emax m e l in
  0 <= shr_m mrs
  /\ e' = Z.max e (fexp prec emax (Zdigits2 m + e))
  /\ Zdigits2 (shr_m mrs) = Z.max 0 (Zdigits2 m - (e' - e)).
Proof.
  intros H. unfold shr_fexp, shr.
  pose proof (shr_record_of_loc_m m l) as Hm.
  pose proof (Zdigits2_nonneg m).
  destruct (fexp prec emax (Zdigits2 m + e) - e) as [|p|p] eqn:E.
  - rewrite Hm. repeat split; lia.
  - destruct (iter_shr_1_spec p (shr_record_of_loc m l)) as [A B]; [rewrite Hm; lia|].
    rewrite Hm in B. repeat split; try lia.
  - rewrite Hm. repeat split; lia.
Qed.

(** A rounded result is finite when the exponent leaves room. *)
Lemma binary_round_aux_finite sx mx ex lx :
  0 <= mx -> Zdigits2 mx + ex <= 1023 -> ex <= 971 ->
  binary_round_aux prec emax sx mx ex lx = S754_zero sx
  \/ exists m e, binary_round_aux prec emax sx mx ex lx = S754_finite sx m e.
Proof.
  intros Hm Hd He. unfold binary_round_aux.
  pose proof (shr_fexp_spec mx ex lx Hm) as H1.
  destruct (shr_fexp prec emax mx ex lx) as [mrs' e'].
  destruct H1 as (N1 & E1 & D1).
  destruct (round_nearest_even_spec (shr_m mrs') (loc_of_shr_record mrs') N1) as [N2 D2].
  pose proof (shr_fexp_spec _ e' loc_Exact N2) as H2.
  destruct (shr_fexp prec emax _ e' loc_Exact) as [mrs'' e''].
  destruct H2 as (N3 & E2 & D3).
  destruct (shr_m mrs'') as [|m|m]; [now left| |lia].
  right. replace (e'' <=? emax - prec) with true; [now exists m, e''|].
  symmetry. apply Z.leb_le.
  unfold fexp, emin, prec, emax in *. lia.
Qed.
End Rounding.

Lemma Prim2SF_neg_half : Prim2SF (-0.5) = S754_finite true 4503599627370496 (-53).
Proof. vm_compute. reflexivity. Qed.

Lemma digits2_pos_shift52 m :
  Zpos (digits2_pos (4503599627370496 * m)) = (Zpos (digits2_pos m) + 52)%Z.
Proof.
  cbn [Pos.mul digits2_pos]. rewrite !Pos2Z.inj_succ. lia.
Qed.

Lemma valid_finite_bounds x s m e :
  Prim2SF x = S754_finite s m e ->
  (Zpos (digits2_pos m) <= 53 /\ e <= 971)%Z.
Proof.
  intros E. pose proof (Prim2SF_valid x) as V. rewrite E in V.
  cbn [SpecFloat.valid_binary] in V. unfold bounded, canonical_mantissa in V.
  apply andb_prop in V. destruct V as [C B].
  apply Z.eqb_eq in C. apply Z.leb_le in B.
  unfold fexp, emin, prec, emax in *. lia.
Qed.

(** ** Products and quotients of special values *)

Lemma is_zero_finite x : is_zero x = true -> finite x.
Proof.
  intros H. apply finite_SF. left. now apply is_zero_SF.
Qed.

(** A finite number times a zero is a zero. *)
Lemma mul_zero_r x y : finite x -> is_zero y = true -> is_zero (x * y) = true.
Proof.
  intros Hx Hy. apply is_zero_SF. rewrite mul_spec.
  apply is_zero_SF in Hy. destruct Hy as (sy & ->).
  apply finite_SF in Hx. destruct Hx as [(sx & ->)|(sx & m & e & ->)]; cbn; eauto.
Qed.

Lemma mul_zero_l x y : is_zero x = true -> finite y -> is_zero (x * y) = true.
Proof.
  intros Hx Hy. apply is_zero_SF. rewrite mul_spec.
  apply is_zero_SF in Hx. destruct Hx as (sx & ->).
  apply finite_SF in Hy. destruct Hy as [(sy & ->)|(sy & m & e & ->)]; cbn; eauto.
Qed.

Lemma add_zero_zero x y : is_zero x = true -> is_zero y = true -> is_zero (x + y) = true.
Proof.
  intros Hx Hy. apply is_zero_SF. rewrite add_spec.
  apply is_zero_SF in Hx. destruct Hx as (sx & ->).
  apply is_zero_SF in Hy. destruct Hy as (sy & ->).
  destruct sx, sy; cbn; eauto.
Qed.

Lemma sqrt_zero x : is_zero x = true -> is_zero (Math_sqrt x) = true.
Proof.
  intros Hx. apply is_zero_SF. unfold Math_sqrt. rewrite sqrt_spec.
  apply is_zero_SF in Hx. destruct Hx as (sx & ->). cbn. eauto.
Qed.

(** A zero divided by a number that is neither NaN nor a zero is a zero. *)
Lemma div_zero_l x y :
  is_zero x = true -> is_nan y = false -> is_zero y = false -> is_zero (x / y) = true.
Proof.
  intros Hx Hn Hz. apply is_zero_SF. rewrite div_spec.
  apply is_zero_SF in Hx. destruct Hx as (sx & ->).
  destruct (Prim2SF y) as [sy|sy| |sy m e] eqn:E; cbn; eauto.
  - assert (is_zero y = true) by (apply is_zero_SF; eauto). congruence.
  - assert (is_nan y = true) by now apply is_nan_SF. congruence.
Qed.

(** Halving a finite number (and negating it) gives a finite number. *)
Lemma mul_neg_half_finite x : finite x -> finite (-0.5 * x).
Proof.
  intros Hx. apply finite_SF. rewrite mul_spec, Prim2SF_neg_half.
  apply finite_SF in Hx. destruct Hx as [(s & E)|(s & m & e & E)]; rewrite E.
  - left. cbn. eauto.
  - destruct (valid_finite_bounds x s m e E) as [Hd He].
    unfold SF64mul, SFmul.
    destruct (binary_round_aux_finite (xorb true s) (Zpos (4503599627370496 * m)) (-53 + e)
                loc_Exact) as [R|R].
    + lia.
    + cbn [Zdigits2]. rewrite digits2_pos_shift52. lia.
    + lia.
    + left. eauto.
    + right. destruct R as (m' & e' & R). eauto.
Qed.

(** An infinite reading scales every density to an infinity or NaN, and the
    drag factor of a motionless vehicle to NaN. *)
Lemma infinite_density_factor y : (-0.5 * (y * (infinity / y))) * 0 = nan.
Proof.
  apply Prim2SF_inj. rewrite !mul_spec, div_spec, Prim2SF_neg_half.
  change (Prim2SF infinity) with (S754_infinity false).
  change (Prim2SF 0) with (S754_zero false).
  change (Prim2SF nan) with S754_nan.
  destruct (Prim2SF y) as [[]|[]| |[] m e]; reflexivity.
Qed.

(** NaN is absorbing. *)
Lemma mul_nan_l x : nan * x = nan.
Proof.
  apply Prim2SF_inj. rewrite mul_spec. change (Prim2SF nan) with S754_nan. reflexivity.
Qed.

Lemma mul_nan_r x : x * nan = nan.
Proof.
  apply Prim2SF_inj. rewrite mul_spec. change (Prim2SF nan) with S754_nan.
  destruct (Prim2SF x) as [[]|[]| |[] m e]; reflexivity.
Qed.

Lemma div_nan_r x : x / nan = nan.
Proof.
  apply Prim2SF_inj. rewrite div_spec. change (Prim2SF nan) with S754_nan.
  destruct (Prim2SF x) as [[]|[]| |[] m e]; reflexivity.
Qed.

Lemma div_nan_l x : nan / x = nan.
Proof.
  apply Prim2SF_inj. rewrite div_spec. change (Prim2SF nan) with S754_nan. reflexivity.
Qed.

(** ** Facts about the accumulated time *)

Lemma timeAfter_iter n : timeAfter n = Nat.iter n (fun x => x + dt) 0.
Proof. induction n; cbn; [reflexivity | now rewrite IHn]. Qed.

Lemma timeCheck_sound eps fuel : forall n0 t0,
  timeCheck eps fuel n0 t0 = true ->
  forall k, (k <= fuel)%nat ->
  let tk := Nat.iter k (fun x => x + dt) t0 in
  (0 <=? tk) = true /\ (tk <=? 3600) = true
  /\ (Qabs (F2Q tk - inject_Z (n0 + Z.of_nat k) * (1 # 5)) <= eps)%Q
  /\ ((n0 + Z.of_nat k = 0)%Z \/ strict_eq tk 0 = false).
Proof.
  induction fuel as [|fuel IH]; intros n0 t0 H k Hk; cbn [timeCheck] in H;
    repeat (apply andb_prop in H; destruct H as [H ?]).
  - assert (k = 0%nat) by lia. subst k; cbn. rewrite Z.add_0_r.
    repeat split; auto.
    + now apply Qle_bool_iff.
    + destruct (Z.eqb_spec n0 0); [now left|right]. cbn in *.
      now apply negb_true_iff.
  - destruct k as [|k].
    + cbn. rewrite Z.add_0_r. repeat split; auto.
      * now apply Qle_bool_iff.
      * destruct (Z.eqb_spec n0 0); [now left|right]. cbn in *.
        now apply negb_true_iff.
    + rewrite Nat.iter_succ_r.
      replace (n0 + Z.of_nat (S k))%Z with ((n0 + 1) + Z.of_nat k)%Z by lia.
      apply IH; [assumption | lia].
Qed.

(** The check, run once over the 18,000 possible step counts. *)
Lemma timeCheck_18000 :
  timeCheck (11 # 10000000000) (Z.to_nat 18000) 0 0 = true.
Proof. vm_compute. reflexivity. Qed.

Lemma agreements_sound fuel : forall n0 t0 k,
  (k <= fuel)%nat ->
  strict_eq (Nat.iter k (fun x => x + dt) t0) (stepsTimesDt (n0 + Z.of_nat k)) = true
  -> In (n0 + Z.of_nat k)%Z (agreements fuel n0 t0).
Proof.
  induction fuel as [|fuel IH]; intros n0 t0 k Hk H; cbn [agreements].
  - assert (k = 0%nat) by lia. subst k.
    change (strict_eq t0 (stepsTimesDt (n0 + 0)) = true) in H.
    rewrite Z.add_0_r in *. rewrite H. now left.
  - destruct k as [|k].
    + change (strict_eq t0 (stepsTimesDt (n0 + 0)) = true) in H.
      rewrite Z.add_0_r in *. rewrite H. now left.
    + apply in_or_app. right. rewrite Nat.iter_succ_r in H.
      replace (n0 + Z.of_nat (S k))%Z with ((n0 + 1) + Z.of_nat k)%Z in * by lia.
      apply IH; [lia | assumption].
Qed.

(** Of the 18,001 possible step counts, 21 give the same number by repeated
    addition and by multiplication. *)
Lemma agreements_18000 :
  agreements (Z.to_nat 18000) 0 0
  = [0; 1; 2; 3; 4; 5; 13; 14; 44; 45; 190; 191; 192; 751; 752; 753;
     3012; 3013; 3014; 12044; 12045]%Z.
Proof. vm_compute. reflexivity. Qed.

Lemma timeAfter_product k :
  (Z.of_nat k <= 18000)%Z ->
  strict_eq (timeAfter k) (stepsTimesDt (Z.of_nat k)) = true ->
  In (Z.of_nat k)
     [0; 1; 2; 3; 4; 5; 13; 14; 44; 45; 190; 191; 192; 751; 752; 753;
      3012; 3013; 3014; 12044; 12045]%Z.
Proof.
  intros Hk H. rewrite timeAfter_iter in H. rewrite <- agreements_18000.
  apply (agreements_sound (Z.to_nat 18000) 0 0 k); [lia | exact H].
Qed.

Lemma timeAfter_bounds k :
  (Z.of_nat k <= 18000)%Z ->
  (0 <=? timeAfter k) = true /\ (timeAfter k <=? 3600) = true
  /\ (Qabs (F2Q (timeAfter k) - inject_Z (Z.of_nat k) * (1 # 5)) <= 11 # 10000000000)%Q
  /\ (k = 0%nat \/ strict_eq (timeAfter k) 0 = false).
Proof.
  intros Hk. rewrite timeAfter_iter.
  assert (Hk' : (k <= Z.to_nat 18000)%nat) by lia.
  destruct (timeCheck_sound _ _ _ _ timeCheck_18000 k Hk') as (A & B & C & D).
  repeat split; auto. destruct D; [left; lia | now right].
Qed.

(** ** Facts about the simulation loop *)

Section LoopFacts.
Context {M : MathLib}.
Variable descentSettings : DescentSettings.t.
Variable windSettings : WindSettings.t.
Variables alt groundAlt currentDensity : float.

#[local] Abbreviation step1 := (step descentSettings windSettings alt groundAlt currentDensity).
#[local] Abbreviation run := (simulate descentSettings windSettings alt groundAlt currentDensity).
#[local] Abbreviation entered := (visited descentSettings windSettings alt groundAlt currentDensity).
#[local] Abbreviation continues := (loopCondition groundAlt).

Lemma step_steps s : steps (step1 s) = (steps s + 1)%Z.
Proof.
  unfold step. destruct (acceleration _ _ _ _ s) as [[aN aE] aU]. reflexivity.
Qed.

Lemma step_t s : t (step1 s) = t s + dt.
Proof.
  unfold step. destruct (acceleration _ _ _ _ s) as [[aN aE] aU]. reflexivity.
Qed.

(** What the body records: on a multiple of 5 steps, or at or below the
    ground, the new position with the altitude clamped to the ground. *)
Lemma step_path s :
  path (step1 s) =
  if (steps (step1 s) mod 5 =? 0)%Z || (currentAlt (step1 s) <=? groundAlt)
  then path s ++ [PathPoint.mk (currentLat (step1 s)) (currentLon (step1 s))
                    (Math_max groundAlt (currentAlt (step1 s)))]
  else path s.
Proof.
  unfold step. destruct (acceleration _ _ _ _ s) as [[aN aE] aU]. reflexivity.
Qed.

Lemma step_clocked s : clocked s -> continues s = true -> clocked (step1 s).
Proof.
  intros [Hs Ht] Hc. apply andb_prop in Hc. destruct Hc as [_ Hc].
  apply Z.ltb_lt in Hc. split.
  - rewrite step_steps. lia.
  - rewrite step_t, step_steps, Ht.
    replace (Z.to_nat (steps s + 1)) with (S (Z.to_nat (steps s))) by lia.
    reflexivity.
Qed.

Lemma simulate_clocked fuel : forall s, clocked s -> clocked (run fuel s).
Proof.
  induction fuel as [|fuel IH]; intros s Hs; cbn; [assumption|].
  destruct (continues s) eqn:Hc; [|assumption].
  apply IH. now apply step_clocked.
Qed.

(** With fuel for the steps that remain below the cap, the loop is left
    because its condition is false. *)
Lemma simulate_exits fuel : forall s,
  (MAX_STEPS - steps s <= Z.of_nat fuel)%Z -> continues (run fuel s) = false.
Proof.
  induction fuel as [|fuel IH]; intros s Hs; cbn.
  - unfold loopCondition. replace (steps s <? MAX_STEPS)%Z with false.
    + apply andb_false_r.
    + symmetry. apply Z.ltb_ge. lia.
  - destruct (continues s) eqn:Hc; [|assumption].
    apply IH. rewrite step_steps. lia.
Qed.

(** A loop that is entered ends in the state a step produced. *)
Lemma simulate_last_step fuel : forall s,
  continues s = true ->
  exists s0, run (S fuel) s = step1 s0 /\ continues s0 = true.
Proof.
  induction fuel as [|fuel IH]; intros s Hc.
  - exists s. cbn. now rewrite Hc.
  - cbn [simulate]. rewrite Hc.
    destruct (continues (step1 s)) eqn:Hc'.
    + destruct (IH (step1 s) Hc') as (s0 & E & H0).
      exists s0. split; [|assumption].
      rewrite <- E. cbn [simulate]. now rewrite Hc'.
    + exists s. now split.
Qed.

(** The step counter counts the iterations. *)
Lemma simulate_steps fuel : forall s,
  steps (run fuel s) = (steps s + Z.of_nat (length (entered fuel s)))%Z.
Proof.
  induction fuel as [|fuel IH]; intros s; cbn [simulate visited].
  - cbn. lia.
  - destruct (continues s); [|cbn; lia].
    rewrite IH, step_steps. cbn [length]. lia.
Qed.

(** The states the body is entered in tick the clock from the first one. *)
Lemma visited_clock fuel : forall s n,
  t s = timeAfter n ->
  Forall (fun s' => exists k, (n <= k < n + fuel)%nat /\ t s' = timeAfter k)
         (entered fuel s).
Proof.
  induction fuel as [|fuel IH]; intros s n Ht; cbn; [constructor|].
  destruct (continues s); [|constructor].
  constructor.
  - exists n. split; [lia | assumption].
  - assert (Ht' : t (step1 s) = timeAfter (S n)) by (rewrite step_t, Ht; reflexivity).
    specialize (IH (step1 s) (S n) Ht').
    eapply Forall_impl; [|exact IH].
    cbn. intros s' (k & Hk & E). exists k. split; [lia | assumption].
Qed.
End LoopFacts.

(** ** The predictor facade *)

Section Facade.
Context {M : MathLib}.
Variables lat lon alt vSpeedCurrent hSpeedCurrent headingCurrent : float.
Variable descentSettings : DescentSettings.t.
Variable windSettings : WindSettings.t.
Variable landingSettings : LandingSettings.t.
Variables groundAlt currentDensity : float.
Variable history : list HistoryPoint.t.

#[local] Abbreviation predict :=
  (predictLanding lat lon alt vSpeedCurrent hSpeedCurrent headingCurrent
     descentSettings windSettings landingSettings groundAlt currentDensity history).
#[local] Abbreviation final :=
  (finalState lat lon alt vSpeedCurrent hSpeedCurrent headingCurrent
     descentSettings windSettings landingSettings groundAlt currentDensity history).
#[local] Abbreviation start :=
  (initialState lat lon alt vSpeedCurrent
     (fuseVelocity (gpsGroundTrack history) (imuVector hSpeedCurrent headingCurrent)
        hSpeedCurrent landingSettings)).

Lemma predictLanding_some r :
  predict = Some r ->
  r = LandingPrediction.mk (currentLat final) (currentLon final) (t final)
        (15 + (alt * 0.05) + (t final * 0.5)) (closePath groundAlt final).
Proof.
  unfold predictLanding.
  destruct (alt <? 5); [discriminate|].
  destruct ((Math_abs lat <? 0.0001) && (Math_abs lon <? 0.0001)); [discriminate|].
  intros E. injection E as <-. reflexivity.
Qed.

Lemma final_clocked : clocked final.
Proof.
  unfold finalState. apply simulate_clocked.
  split; cbn; [unfold MAX_STEPS; lia | reflexivity].
Qed.

Lemma final_exits : loopCondition groundAlt final = false.
Proof.
  unfold finalState. apply simulate_exits. cbn [steps initialState]. lia.
Qed.

(** C1. [predictLanding] returns [null] exactly when the altitude is below
    5 m or both |latitude| and |longitude| are below 1e-4; on every other
    input it returns a prediction (the function is total: there is no
    third outcome). *)
Theorem predictLanding_null_iff :
  (predict = None
   <-> ((alt <? 5) = true
        \/ ((Math_abs lat <? 0.0001) = true /\ (Math_abs lon <? 0.0001) = true)))
  /\ ((exists r, predict = Some r)
      <-> ((alt <? 5) = false
           /\ ((Math_abs lat <? 0.0001) = false \/ (Math_abs lon <? 0.0001) = false))).
Proof.
  unfold predictLanding.
  destruct (alt <? 5), (Math_abs lat <? 0.0001), (Math_abs lon <? 0.0001); cbn;
    (split; split;
     [ intros H; try discriminate; auto
     | intros H; try reflexivity;
       repeat match goal with
              | H : _ \/ _ |- _ => destruct H
              | H : _ /\ _ |- _ => destruct H
              end; discriminate
     | intros (r & H); try discriminate; auto
     | intros H; try (eexists; reflexivity);
       repeat match goal with
              | H : _ \/ _ |- _ => destruct H
              | H : _ /\ _ |- _ => destruct H
              end; discriminate ]).
Qed.

(** C2 (as the code has it). For a run that passes the sanity checks the
    loop is left with its condition false after at most 18,000 steps
    ([steps] counts the executions of the body), and [timeToImpact] is the
    number obtained by adding [dt = 0.2] once per executed step, starting
    from 0: it lies within 1.1e-9 s of the exact product [steps * 0.2] and
    between 0 and 3600 s, and it is the same number as the product
    [steps * 0.2] evaluated on numbers for 21 step counts only. *)
Theorem timeToImpact_accumulates r :
  predict = Some r ->
  loopCondition groundAlt final = false
  /\ steps final
     = Z.of_nat (length (visited descentSettings windSettings alt groundAlt currentDensity
                           (Z.to_nat MAX_STEPS) start))
  /\ (0 <= steps final <= 18000)%Z
  /\ LandingPrediction.timeToImpact r = timeAfter (Z.to_nat (steps final))
  /\ (Qabs (F2Q (LandingPrediction.timeToImpact r) - inject_Z (steps final) * (1 # 5))
      <= 11 # 10000000000)%Q
  /\ (0 <=? LandingPrediction.timeToImpact r) = true
  /\ (LandingPrediction.timeToImpact r <=? 3600) = true
  /\ (strict_eq (LandingPrediction.timeToImpact r) (stepsTimesDt (steps final)) = true ->
      In (steps final)
         [0; 1; 2; 3; 4; 5; 13; 14; 44; 45; 190; 191; 192; 751; 752; 753;
          3012; 3013; 3014; 12044; 12045]%Z).
Proof.
  intros E. apply predictLanding_some in E. subst r. cbn [LandingPrediction.timeToImpact].
  destruct final_clocked as [Hs Ht]. unfold MAX_STEPS in Hs.
  assert (Hk : (Z.of_nat (Z.to_nat (steps final)) <= 18000)%Z) by lia.
  destruct (timeAfter_bounds _ Hk) as (A & B & C & _).
  rewrite Z2Nat.id in C by lia. rewrite Ht.
  split; [apply final_exits|].
  split; [unfold finalState; rewrite simulate_steps; reflexivity|].
  repeat (split; [first [assumption | lia | reflexivity]|]).
  intros H. rewrite <- (Z2Nat.id (steps final)) in H |- * by lia.
  rewrite Nat2Z.id in H. apply timeAfter_product; assumption.
Qed.

Lemma simulate_not_entered fuel s :
  loopCondition groundAlt s = false ->
  simulate descentSettings windSettings alt groundAlt currentDensity fuel s = s.
Proof. intros H. destruct fuel; cbn; [reflexivity | now rewrite H]. Qed.

(** C3 (as the code has it). For a run that passes the sanity checks,
    starts above the ground and whose simulated altitude is a number (not
    NaN) when the loop is left, the returned path is not empty and the
    altitude of its last point equals [groundAlt] (as [===] does). *)
Theorem path_ends_at_ground r :
  predict = Some r ->
  (alt >? groundAlt) = true ->
  is_nan (currentAlt final) = false ->
  exists points p,
    LandingPrediction.path r = points ++ [p]
    /\ strict_eq (PathPoint.alt p) groundAlt = true.
Proof.
  intros E Habove Hnan. apply predictLanding_some in E. subst r.
  cbn [LandingPrediction.path].
  assert (Hg : is_nan groundAlt = false) by (eapply ltb_not_nan_l; eassumption).
  pose proof final_exits as Hexit. pose proof final_clocked as [Hs _].
  assert (Hstart : loopCondition groundAlt start = true).
  { unfold loopCondition. cbn [currentAlt steps initialState]. now rewrite Habove. }
  unfold finalState in *.
  replace (Z.to_nat MAX_STEPS) with (S (Z.to_nat (MAX_STEPS - 1))) in * by (unfold MAX_STEPS; lia).
  destruct (simulate_last_step descentSettings windSettings alt groundAlt currentDensity
              (Z.to_nat (MAX_STEPS - 1)) _ Hstart) as (s0 & Es & H0).
  rewrite Es in *. clear Es.
  set (f := step descentSettings windSettings alt groundAlt currentDensity s0) in *.
  (* the last iteration recorded a point *)
  assert (Hrec : ((steps f mod 5 =? 0)%Z || (currentAlt f <=? groundAlt)) = true).
  { unfold loopCondition in Hexit. apply andb_false_iff in Hexit.
    destruct Hexit as [Hx|Hx].
    - replace (currentAlt f <=? groundAlt) with true; [apply orb_true_r|].
      symmetry. now apply not_ltb_leb.
    - apply Z.ltb_ge in Hx. unfold MAX_STEPS in *.
      assert (steps f = 18000%Z) by lia.
      replace (steps f mod 5 =? 0)%Z with true; [reflexivity|].
      symmetry. apply Z.eqb_eq. replace (steps f) with 18000%Z. reflexivity. }
  pose proof (step_path descentSettings windSettings alt groundAlt currentDensity s0) as Hp.
  fold f in Hp. rewrite Hrec in Hp.
  unfold closePath. rewrite Hp, last_last, length_app. cbn [length PathPoint.alt].
  replace (0 <? length (path s0) + 1)%nat with true by (symmetry; apply Nat.ltb_lt; lia).
  cbn [andb].
  destruct (Math_max groundAlt (currentAlt f) >? groundAlt) eqn:Hm.
  - do 2 eexists. split; [reflexivity|]. cbn. float_order.
  - do 2 eexists. split; [reflexivity|]. cbn [PathPoint.alt].
    destruct (currentAlt f <=? groundAlt) eqn:Hle.
    + now apply Math_max_below.
    + assert (Hgt : (currentAlt f >? groundAlt) = true) by float_order.
      rewrite (Math_max_above _ _ Hgt) in Hm. congruence.
Qed.

(** C10. If the inputs pass the sanity checks and the initial altitude is
    at or below [groundAlt], the result is the input position with an
    empty path, [timeToImpact = 0] and [confidenceRadius = 15 + alt * 0.05]. *)
Theorem predictLanding_on_ground :
  (alt <? 5) = false ->
  ((Math_abs lat <? 0.0001) && (Math_abs lon <? 0.0001)) = false ->
  (alt <=? groundAlt) = true ->
  predict = Some (LandingPrediction.mk lat lon 0 (15 + alt * 0.05) []).
Proof.
  intros H5 Hfix Hle. unfold predictLanding. rewrite H5, Hfix.
  unfold finalState. rewrite simulate_not_entered.
  2: { unfold loopCondition. cbn [currentAlt initialState].
       now rewrite (leb_ltb_false _ _ Hle). }
  cbn [currentLat currentLon t initialState closePath path length Nat.ltb Nat.leb andb].
  change (0 * 0.5) with 0.
  rewrite add_zero_r; [reflexivity|].
  apply confidence_base_not_neg_zero; [assumption|].
  eapply leb_not_nan_l; eassumption.
Qed.
End Facade.

(** ** The wind field *)










(** ** Position and velocity conversions *)

(** C4 (as the code has it). [displaceCoordinate] turns meters into degrees
    by the spherical factor [(d / R_EARTH) * (180 / PI)], that is
    111,194.93 m per degree of latitude (longitude: scaled by the cosine of
    the current latitude), and the GPS ground track turns degrees into
    meters by 111,320 m per degree (longitude: scaled by the cosine of the
    last sample's latitude): the two constants differ, by more than 0.11 %
    of a degree per degree. *)
Theorem meters_per_degree `{M : MathLib} (lat lon dx dy : float)
    (pPrev pMid pLast : HistoryPoint.t) :
  displaceCoordinate lat lon dx dy
  = Coord.mk (lat + (dy / R_EARTH) * (180 / Math_PI))
             (lon + (dx / (R_EARTH * Math_cos (lat * Math_PI / 180))) * (180 / Math_PI))
  /\ (1 / R_EARTH) * (180 / Math_PI) = 8.9932160591873057e-06
  /\ 1 / 8.9932160591873057e-06 = 111194.92664455873
  /\ (111194.92664455873 <? 111320) = true
  /\ (1124 # 1000000 <= F2Q ((1 / R_EARTH) * (180 / Math_PI)) * 111320 - 1)%Q
  /\ (let dtHist := (HistoryPoint.timeElapsed pLast - HistoryPoint.timeElapsed pPrev) / 1000 in
      gpsGroundTrack [pPrev; pMid; pLast]
      = if (dtHist >? 0.1) && (dtHist <? 3.0)
        then Some
          (((HistoryPoint.latitude pLast - HistoryPoint.latitude pPrev) * 111320) / dtHist,
           ((HistoryPoint.longitude pLast - HistoryPoint.longitude pPrev)
            * (111320 * Math_cos (HistoryPoint.latitude pLast * Math_PI / 180))) / dtHist)
        else None).
Proof.
  repeat split; try reflexivity.
  vm_compute. discriminate.
Qed.

(** C4, counterexample: 111,320 m is one degree of latitude for the GPS
    ground track, and 1.0011248 degrees for [displaceCoordinate]. *)
Lemma displace_one_degree_north :
  Coord.lat (displaceCoordinate (M := exact_only) 0 0 0 111320) = 1.0011248117087308
  /\ strict_eq (1 * 111320) 111320 = true
  /\ strict_eq 1.0011248117087308 1 = false.
Proof. repeat split; vm_compute; reflexivity. Qed.

(** ** Velocity fusion *)

(** With at least 3 samples the two reads of the history are in range. *)
Lemma history_reads_in_range (history : list HistoryPoint.t) :
  (3 <= length history)%nat ->
  exists pLast pPrev,
    nth_error history (length history - 1) = Some pLast
    /\ nth_error history (length history - 3) = Some pPrev.
Proof.
  intros H.
  destruct (nth_error history (length history - 1)) as [pLast|] eqn:EL.
  - destruct (nth_error history (length history - 3)) as [pPrev|] eqn:EP.
    + now exists pLast, pPrev.
    + apply nth_error_None in EP. lia.
  - apply nth_error_None in EL. lia.
Qed.

(** C6. The GPS estimate exists exactly when the history has at least 3
    samples and the gap between the last sample and the one 2 indices
    before it, in seconds, is strictly between 0.1 and 3.0; without a GPS
    estimate the fused velocity is the IMU estimate whatever the policy;
    in auto mode the GPS weight is 0.3 when [hSpeedCurrent > 5] and 0.8
    otherwise, and it weights the two estimates. *)
Theorem velocity_fusion `{M : MathLib} (history : list HistoryPoint.t)
    (hSpeedCurrent headingCurrent : float) (landingSettings : LandingSettings.t) :
  ((exists v, gpsGroundTrack history = Some v)
   <-> ((3 <= length history)%nat
        /\ exists pLast pPrev,
             nth_error history (length history - 1) = Some pLast
             /\ nth_error history (length history - 3) = Some pPrev
             /\ (((HistoryPoint.timeElapsed pLast - HistoryPoint.timeElapsed pPrev) / 1000
                  >? 0.1) = true)
             /\ (((HistoryPoint.timeElapsed pLast - HistoryPoint.timeElapsed pPrev) / 1000
                  <? 3.0) = true)))
  /\ (gpsGroundTrack history = None ->
      fuseVelocity (gpsGroundTrack history) (imuVector hSpeedCurrent headingCurrent)
        hSpeedCurrent landingSettings
      = (hSpeedCurrent * Math_cos (headingCurrent * (Math_PI / 180)),
         hSpeedCurrent * Math_sin (headingCurrent * (Math_PI / 180))))
  /\ (LandingSettings.headingSource landingSettings = auto ->
      fusionWeight landingSettings hSpeedCurrent
      = (if hSpeedCurrent >? 5 then 0.3 else 0.8)
      /\ forall vN_gps vE_gps vN_imu vE_imu,
           fuseVelocity (Some (vN_gps, vE_gps)) (vN_imu, vE_imu) hSpeedCurrent landingSettings
           = let w := if hSpeedCurrent >? 5 then 0.3 else 0.8 in
             (vN_gps * w + vN_imu * (1 - w), vE_gps * w + vE_imu * (1 - w))).
Proof.
  split; [split|split].
  - intros (v & H). unfold gpsGroundTrack in H.
    destruct (3 <=? length history)%nat eqn:E; [|discriminate].
    split; [now apply Nat.leb_le|].
    destruct (nth_error history (length history - 1)) as [pLast|]; [|discriminate].
    destruct (nth_error history (length history - 3)) as [pPrev|]; [|discriminate].
    exists pLast, pPrev.
    destruct (_ >? 0.1) eqn:A; [|discriminate].
    destruct (_ <? 3.0) eqn:B; [|discriminate].
    auto.
  - intros (Hlen & pLast & pPrev & HL & HP & A & B). unfold gpsGroundTrack.
    apply Nat.leb_le in Hlen. rewrite Hlen, HL, HP, A, B. cbn [andb]. eexists. reflexivity.
  - intros ->. reflexivity.
  - intros H. split.
    + unfold fusionWeight. now rewrite H.
    + intros. unfold fuseVelocity, fusionWeight. now rewrite H.
Qed.

(** ** The atmosphere inside the loop *)

(** With a reference density of 0 the density is the plain ISA one. *)
Lemma getAirDensity_uncalibrated `{M : MathLib} (altitude refAlt : float) :
  getAirDensity altitude 0 refAlt
  = if altitude >? 40000 then 0 else isaDensityAt altitude.
Proof.
  unfold getAirDensity. change (0 >? 0.1) with false. reflexivity.
Qed.

(** The final state is reached by running the body on the entered states. *)
Lemma simulate_visited `{M : MathLib} ds ws alt groundAlt currentDensity fuel : forall s,
  simulate ds ws alt groundAlt currentDensity fuel s
  = fold_left (fun _ s' => step ds ws alt groundAlt currentDensity s')
      (visited ds ws alt groundAlt currentDensity fuel s) s.
Proof.
  induction fuel as [|fuel IH]; intros s; cbn; [reflexivity|].
  destruct (loopCondition groundAlt s); [|reflexivity].
  cbn. now rewrite IH.
Qed.

(** C7. Of the states in which the loop body is entered, only the first
    (where [t = 0] and the altitude is the initial one) passes the live
    density to [getAirDensity], with the initial altitude as reference
    altitude; in every later one [t] is not 0, the reference density passed
    is 0, and the density used is the plain ISA density of the current
    altitude (0 above 40,000 m). *)
Theorem reference_density_first_step_only `{M : MathLib}
    (descentSettings : DescentSettings.t) (windSettings : WindSettings.t)
    (lat lon alt vSpeedCurrent groundAlt currentDensity : float) (v : float * float) :
  match visited descentSettings windSettings alt groundAlt currentDensity
          (Z.to_nat MAX_STEPS) (initialState lat lon alt vSpeedCurrent v) with
  | [] => True
  | first :: later =>
      first = initialState lat lon alt vSpeedCurrent v
      /\ referenceDensity currentDensity first = currentDensity
      /\ stepDensity alt currentDensity first = getAirDensity alt currentDensity alt
      /\ Forall (fun s =>
                   strict_eq (t s) 0 = false
                   /\ referenceDensity currentDensity s = 0
                   /\ stepDensity alt currentDensity s
                      = (if currentAlt s >? 40000 then 0 else isaDensityAt (currentAlt s)))
                later
  end.
Proof.
  replace (Z.to_nat MAX_STEPS) with (S (Z.to_nat 17999)) by (unfold MAX_STEPS; lia).
  cbn [visited].
  destruct (loopCondition groundAlt (initialState lat lon alt vSpeedCurrent v)); [|exact I].
  repeat split.
  pose proof (visited_clock descentSettings windSettings alt groundAlt currentDensity
                (Z.to_nat 17999)
                (step descentSettings windSettings alt groundAlt currentDensity
                   (initialState lat lon alt vSpeedCurrent v)) 1) as H.
  eapply Forall_impl; [|apply H; rewrite step_t; reflexivity].
  cbn beta. intros s (k & Hk & Ht).
  assert (Hb : (Z.of_nat k <= 18000)%Z) by lia.
  destruct (timeAfter_bounds k Hb) as (_ & _ & _ & [->|Hnz]); [lia|].
  assert (Hr : referenceDensity currentDensity s = 0).
  { unfold referenceDensity. now rewrite Ht, Hnz. }
  repeat split.
  - now rewrite Ht.
  - exact Hr.
  - unfold stepDensity. rewrite Hr. apply getAirDensity_uncalibrated.
Qed.

(** ** The atmosphere model

    The special values of the model; the range in which it returns a finite
    positive number is the subject of the last part of the file. *)

Lemma exact_only_ES : ES_exact exact_only.
Proof.
  split.
  - intros x H. change (Math_cos x) with (if is_zero x then 1 else nan). now rewrite H.
  - reflexivity.
  - intros b _ _. reflexivity.
Qed.

Lemma is_nan_eq x : is_nan x = true -> x = nan.
Proof.
  intros H. apply Prim2SF_inj. apply is_nan_SF in H. rewrite H. reflexivity.
Qed.

Lemma isaDensityAt_nan `{M : MathLib} : isaDensityAt nan = nan.
Proof.
  unfold isaDensityAt. cbv zeta.
  replace (R_GAS * (T_STD - L_RATE * nan)) with nan by reflexivity. apply div_nan_r.
Qed.

(** Above 44,331 m the base of the ISA pressure power is negative. *)
Lemma isaDensityAt_50000 `{M : MathLib} : ES_exact M -> isaDensityAt 50000 = nan.
Proof.
  intros E. unfold isaDensityAt. cbv zeta.
  replace (1 - L_RATE * 50000 / T_STD) with (-0.12788478223147681) by reflexivity.
  rewrite (pow_neg_base M E) by reflexivity.
  rewrite mul_nan_r. apply div_nan_l.
Qed.

(** On every platform: a live reading of 1.2 kg/m3 taken at 50,000 m makes
    the density at sea level NaN. *)
Lemma getAirDensity_nan_calibration `{M : MathLib} :
  ES_exact M -> getAirDensity 0 1.2 50000 = nan.
Proof.
  intros E. unfold getAirDensity.
  change (0 >? 40000) with false. change (1.2 >? 0.1) with true. cbv iota.
  rewrite (isaDensityAt_50000 E), div_nan_r. apply mul_nan_r.
Qed.

(** ** The drag of a vehicle at rest in the air *)

(** C9 (as the code has it). In a loop iteration where the three components
    of the relative velocity are zero and the air density, the drag
    coefficient and the reference area of the iteration are finite, the three
    components of the drag force are zero; the drag is a product by the
    velocity magnitude, it divides by nothing. The only divisions of the
    iteration are by the mass: when the mass is a number other than zero,
    the horizontal accelerations are zero too. *)
Theorem no_drag_at_zero_relative_velocity `{M : MathLib}
    (descentSettings : DescentSettings.t) (windSettings : WindSettings.t)
    (alt currentDensity : float) (s : SimState)
    (relN relE relU mass area cd : float) :
  relativeVelocity windSettings s = (relN, relE, relU) ->
  is_zero relN = true -> is_zero relE = true -> is_zero relU = true ->
  phaseParameters descentSettings s = (mass, area, cd) ->
  finite (stepDensity alt currentDensity s) -> finite cd -> finite area ->
  exists fDragN fDragE fDragU,
    dragForce descentSettings windSettings alt currentDensity s = (fDragN, fDragE, fDragU)
    /\ is_zero fDragN = true /\ is_zero fDragE = true /\ is_zero fDragU = true
    /\ (is_nan mass = false -> is_zero mass = false ->
        exists aN aE,
          acceleration descentSettings windSettings alt currentDensity s
          = (aN, aE, (fDragU + - mass * G) / mass)
          /\ is_zero aN = true /\ is_zero aE = true).
Proof.
  intros Hrel HN HE HU Hphase Hrho Hcd Harea.
  assert (Hmag : is_zero (Math_sqrt (relN * relN + relE * relE + relU * relU)) = true).
  { apply sqrt_zero. repeat apply add_zero_zero;
      apply mul_zero_r; auto using is_zero_finite. }
  assert (Hfac : is_zero (-0.5 * stepDensity alt currentDensity s
                          * Math_sqrt (relN * relN + relE * relE + relU * relU)
                          * cd * area) = true).
  { apply mul_zero_l; [|exact Harea]. apply mul_zero_l; [|exact Hcd].
    apply mul_zero_r; [|exact Hmag]. now apply mul_neg_half_finite. }
  unfold acceleration, dragForce. rewrite Hphase, Hrel.
  do 3 eexists. split; [reflexivity|].
  repeat split; try (apply mul_zero_l; auto using is_zero_finite).
  intros Hn Hz. do 2 eexists. split; [reflexivity|].
  split; apply div_zero_l; auto; apply mul_zero_l; auto using is_zero_finite.
Qed.

(** ** Runs that only use exact results of [Math] *)

Section ExactRuns.
Context {M : MathLib} (E : ES_exact M).

Let Hc : Math_cos 0 = 1 := cos_zero M E 0 eq_refl.
Let Hs : Math_sin 0 = 0 := sin_pos_zero M E.

(** Evaluates a closed term up to the calls of [Math], which are rewritten
    by the exact results (and by the equation [lem]). *)
Ltac evaluate_with lem :=
  repeat (progress (cbv -[Math_cos Math_sin Math_pow]; rewrite ?Hc, ?Hs, ?lem)).

Ltac evaluate_in_with lem H :=
  repeat (progress (cbv -[Math_cos Math_sin Math_pow] in H; rewrite ?Hc, ?Hs, ?lem in H)).

Lemma simulate_unfold ds ws alt groundAlt currentDensity fuel s :
  simulate ds ws alt groundAlt currentDensity (S fuel) s
  = if loopCondition groundAlt s
    then simulate ds ws alt groundAlt currentDensity fuel (step ds ws alt groundAlt currentDensity s)
    else s.
Proof. reflexivity. Qed.

(** One iteration from a closed state: the condition is evaluated, then the body. *)
Ltac iterate_with lem :=
  rewrite simulate_unfold;
  match goal with
  | |- context [loopCondition ?g ?s] =>
      let b := eval vm_compute in (loopCondition g s) in
      change (loopCondition g s) with b
  end;
  cbv iota;
  try match goal with
      | |- context [step ?ds ?ws ?a ?g ?d ?s] =>
          let s' := fresh "s" in
          let Hs' := fresh "Hs" in
          remember (step ds ws a g d s) as s' eqn:Hs';
          evaluate_in_with lem Hs'; subst s'
      end.

Lemma at_rest_velocity :
  fuseVelocity (gpsGroundTrack []) (imuVector 0 0) 0 Sample.policy = (0, 0).
Proof. evaluate_with Hc. reflexivity. Qed.

(** A fall from rest in calm air from 40,007 m to a ground at 40,000 m,
    where the air has no density: six iterations. *)
Lemma free_fall_final :
  finalState 0 1 40007 0 0 0 Sample.descent Sample.calm Sample.policy 40000 0 []
  = mkSim 0 0 (-11.772) 0 1 39998.759600000005 1.2 6 false
      [PathPoint.mk 0 1 40001.114000000001; PathPoint.mk 0 1 40000].
Proof.
  unfold finalState. rewrite at_rest_velocity.
  replace (Z.to_nat MAX_STEPS) with (S (S (S (S (S (S (S (Z.to_nat 17993))))))))
    by (unfold MAX_STEPS; lia).
  unfold initialState. cbn [fst snd].
  change (0 >? 0) with false.
  do 7 (iterate_with Hc). reflexivity.
Qed.

Lemma free_fall_prediction :
  predictLanding 0 1 40007 0 0 0 Sample.descent Sample.calm Sample.policy 40000 0 []
  = Some (LandingPrediction.mk 0 1 1.2 2015.95
            [PathPoint.mk 0 1 40001.114000000001; PathPoint.mk 0 1 40000]).
Proof.
  unfold predictLanding. rewrite free_fall_final. reflexivity.
Qed.

(** At rest in calm air, with an infinite density reading, the first
    iteration has zero relative velocity and a NaN drag force. *)
Lemma at_rest_infinite_density :
  relativeVelocity Sample.calm (initialState 0 1 100 0 (0, 0)) = (0, 0, 0)
  /\ dragForce Sample.descent Sample.calm 100 infinity (initialState 0 1 100 0 (0, 0))
     = (nan, nan, nan).
Proof.
  split.
  - evaluate_with Hc. reflexivity.
  - evaluate_with infinite_density_factor. reflexivity.
Qed.

(** The same vehicle at 100 m with an infinite density reading: the first
    iteration turns the whole state into NaN and the loop is left. *)
Lemma infinite_density_prediction :
  predictLanding 0 1 100 0 0 0 Sample.descent Sample.calm Sample.policy 0 infinity []
  = Some (LandingPrediction.mk nan nan 0.2 20.1 []).
Proof.
  unfold predictLanding, finalState. rewrite at_rest_velocity.
  replace (Z.to_nat MAX_STEPS) with (S (S (Z.to_nat 17998))) by (unfold MAX_STEPS; lia).
  unfold initialState. cbn [fst snd].
  change (0 >? 0) with false.
  do 2 (iterate_with infinite_density_factor). reflexivity.
Qed.
End ExactRuns.

(** ** Sample runs *)

(** C2, witness: the fall of [free_fall_final] takes 6 steps. *)
Lemma timeToImpact_accumulates_free_fall :
  exists r,
    predictLanding (M := exact_only) 0 1 40007 0 0 0
      Sample.descent Sample.calm Sample.policy 40000 0 [] = Some r
    /\ LandingPrediction.timeToImpact r = timeAfter 6
    /\ (LandingPrediction.timeToImpact r <=? 3600) = true.
Proof.
  eexists. split; [exact (free_fall_prediction exact_only_ES)|].
  destruct (timeToImpact_accumulates (M := exact_only) 0 1 40007 0 0 0
              Sample.descent Sample.calm Sample.policy 40000 0 [] _
              (free_fall_prediction exact_only_ES)) as (_ & _ & _ & H & _ & _ & B & _).
  split; [|exact B].
  rewrite H, (free_fall_final exact_only_ES). reflexivity.
Defined.

(** C2, counterexample: the six additions of 0.2 give 1.2, and the product
    [6 * 0.2] is the number 1.2000000000000002 (on every platform, by
    [free_fall_prediction] and [free_fall_final]). *)
Lemma timeToImpact_differs_from_product :
  predictLanding (M := exact_only) 0 1 40007 0 0 0
    Sample.descent Sample.calm Sample.policy 40000 0 []
  = Some (LandingPrediction.mk 0 1 1.2 2015.95
            [PathPoint.mk 0 1 40001.114000000001; PathPoint.mk 0 1 40000])
  /\ steps (finalState (M := exact_only) 0 1 40007 0 0 0
              Sample.descent Sample.calm Sample.policy 40000 0 []) = 6%Z
  /\ stepsTimesDt 6 = 1.2000000000000002
  /\ strict_eq 1.2 (stepsTimesDt 6) = false.
Proof.
  split; [exact (free_fall_prediction exact_only_ES)|].
  split; [rewrite (free_fall_final exact_only_ES); reflexivity|].
  split; vm_compute; reflexivity.
Qed.

(** C3, witness: a fall from 1e9 m is cut at the cap of 18,000 steps, far
    above the ground at 40,000 m; the path ends with the ground point. *)
Lemma path_ends_at_ground_at_cap :
  steps (finalState (M := exact_only) 0 1 1e9 0 0 0
           Sample.descent Sample.calm Sample.policy 40000 0 []) = 18000%Z
  /\ exists r points p,
       predictLanding (M := exact_only) 0 1 1e9 0 0 0
         Sample.descent Sample.calm Sample.policy 40000 0 [] = Some r
       /\ LandingPrediction.path r = points ++ [p]
       /\ strict_eq (PathPoint.alt p) 40000 = true.
Proof.
  split; [vm_compute; reflexivity|].
  assert (Hnan : is_nan (currentAlt (finalState (M := exact_only) 0 1 1e9 0 0 0
                    Sample.descent Sample.calm Sample.policy 40000 0 [])) = false)
    by (vm_compute; reflexivity).
  destruct (path_ends_at_ground (M := exact_only) 0 1 1e9 0 0 0
              Sample.descent Sample.calm Sample.policy 40000 0 [] _
              eq_refl eq_refl Hnan) as (points & p & Hp & Hg).
  eexists. exists points, p. split; [reflexivity|]. split; assumption.
Defined.

(** C3, counterexample: with the ground (450 m) above the initial altitude
    (120 m) the inputs pass the sanity checks and the path is empty. *)
Lemma path_empty_below_ground :
  predictLanding (M := exact_only) 48.1 11.5 120 0 0 0
    Sample.descent Sample.calm Sample.policy 450 0 []
  = Some (LandingPrediction.mk 48.1 11.5 0 21 []).
Proof. vm_compute. reflexivity. Qed.

(** C10, witness: 7 m of altitude over a ground at 10 m. *)
Lemma predictLanding_on_ground_sample :
  predictLanding (M := exact_only) 0 1 7 0 0 0
    Sample.descent Sample.calm Sample.policy 10 0 []
  = Some (LandingPrediction.mk 0 1 0 (15 + 7 * 0.05) [])
  /\ 15 + 7 * 0.05 = 15.35.
Proof.
  split; [|reflexivity].
  exact (predictLanding_on_ground (M := exact_only) 0 1 7 0 0 0
           Sample.descent Sample.calm Sample.policy 10 0 [] eq_refl eq_refl eq_refl).
Defined.

(** C9, witness: at rest in calm air at 40,007 m, where the density is 0. *)
Lemma no_drag_at_rest_sample :
  exists fDragN fDragE fDragU,
    dragForce (M := exact_only) Sample.descent Sample.calm 40007 0
      (initialState 0 1 40007 0 (0, 0)) = (fDragN, fDragE, fDragU)
    /\ is_zero fDragN = true /\ is_zero fDragE = true /\ is_zero fDragU = true.
Proof.
  destruct (no_drag_at_zero_relative_velocity (M := exact_only)
              Sample.descent Sample.calm 40007 0 (initialState 0 1 40007 0 (0, 0))
              0 0 0 1 0.5 1.5 eq_refl eq_refl eq_refl eq_refl eq_refl
              eq_refl eq_refl eq_refl)
    as (fN & fE & fU & H & HN & HE & HU & _).
  exists fN, fE, fU. auto.
Defined.

(** C9, counterexample: a vehicle at rest in calm air at 100 m whose density
    reading is infinite. The relative velocity of the first iteration is
    zero, its drag force is NaN on the three axes, and the prediction is NaN
    (on every platform, by [at_rest_infinite_density] and
    [infinite_density_prediction]). *)
Lemma nan_drag_at_rest_with_infinite_density :
  relativeVelocity (M := exact_only) Sample.calm (initialState 0 1 100 0 (0, 0)) = (0, 0, 0)
  /\ dragForce (M := exact_only) Sample.descent Sample.calm 100 infinity
       (initialState 0 1 100 0 (0, 0)) = (nan, nan, nan)
  /\ is_zero nan = false
  /\ predictLanding (M := exact_only) 0 1 100 0 0 0
       Sample.descent Sample.calm Sample.policy 0 infinity []
     = Some (LandingPrediction.mk nan nan 0.2 20.1 []).
Proof.
  destruct (at_rest_infinite_density exact_only_ES) as [A B].
  split; [exact A|]. split; [exact B|]. split; [reflexivity|].
  exact (infinite_density_prediction exact_only_ES).
Qed.

(** C6, witness: three samples half a second apart give a GPS estimate; in
    auto mode the weight is 0.8 at 3 m/s and 0.3 at 12 m/s. *)
Lemma velocity_fusion_sample :
  (exists v, gpsGroundTrack (M := exact_only) Sample.track = Some v)
  /\ fusionWeight Sample.policy 3 = 0.8
  /\ fusionWeight Sample.policy 12 = 0.3.
Proof.
  destruct (velocity_fusion (M := exact_only) Sample.track 3 0 Sample.policy)
    as ([_ A] & _ & C).
  destruct (velocity_fusion (M := exact_only) Sample.track 12 0 Sample.policy)
    as (_ & _ & C').
  split.
  - apply A. split; [cbn; lia|].
    exists (HistoryPoint.mk 10.00002 20 1000), (HistoryPoint.mk 10 20 0).
    repeat split.
  - split; [apply (C eq_refl) | apply (C' eq_refl)].
Defined.

(** The reference densities passed in the six iterations of the fall of
    [free_fall_final], for a live reading of 1.2 kg/m3. *)
Lemma reference_density_trace :
  map (referenceDensity 1.2)
    (visited (M := exact_only) Sample.descent Sample.calm 40007 40000 1.2
       (Z.to_nat MAX_STEPS) (initialState 0 1 40007 0 (0, 0)))
  = [1.2; 0; 0; 0; 0; 0].
Proof. vm_compute. reflexivity. Qed.

(** * Further properties of the code *)

(** ** More facts about numbers *)

Lemma ltb_asym x y : (x <? y) = true -> (y <? x) = false.
Proof. intros. float_order. Qed.

Lemma not_leb_ltb x y :
  is_nan x = false -> is_nan y = false -> (x <=? y) = false -> (y <? x) = true.
Proof. intros. float_order. Qed.

(** Comparisons with NaN are false. *)
Lemma leb_nan_l x : (nan <=? x) = false.
Proof.
  rewrite FloatAxioms.leb_spec. change (Prim2SF nan) with S754_nan. reflexivity.
Qed.

Lemma leb_nan_r x : (x <=? nan) = false.
Proof.
  rewrite FloatAxioms.leb_spec. change (Prim2SF nan) with S754_nan.
  destruct (Prim2SF x) as [[]|[]| |[] m e]; reflexivity.
Qed.

(** [Math.max(g, c)] is not below [g]. *)
Lemma Math_max_ge g c : (g <=? Math_max g c) = true \/ is_nan (Math_max g c) = true.
Proof.
  unfold Math_max.
  destruct (is_nan g) eqn:Hg; [right; reflexivity|].
  destruct (is_nan c) eqn:Hc; [right; reflexivity|].
  cbn [orb]. left.
  destruct (g <? c) eqn:A; [float_order|].
  destruct (c <? g) eqn:B; [float_order|].
  destruct (get_sign g); float_order.
Qed.

Section Signs.
#[local] Open Scope Z_scope.

(** Rounding a non-negative mantissa keeps the sign and gives a number. *)
Lemma binary_round_aux_signed sx mx ex lx :
  0 <= mx ->
  binary_round_aux prec emax sx mx ex lx = S754_zero sx
  \/ binary_round_aux prec emax sx mx ex lx = S754_infinity sx
  \/ exists m e, binary_round_aux prec emax sx mx ex lx = S754_finite sx m e.
Proof.
  intros Hm. unfold binary_round_aux.
  pose proof (shr_fexp_spec mx ex lx Hm) as H1.
  destruct (shr_fexp prec emax mx ex lx) as [mrs' e'].
  destruct H1 as (N1 & E1 & D1).
  destruct (round_nearest_even_spec (shr_m mrs') (loc_of_shr_record mrs') N1) as [N2 D2].
  pose proof (shr_fexp_spec _ e' loc_Exact N2) as H2.
  destruct (shr_fexp prec emax _ e' loc_Exact) as [mrs'' e''].
  destruct H2 as (N3 & E2 & D3).
  destruct (shr_m mrs'') as [|m|m]; [now left| |lia].
  destruct (e'' <=? emax - prec); eauto.
Qed.

Lemma binary_round_signed sx mx ex :
  binary_round prec emax sx mx ex = S754_zero sx
  \/ binary_round prec emax sx mx ex = S754_infinity sx
  \/ exists m e, binary_round prec emax sx mx ex = S754_finite sx m e.
Proof.
  unfold binary_round. destruct (shl_align _ _ _) as [mz ez].
  apply binary_round_aux_signed. lia.
Qed.

Lemma digits2_pos_size p : digits2_pos p = Pos.size p.
Proof. induction p as [p IH|p IH|]; cbn; now rewrite ?IH. Qed.

Lemma size_bound p n : 0 <= n -> Zpos p < 2 ^ n -> Zpos (Pos.size p) <= n.
Proof.
  intros Hn H. pose proof (Pos.size_le p) as L.
  apply Pos2Z.pos_le_pos in L. rewrite Pos2Z.inj_pow in L.
  change (Z.pos p~0) with (2 * Z.pos p) in L.
  assert (P : 2 ^ Zpos (Pos.size p) < 2 ^ (n + 1)).
  { rewrite Z.pow_add_r by lia. change (2 ^ 1) with 2. lia. }
  apply Z.pow_lt_mono_r_iff in P; lia.
Qed.

Lemma digits2_pos_mul p q :
  Zpos (digits2_pos (p * q)) <= Zpos (digits2_pos p) + Zpos (digits2_pos q).
Proof.
  rewrite (digits2_pos_size (p * q)), (digits2_pos_size p), (digits2_pos_size q).
  apply size_bound; [lia|].
  pose proof (Pos.size_gt p) as Gp. pose proof (Pos.size_gt q) as Gq.
  apply Pos2Z.pos_lt_pos in Gp, Gq. rewrite Pos2Z.inj_pow in Gp, Gq.
  rewrite Z.pow_add_r, Pos2Z.inj_mul by lia.
  apply Z.mul_lt_mono_nonneg; lia.
Qed.

(** The mantissa of a number has at most 53 bits, and exactly 53 above the
    least exponent. *)
Lemma canonical_bounds x s m e :
  Prim2SF x = S754_finite s m e ->
  Zpos m < 2 ^ 53 /\ -1074 <= e /\ (-1074 < e -> 2 ^ 52 <= Zpos m).
Proof.
  intros E. pose proof (Prim2SF_valid x) as V. rewrite E in V.
  cbn [SpecFloat.valid_binary] in V. unfold bounded, canonical_mantissa in V.
  apply andb_prop in V. destruct V as [C _]. apply Z.eqb_eq in C.
  rewrite digits2_pos_size in C.
  pose proof (Pos.size_gt m) as G. pose proof (Pos.size_le m) as L.
  apply Pos2Z.pos_lt_pos in G. apply Pos2Z.pos_le_pos in L.
  rewrite Pos2Z.inj_pow in G, L. change (Z.pos m~0) with (2 * Z.pos m) in L.
  unfold fexp, emin, prec, emax in C.
  assert (Hd : Zpos (Pos.size m) <= 53) by lia.
  split; [|split].
  - eapply Z.lt_le_trans; [exact G|]. apply Z.pow_le_mono_r; lia.
  - lia.
  - intros He. assert (Zpos (Pos.size m) = 53) by lia.
    replace (Zpos (Pos.size m)) with 53 in L.
    change (2 ^ 53) with (2 * 2 ^ 52) in L. lia.
Qed.

Lemma shl_align_value m e ez :
  ez <= e -> Zpos (fst (shl_align m e ez)) = Zpos m * 2 ^ (e - ez).
Proof.
  intros H. unfold shl_align.
  destruct (ez - e) as [|d|d] eqn:E.
  - replace (e - ez) with 0 by lia. cbn [fst]. lia.
  - lia.
  - cbn [fst]. replace (e - ez) with (Zpos d) by lia.
    change (PosDef.Pos.iter xO m d) with (shift_pos d m).
    rewrite shift_pos_correct. rewrite Z.pow_pos_fold. lia.
Qed.

(** The order of two numbers is the order of their mantissas once aligned
    on the smaller exponent. *)
Lemma SFcompare_aligned x y sx mx ex sy my ey :
  Prim2SF x = S754_finite sx mx ex -> Prim2SF y = S754_finite sy my ey ->
  let ez := Z.min ex ey in
  SFcompare (Prim2SF x) (Prim2SF y)
  = Some (cond_Zopp sx (Zpos (fst (shl_align mx ex ez)))
          ?= cond_Zopp sy (Zpos (fst (shl_align my ey ez)))).
Proof.
  intros Ex Ey ez.
  destruct (canonical_bounds x sx mx ex Ex) as (Bx & Lx & Nx).
  destruct (canonical_bounds y sy my ey Ey) as (By & Ly & Ny).
  rewrite Ex, Ey. cbn [SFcompare]. f_equal. symmetry.
  rewrite !shl_align_value by (subst ez; lia).
  assert (P : forall k, 0 < k -> 2 <= 2 ^ k).
  { intros k Hk. change 2 with (2 ^ 1) at 1. apply Z.pow_le_mono_r; lia. }
  destruct (Z.compare_spec ex ey) as [He|He|He].
  - subst ey. replace ez with ex by (subst ez; lia). rewrite Z.sub_diag, !Z.mul_1_r.
    destruct sx, sy; reflexivity.
  - replace ez with ex by (subst ez; lia). rewrite Z.sub_diag, Z.mul_1_r.
    specialize (P (ey - ex) ltac:(lia)). specialize (Ny ltac:(lia)).
    destruct sx, sy; cbn [cond_Zopp];
      [apply Z.compare_gt_iff|apply Z.compare_lt_iff|apply Z.compare_gt_iff|apply Z.compare_lt_iff];
      nia.
  - replace ez with ey by (subst ez; lia). rewrite Z.sub_diag, Z.mul_1_r.
    specialize (P (ex - ey) ltac:(lia)). specialize (Nx ltac:(lia)).
    destruct sx, sy; cbn [cond_Zopp];
      [apply Z.compare_lt_iff|apply Z.compare_lt_iff|apply Z.compare_gt_iff|apply Z.compare_gt_iff];
      nia.
Qed.
End Signs.

Lemma leb_zero_nonpositive x : (x <=? 0) = true <-> SFnonpositive (Prim2SF x).
Proof.
  rewrite FloatAxioms.leb_spec. change (Prim2SF 0) with (S754_zero false).
  destruct (Prim2SF x) as [[]|[]| |[] m e]; cbn; split; intros H;
    try discriminate; try reflexivity; try exact I; try (now elim H).
Qed.

(** The difference of two finite numbers is a number, and it is zero or
    negative when the first is not above the second. *)
Lemma sub_finite x y :
  finite x -> finite y ->
  is_nan (x - y) = false
  /\ ((x <=? y) = true -> (x - y <=? 0) = true).
Proof.
  intros Hx Hy.
  assert (S : Prim2SF (x - y) <> S754_nan
              /\ ((x <=? y) = true -> SFnonpositive (Prim2SF (x - y)))).
  { rewrite FloatAxioms.leb_spec, sub_spec. unfold SFleb.
    apply finite_SF in Hx, Hy.
    destruct Hx as [(sx & Ex)|(sx & mx & ex & Ex)], Hy as [(sy & Ey)|(sy & my & ey & Ey)].
    - rewrite Ex, Ey. destruct sx, sy; cbn; split; try discriminate; auto.
    - rewrite Ex, Ey. destruct sy; cbn; split; try discriminate; auto.
    - rewrite Ex, Ey. destruct sx; cbn; split; try discriminate; auto.
    - rewrite (SFcompare_aligned x y sx mx ex sy my ey Ex Ey). rewrite Ex, Ey.
      cbn [SF64sub SFsub]. cbv zeta.
      set (X := cond_Zopp sx _). set (Y := cond_Zopp sy _).
      destruct (Z.compare_spec X Y) as [H|H|H].
      + replace (X - Y)%Z with 0%Z by lia. cbn. split; [discriminate | auto].
      + destruct (X - Y)%Z as [|d|d] eqn:D; try lia. cbn [binary_normalize].
        destruct (binary_round_signed true d (Z.min ex ey)) as [R|[R|(m & e & R)]];
          rewrite R; cbn; split; try discriminate; auto.
      + destruct (X - Y)%Z as [|d|d] eqn:D; try lia. cbn [binary_normalize].
        destruct (binary_round_signed false d (Z.min ex ey)) as [R|[R|(m & e & R)]];
          rewrite R; cbn; split; discriminate. }
  destruct S as [N L]. split.
  - destruct (is_nan (x - y)) eqn:E; [|reflexivity].
    apply is_nan_SF in E. contradiction.
  - intros H. apply leb_zero_nonpositive. auto.
Qed.

Lemma Prim2SF_1000 : Prim2SF 1000 = S754_finite false 8796093022208000 (-43).
Proof. vm_compute. reflexivity. Qed.

Lemma Prim2SF_1 : Prim2SF 1 = S754_finite false 4503599627370496 (-52).
Proof. vm_compute. reflexivity. Qed.

(** Dividing by a positive finite number keeps numbers numbers, and zero
    or negative numbers zero or negative. *)
Lemma div_positive x y my ey :
  Prim2SF y = S754_finite false my ey ->
  (is_nan x = false -> is_nan (x / y) = false)
  /\ ((x <=? 0) = true -> (x / y <=? 0) = true).
Proof.
  intros Ey.
  assert (S : (Prim2SF x <> S754_nan -> Prim2SF (x / y) <> S754_nan)
              /\ (SFnonpositive (Prim2SF x) -> SFnonpositive (Prim2SF (x / y)))).
  { rewrite div_spec, Ey.
    destruct (Prim2SF x) as [sx|sx| |sx mx ex]; cbn [SF64div SFdiv xorb].
    - rewrite xorb_false_r. split; [discriminate | auto].
    - rewrite xorb_false_r. split; [discriminate | auto].
    - split; [intros H; now elim H | intros []].
    - rewrite xorb_false_r. unfold SFdiv_core_binary. cbv zeta.
      match goal with |- context [IntDef.Z.div_eucl ?a ?b] =>
        assert (Hq : (0 <= fst (IntDef.Z.div_eucl a b))%Z);
        [ change (0 <= a / b)%Z; apply Z.div_pos; [|lia]
        | destruct (IntDef.Z.div_eucl a b) as [q r] ]
      end.
      { destruct (_ - _ - _)%Z; [lia | apply Z.shiftl_nonneg; lia | lia]. }
      cbn [fst] in Hq.
      destruct (binary_round_aux_signed sx q
                  (IntDef.Z.min
                     (fexp prec emax (Zdigits2 (Z.pos mx) + ex - (Zdigits2 (Z.pos my) + ey)))
                     (ex - ey))
                  (new_location (Z.pos my) r) Hq) as [R|[R|(m & e & R)]];
        rewrite R; split; try discriminate; destruct sx; cbn; auto. }
  destruct S as [N L]. split.
  - intros H. destruct (is_nan (x / y)) eqn:E; [|reflexivity].
    apply is_nan_SF in E. elim (N); [|assumption].
    intros C. apply is_nan_SF in C. congruence.
  - intros H. apply leb_zero_nonpositive. apply L. now apply leb_zero_nonpositive.
Qed.

(** A number of magnitude at most 1: a zero, or a finite number whose
    exponent is at most -52. *)
Lemma unit_magnitude x :
  (Math_abs x <=? 1) = true ->
  (exists s, Prim2SF x = S754_zero s)
  \/ exists s m e, Prim2SF x = S754_finite s m e /\ (e <= -52)%Z.
Proof.
  unfold Math_abs. rewrite FloatAxioms.leb_spec, abs_spec, Prim2SF_1. unfold SFleb.
  destruct (Prim2SF x) as [s|s| |s m e]; cbn [SFabs SFcompare]; intros H; try discriminate.
  - left. now exists s.
  - right. exists s, m, e. split; [reflexivity|].
    destruct (Z.compare_spec e (-52)); first [lia | discriminate].
Qed.

(** The product of two numbers of magnitude at most 1 is finite. *)
Lemma mul_unit_finite x y :
  (Math_abs x <=? 1) = true -> (Math_abs y <=? 1) = true -> finite (x * y).
Proof.
  intros Hx Hy. apply finite_SF. rewrite mul_spec.
  destruct (unit_magnitude x Hx) as [(sx & Ex)|(sx & mx & ex & Ex & Bx)],
           (unit_magnitude y Hy) as [(sy & Ey)|(sy & my & ey & Ey & By)];
    rewrite Ex, Ey; cbn [SF64mul SFmul]; eauto.
  destruct (valid_finite_bounds x sx mx ex Ex) as [Dx _].
  destruct (valid_finite_bounds y sy my ey Ey) as [Dy _].
  pose proof (digits2_pos_mul mx my) as D.
  destruct (binary_round_aux_finite (xorb sx sy) (Zpos (mx * my)) (ex + ey) loc_Exact)
    as [R|(m & e & R)]; try lia.
  - cbn [Zdigits2]. lia.
  - left. eauto.
  - right. eauto.
Qed.

(** [x - x] is [+0]. *)
Lemma sub_diag x : finite x -> x - x = 0.
Proof.
  intros H. apply Prim2SF_inj. rewrite sub_spec.
  change (Prim2SF 0) with (S754_zero false).
  apply finite_SF in H. destruct H as [(s & ->)|(s & m & e & ->)].
  - destruct s; reflexivity.
  - cbn [SF64sub SFsub]. cbv zeta. rewrite Z.sub_diag. reflexivity.
Qed.

(** [+0] plus a zero of either sign is [+0]. *)
Lemma add_zero_l z : is_zero z = true -> 0 + z = 0.
Proof.
  intros H. apply Prim2SF_inj. rewrite add_spec.
  change (Prim2SF 0) with (S754_zero false).
  apply is_zero_SF in H. destruct H as (s & ->). destruct s; reflexivity.
Qed.

(** [+0] divided by a positive number is [+0]. *)
Lemma div_zero_positive x : (x >? 0) = true -> 0 / x = 0.
Proof.
  intros H. apply Prim2SF_inj. rewrite div_spec.
  rewrite FloatAxioms.ltb_spec in H. unfold SFltb in H.
  change (Prim2SF 0) with (S754_zero false) in *.
  destruct (Prim2SF x) as [s|[]| |[] m e]; try discriminate; reflexivity.
Qed.

Lemma exact_only_atan2_ES : ES_exact_atan2 exact_only_atan2.
Proof.
  split. intros x H.
  change (Math_atan2 0 x) with (if is_zero 0 && (x >? 0) then 0 else nan).
  rewrite H. reflexivity.
Qed.

(** ** Facts about lists *)

Lemma nth_error_in_range {T : Type} (l : list T) (n : nat) :
  (n < length l)%nat -> exists x, nth_error l n = Some x.
Proof.
  intros H. destruct (nth_error l n) as [x|] eqn:E; [now exists x|].
  apply nth_error_None in E. lia.
Qed.

Lemma last_default {T : Type} (l : list T) : forall a d d', last (a :: l) d = last (a :: l) d'.
Proof.
  induction l as [|b l IH]; intros a d d'; [reflexivity|].
  change (last (b :: l) d = last (b :: l) d'). apply IH.
Qed.

(** ** Distances and speeds over the track *)

Section TrackFacts.
Context {M : MathLib} {A : MathAtan2}.

Lemma addSegments_snoc : forall history total p q,
  addSegments total (history ++ [p; q]) = addSegments total (history ++ [p]) + segment p q.
Proof.
  induction history as [|a history IH]; intros total p q; [reflexivity|].
  destruct history as [|b history].
  - reflexivity.
  - change (addSegments (total + segment a b) ((b :: history) ++ [p; q])
            = addSegments (total + segment a b) ((b :: history) ++ [p]) + segment p q).
    apply IH.
Qed.

(** X1. [calculateTotalDistance] is 0 for a history with no sample or with
    one sample, and a new sample [q] after a last sample [p] adds exactly
    [calculateDistance(p, q)] to the total of the history before it. *)
Theorem calculateTotalDistance_incremental :
  calculateTotalDistance [] = 0
  /\ (forall p, calculateTotalDistance [p] = 0)
  /\ (forall history p q,
        calculateTotalDistance (history ++ [p; q])
        = calculateTotalDistance (history ++ [p])
          + calculateDistance (HistoryPoint.latitude p) (HistoryPoint.longitude p)
              (HistoryPoint.latitude q) (HistoryPoint.longitude q)).
Proof.
  split; [reflexivity|]. split; [reflexivity|].
  intros history p q. apply addSegments_snoc.
Qed.

(** X2. With a window of [windowSize >= 1] segments, [calculateSmoothedSpeed]
    reads the last [windowSize + 1] samples only (older samples change
    nothing), and on a history that fits the window it is the total
    distance of the history divided by the seconds between its first and
    its last sample, or 0 when those are at most 0.1 s apart. *)
Theorem calculateSmoothedSpeed_window (windowSize : Z) :
  (1 <= windowSize)%Z ->
  (forall older recent,
     length recent = S (Z.to_nat windowSize) ->
     calculateSmoothedSpeed (older ++ recent) windowSize
     = calculateSmoothedSpeed recent windowSize)
  /\ (forall first between last,
        (Z.of_nat (length between) < windowSize)%Z ->
        let history := first :: between ++ [last] in
        let timeDiff :=
          (HistoryPoint.timeElapsed last - HistoryPoint.timeElapsed first) / 1000 in
        calculateSmoothedSpeed history windowSize
        = Returns (if timeDiff <=? 0.1 then 0
                   else calculateTotalDistance history / timeDiff)).
Proof.
  intros Hw. split.
  - intros older recent Hlen. unfold calculateSmoothedSpeed.
    rewrite length_app, Hlen.
    replace (length older + S (Z.to_nat windowSize) <? 2)%nat with false
      by (symmetry; apply Nat.ltb_ge; lia).
    replace (S (Z.to_nat windowSize) <? 2)%nat with false
      by (symmetry; apply Nat.ltb_ge; lia).
    cbv zeta.
    replace (Z.max 0 (Z.of_nat (length older + S (Z.to_nat windowSize)) - 1 - windowSize))
      with (Z.of_nat (length older)) by lia.
    replace (Z.max 0 (Z.of_nat (S (Z.to_nat windowSize)) - 1 - windowSize)) with 0%Z by lia.
    replace (Z.of_nat (length older + S (Z.to_nat windowSize)) - 1)%Z
      with (Z.of_nat (length older + Z.to_nat windowSize)) by lia.
    replace (Z.of_nat (S (Z.to_nat windowSize)) - 1)%Z
      with (Z.of_nat (Z.to_nat windowSize)) by lia.
    rewrite !Nat2Z.id.
    destruct (Z.eqb_spec (Z.of_nat (length older))
                (Z.of_nat (length older + Z.to_nat windowSize))) as [E|_]; [lia|].
    destruct (Z.eqb_spec 0 (Z.of_nat (Z.to_nat windowSize))) as [E|_]; [lia|].
    change (Z.to_nat 0) with 0%nat.
    rewrite skipn_app, skipn_all, Nat.sub_diag. cbn [skipn app].
    rewrite !nth_error_app2 by lia.
    replace (length older - length older)%nat with 0%nat by lia.
    replace (length older + Z.to_nat windowSize - length older)%nat
      with (Z.to_nat windowSize) by lia.
    reflexivity.
  - intros first between last Hlen history timeDiff. subst history timeDiff.
    unfold calculateSmoothedSpeed. cbn [length]. rewrite length_app. cbn [length].
    replace (S (length between + 1) <? 2)%nat with false
      by (symmetry; apply Nat.ltb_ge; lia).
    cbv zeta.
    replace (Z.max 0 (Z.of_nat (S (length between + 1)) - 1 - windowSize)) with 0%Z by lia.
    replace (Z.of_nat (S (length between + 1)) - 1)%Z
      with (Z.of_nat (S (length between))) by lia.
    rewrite Nat2Z.id.
    destruct (Z.eqb_spec 0 (Z.of_nat (S (length between)))) as [E|_]; [lia|].
    change (Z.to_nat 0) with 0%nat. cbn [skipn nth_error].
    rewrite nth_error_app2 by lia. rewrite Nat.sub_diag. cbn [nth_error].
    destruct (_ <=? 0.1); reflexivity.
Qed.

(** X3. [calculateSmoothedSpeed] returns 0 for a history of fewer than 2
    samples and for a window of 0 segments; a negative window on a history
    of 2 samples or more reads [history[startIndex]] past the end and the
    call throws a [TypeError]; with a window that is not negative the call
    always returns a number. *)
Theorem calculateSmoothedSpeed_edges (history : list HistoryPoint.t) (windowSize : Z) :
  ((length history < 2)%nat -> calculateSmoothedSpeed history windowSize = Returns 0)
  /\ (windowSize = 0%Z -> calculateSmoothedSpeed history windowSize = Returns 0)
  /\ ((2 <= length history)%nat -> (windowSize < 0)%Z ->
      calculateSmoothedSpeed history windowSize = ThrowsTypeError)
  /\ ((0 <= windowSize)%Z ->
      exists speed, calculateSmoothedSpeed history windowSize = Returns speed).
Proof.
  unfold calculateSmoothedSpeed.
  destruct (Nat.ltb_spec (length history) 2) as [Hlen|Hlen].
  { repeat split; intros; try reflexivity; try lia. now exists 0. }
  cbv zeta.
  set (endIndex := (Z.of_nat (length history) - 1)%Z).
  repeat split.
  - intros; lia.
  - intros ->. replace (Z.max 0 (endIndex - 0)) with endIndex by lia.
    now rewrite Z.eqb_refl.
  - intros _ Hw.
    replace (Z.max 0 (endIndex - windowSize)) with (endIndex - windowSize)%Z by lia.
    destruct (Z.eqb_spec (endIndex - windowSize) endIndex) as [E|_]; [lia|].
    replace (nth_error history (Z.to_nat (endIndex - windowSize))) with (@None HistoryPoint.t);
      [reflexivity|].
    symmetry. apply nth_error_None. lia.
  - intros Hw.
    destruct (Z.eqb_spec (Z.max 0 (endIndex - windowSize)) endIndex) as [E|E];
      [now exists 0|].
    destruct (nth_error_in_range history (Z.to_nat (Z.max 0 (endIndex - windowSize))))
      as (startPoint & ->); [lia|].
    destruct (nth_error_in_range history (Z.to_nat endIndex)) as (endPoint & ->); [lia|].
    destruct (_ <=? 0.1); eexists; reflexivity.
Qed.

(** X4. [calculateSpeed] returns 0, and divides by nothing, when the
    current timestamp is not later than the previous one (both finite):
    the same timestamp twice, or timestamps out of order. *)
Theorem calculateSpeed_not_later
    (prevLat prevLon prevTime currLat currLon currTime : float) :
  finite prevTime -> finite currTime -> (currTime <=? prevTime) = true ->
  calculateSpeed prevLat prevLon prevTime currLat currLon currTime = 0.
Proof.
  intros Hp Hc Hle. unfold calculateSpeed. cbv zeta.
  destruct (sub_finite currTime prevTime Hc Hp) as [_ S].
  destruct (div_positive (currTime - prevTime) 1000 _ _ Prim2SF_1000) as [_ D].
  rewrite (D (S Hle)). reflexivity.
Qed.
End TrackFacts.

Section Stationary.
Context {M : MathLib} {A : MathAtan2}.
Hypothesis EM : ES_exact M.
Hypothesis EA : ES_exact_atan2 A.
Variables lat lon : float.
Hypothesis Hlat : finite lat.
Hypothesis Hlon : finite lon.
Hypothesis Hcos : (Math_abs (Math_cos (lat * Math_PI / 180)) <=? 1) = true.

(** The haversine term [a] of a point and itself is [+0]. *)
Lemma calculateDistance_diag : calculateDistance lat lon lat lon = 0.
Proof.
  unfold calculateDistance. cbv zeta.
  rewrite (sub_diag lat Hlat), (sub_diag lon Hlon).
  change (0 * Math_PI / 180 / 2) with 0.
  rewrite (sin_pos_zero M EM).
  change (0 * 0) with 0.
  set (c := Math_cos (lat * Math_PI / 180)) in *.
  assert (Z : is_zero (c * c * 0 * 0) = true).
  { apply mul_zero_l; [|reflexivity]. apply mul_zero_r; [|reflexivity].
    now apply mul_unit_finite. }
  rewrite (add_zero_l _ Z).
  change (Math_sqrt 0) with 0. change (Math_sqrt (1 - 0)) with 1.
  rewrite (atan2_pos_zero A EA) by reflexivity.
  reflexivity.
Qed.

Lemma addSegments_stationary : forall history,
  stationaryAt lat lon history -> addSegments 0 history = 0.
Proof.
  induction history as [|p history IH]; intros H; [reflexivity|].
  destruct history as [|q history]; [reflexivity|].
  change (addSegments (0 + segment p q) (q :: history) = 0).
  destruct (Forall_inv H) as (Plat & Plon & _).
  destruct (Forall_inv (Forall_inv_tail H)) as (Qlat & Qlon & _).
  unfold segment. rewrite Plat, Plon, Qlat, Qlon.
  rewrite calculateDistance_diag.
  change (0 + 0) with 0. apply IH. exact (Forall_inv_tail H).
Qed.
End Stationary.

Lemma stationary_skipn lat lon n : forall history,
  stationaryAt lat lon history -> stationaryAt lat lon (skipn n history).
Proof.
  induction n as [|n IH]; intros history H; [exact H|].
  destruct history as [|p history]; [exact H|].
  cbn [skipn]. apply IH. exact (Forall_inv_tail H).
Qed.

(** X5. On a platform whose [sin(+0)] and [atan2(+0, x > 0)] are the exact
    [+0] and whose cosine of the latitude has magnitude at most 1, the
    distance from a point to itself is exactly 0; so the total distance of a
    track whose samples share one position (with finite timestamps) is
    exactly 0, and its smoothed speed is 0 for every window that is not
    negative. *)
Theorem stationary_track `{M : MathLib} `{A : MathAtan2} (lat lon : float)
    (history : list HistoryPoint.t) (windowSize : Z) :
  ES_exact M -> ES_exact_atan2 A ->
  finite lat -> finite lon ->
  (Math_abs (Math_cos (lat * Math_PI / 180)) <=? 1) = true ->
  stationaryAt lat lon history ->
  calculateDistance lat lon lat lon = 0
  /\ calculateTotalDistance history = 0
  /\ ((0 <= windowSize)%Z -> calculateSmoothedSpeed history windowSize = Returns 0).
Proof.
  intros EM EA Hlat Hlon Hcos H.
  split; [exact (calculateDistance_diag EM EA lat lon Hlat Hlon Hcos)|].
  split; [exact (addSegments_stationary EM EA lat lon Hlat Hlon Hcos history H)|].
  intros Hw. unfold calculateSmoothedSpeed.
  destruct (Nat.ltb_spec (length history) 2) as [Hlen|Hlen]; [reflexivity|].
  cbv zeta. set (endIndex := (Z.of_nat (length history) - 1)%Z).
  destruct (Z.eqb_spec (Z.max 0 (endIndex - windowSize)) endIndex) as [E|E]; [reflexivity|].
  destruct (nth_error_in_range history (Z.to_nat (Z.max 0 (endIndex - windowSize))))
    as (startPoint & Es); [lia|].
  destruct (nth_error_in_range history (Z.to_nat endIndex)) as (endPoint & Ee); [lia|].
  rewrite Es, Ee.
  rewrite (addSegments_stationary EM EA lat lon Hlat Hlon Hcos _
             (stationary_skipn lat lon _ _ H)).
  destruct (_ <=? 0.1) eqn:Hd; [reflexivity|]. f_equal.
  unfold stationaryAt in H. rewrite Forall_forall in H.
  destruct (H _ (nth_error_In _ _ Es)) as (_ & _ & Fs).
  destruct (H _ (nth_error_In _ _ Ee)) as (_ & _ & Fe).
  destruct (sub_finite _ _ Fe Fs) as [N _].
  destruct (div_positive
              (HistoryPoint.timeElapsed endPoint - HistoryPoint.timeElapsed startPoint)
              1000 _ _ Prim2SF_1000) as [D _].
  specialize (D N).
  apply div_zero_positive.
  eapply ltb_trans; [|apply (not_leb_ltb _ 0.1 D eq_refl Hd)]. reflexivity.
Qed.

(** ** The wind field, sorted or not *)

(** Between the first and the last altitude some adjacent pair encloses
    the altitude, sorted or not: the loop returns at the first one. *)
Lemma interpolateLayers_bracket alt : forall layers first,
  numericAltitudes (first :: layers) = true -> is_nan alt = false ->
  (alt <=? WindLayer.altitude first) = false ->
  (alt >=? WindLayer.altitude (last (first :: layers) first)) = false ->
  exists below lower upper above,
    first :: layers = below ++ lower :: upper :: above
    /\ (alt >=? WindLayer.altitude lower) = true
    /\ (alt <=? WindLayer.altitude upper) = true
    /\ interpolateLayers alt (first :: layers)
       = linearBlend lower upper (altitudeFraction lower upper alt).
Proof.
  induction layers as [|second layers IH]; intros first Hnum Halt Hlo Hhi.
  - cbn [last] in Hhi. cbn in Hnum. rewrite andb_true_r in Hnum.
    apply negb_true_iff in Hnum. exfalso. revert Hnum Halt Hlo Hhi. float_order.
  - assert (H1 : is_nan (WindLayer.altitude first) = false).
    { cbn in Hnum. apply andb_prop in Hnum. destruct Hnum as [Hnum _].
      now apply negb_true_iff in Hnum. }
    assert (Hnum' : numericAltitudes (second :: layers) = true).
    { unfold numericAltitudes in *. cbn [forallb] in Hnum. apply andb_prop in Hnum. tauto. }
    assert (Hge : (alt >=? WindLayer.altitude first) = true).
    { revert H1 Halt Hlo. float_order. }
    cbn [interpolateLayers]. rewrite Hge. cbn [andb].
    destruct (alt <=? WindLayer.altitude second) eqn:Hle.
    + exists [], first, second, layers. repeat split; auto.
    + change (last (first :: second :: layers) first) with (last (second :: layers) first) in Hhi.
      rewrite (last_default layers second first second) in Hhi.
      destruct (IH second Hnum' Halt Hle Hhi)
        as (below & lower & upper & above & E & A & B & C).
      exists (first :: below), lower, upper, above.
      split; [now rewrite E|]. repeat split; auto.
Qed.

Lemma interpolateLayers_nan : forall layers, interpolateLayers nan layers = Wind.mk 0 0.
Proof.
  induction layers as [|lower layers IH]; [reflexivity|].
  destruct layers as [|upper rest]; [reflexivity|].
  cbn [interpolateLayers].
  rewrite leb_nan_r. exact IH.
Qed.

(** X6. For gradient layers in any order whose altitudes are numbers, and
    an altitude that is a number, [getWindAtAltitude] never reaches its
    final [{ speed: 0, dir: 0 }]: it returns the first layer (altitude at or
    below it), or the last layer (altitude at or above it), or the linear
    blend of an adjacent pair of layers that encloses the altitude. For a
    NaN altitude it returns zero wind, whatever the layers. *)
Theorem gradient_wind_total :
  (forall first rest alt,
     numericAltitudes (first :: rest) = true -> is_nan alt = false ->
     let layers := first :: rest in
     let top := last layers first in
     ((alt <=? WindLayer.altitude first) = true
      /\ getWindAtAltitude alt (gradientField layers) = layerWind first)
     \/ ((alt >=? WindLayer.altitude top) = true
         /\ getWindAtAltitude alt (gradientField layers) = layerWind top)
     \/ exists below lower upper above,
          layers = below ++ lower :: upper :: above
          /\ (alt >=? WindLayer.altitude lower) = true
          /\ (alt <=? WindLayer.altitude upper) = true
          /\ getWindAtAltitude alt (gradientField layers)
             = linearBlend lower upper (altitudeFraction lower upper alt))
  /\ (forall layers, getWindAtAltitude nan (gradientField layers) = Wind.mk 0 0).
Proof.
  split.
  - intros first rest alt Hnum Halt layers top.
    unfold getWindAtAltitude, gradientField.
    cbn [WindSettings.mode WindSettings.layers nullish]. subst layers top.
    cbv iota.
    destruct (alt <=? WindLayer.altitude first) eqn:Hlo.
    { left. split; reflexivity. }
    destruct (alt >=? WindLayer.altitude (last (first :: rest) first)) eqn:Hhi.
    { right. left. split; reflexivity. }
    right. right. now apply interpolateLayers_bracket.
  - intros layers. unfold getWindAtAltitude, gradientField.
    cbn [WindSettings.mode WindSettings.layers nullish].
    destruct layers as [|first rest]; [reflexivity|].
    rewrite leb_nan_l, leb_nan_r.
    apply interpolateLayers_nan.
Qed.

Lemma particleLayers_interpolate absoluteY : forall layers,
  particleLayers absoluteY layers
  = (Wind.speed (interpolateLayers absoluteY layers),
     Wind.dir (interpolateLayers absoluteY layers)).
Proof.
  induction layers as [|lower layers IH]; [reflexivity|].
  destruct layers as [|upper rest]; [reflexivity|].
  cbn [particleLayers interpolateLayers].
  destruct (_ && _); [reflexivity | exact IH].
Qed.

(** X7. The wind that moves a particle of the 3D view at height
    [absoluteY] is the wind [getWindAtAltitude] returns at that altitude
    for the same settings, in single and in gradient mode, whatever the
    legacy [windSpeed] and [windDirection] hold: the two copies of the
    interpolation agree. *)
Theorem particle_wind_agrees (absoluteY : float) (mode : WindMode) (speed direction : float)
    (layers : list WindLayer.t) (legacySpeed legacyDirection : option float) :
  let wind := getWindAtAltitude absoluteY
                (WindSettings.mk mode (Some speed) (Some direction) (Some layers)
                   legacySpeed legacyDirection) in
  particleWind absoluteY mode speed direction layers = (Wind.speed wind, Wind.dir wind).
Proof.
  unfold particleWind, getWindAtAltitude.
  cbn [WindSettings.mode WindSettings.speed WindSettings.direction WindSettings.layers
       WindSettings.windSpeed WindSettings.windDirection nullish].
  destruct mode; [reflexivity|].
  destruct layers as [|first rest]; [reflexivity|].
  destruct (absoluteY <=? WindLayer.altitude first); [reflexivity|].
  destruct (absoluteY >=? WindLayer.altitude (last (first :: rest) first)); [reflexivity|].
  apply particleLayers_interpolate.
Qed.

(** ** Flight phases *)

Section PhaseFacts.
Context {M : MathLib}.
Variable descentSettings : DescentSettings.t.
Variable windSettings : WindSettings.t.
Variables alt groundAlt currentDensity : float.

#[local] Abbreviation step1 := (step descentSettings windSettings alt groundAlt currentDensity).
#[local] Abbreviation entered := (visited descentSettings windSettings alt groundAlt currentDensity).
#[local] Abbreviation continues := (loopCondition groundAlt).

(** The apogee check: the flag stays set while the vehicle climbs. *)
Lemma step_isAscending s :
  isAscending (step1 s) = isAscending s && negb (vU s <=? 0).
Proof.
  unfold step. destruct (acceleration _ _ _ _ s) as [[aN aE] aU].
  cbn [isAscending]. destruct (isAscending s), (vU s <=? 0); reflexivity.
Qed.

Lemma visited_descending fuel : forall s,
  isAscending s = false -> Forall (fun s' => isAscending s' = false) (entered fuel s).
Proof.
  induction fuel as [|fuel IH]; intros s Hs; cbn [visited]; [constructor|].
  destruct (continues s); [|constructor].
  constructor; [assumption|].
  apply IH. rewrite step_isAscending, Hs. reflexivity.
Qed.

(** The iterations are a block with the flag set, then a block with the
    flag cleared; the flag is cleared by an iteration that sees [vU <= 0]. *)
Lemma visited_phases fuel : forall s,
  exists ascent descent,
    entered fuel s = ascent ++ descent
    /\ Forall (fun s' => isAscending s' = true) ascent
    /\ Forall (fun s' => isAscending s' = false) descent
    /\ (isAscending s = false -> ascent = [])
    /\ (forall before s1 s2 after, entered fuel s = before ++ s1 :: s2 :: after ->
        isAscending s1 = true -> isAscending s2 = false -> (vU s1 <=? 0) = true).
Proof.
  induction fuel as [|fuel IH]; intros s.
  - exists [], []. cbn. repeat split; auto.
    intros before ? ? ? H. destruct before; discriminate H.
  - cbn [visited]. destruct (continues s) eqn:Hc.
    2:{ exists [], []. repeat split; auto.
        intros before ? ? ? H. destruct before; discriminate H. }
    destruct (isAscending s) eqn:Ha.
    + destruct (IH (step1 s)) as (ascent & descent & E & Hup & Hdown & Hnone & Hflip).
      exists (s :: ascent), descent. rewrite E. repeat split; auto.
      * discriminate.
      * intros before s1 s2 after Eq H1 H2.
        destruct before as [|b before]; cbn [app] in Eq.
        -- injection Eq as <- Eq.
           assert (Es : entered fuel (step1 s) = s2 :: after) by now rewrite E.
           destruct fuel as [|fuel]; [discriminate Es|].
           cbn [visited] in Es. destruct (continues (step1 s)); [|discriminate Es].
           injection Es as <- _.
           rewrite step_isAscending, Ha in H2.
           destruct (vU s <=? 0); [reflexivity | discriminate].
        -- injection Eq as <- Eq. rewrite <- E in Eq. eapply Hflip; eassumption.
    + exists [], (s :: entered fuel (step1 s)). repeat split; auto.
      * constructor; [assumption|]. apply visited_descending.
        rewrite step_isAscending, Ha. reflexivity.
      * intros before s1 s2 after Eq H1 H2.
        assert (F : Forall (fun s' => isAscending s' = false) (s :: entered fuel (step1 s))).
        { constructor; [assumption|]. apply visited_descending.
          rewrite step_isAscending, Ha. reflexivity. }
        rewrite Eq in F. rewrite Forall_forall in F.
        assert (isAscending s1 = false) by (apply F; apply in_or_app; right; now left).
        congruence.
Qed.
End PhaseFacts.

(** The parachute parameters are positive, whatever the settings hold. *)
Lemma descent_parameters_positive (ds : DescentSettings.t) (s : SimState) :
  isAscending s = false ->
  exists mass area cd,
    phaseParameters ds s = (mass, area, cd)
    /\ (mass >? 0) = true /\ (area >? 0) = true /\ (cd >? 0) = true.
Proof.
  intros H. unfold phaseParameters. rewrite H.
  do 3 eexists. split; [reflexivity|].
  destruct (DescentSettings.mass ds >? 0) eqn:Hm,
           (DescentSettings.parachuteArea ds >? 0) eqn:Ha,
           (DescentSettings.dragCoefficient ds >? 0) eqn:Hc;
    repeat split; auto.
Qed.

(** X8. A run has at most one phase change. Its iterations are a block
    of iterations that have the flag [isAscending] set, followed by a block
    of iterations that have it cleared: once cleared, the flag is never set
    again. An iteration with the flag set uses the ballistic parameters
    (mass [2 * mass], area 0.015, Cd 0.5, with no fallback for bad
    settings); an iteration with the flag cleared uses the parachute
    parameters, which are positive for every settings object (0, negative
    and NaN fields fall back to 1.0, 0.5 and 1.5). A run that starts with a
    vertical speed that is not positive (or NaN) has no ballistic
    iteration, and the last ballistic iteration before a parachute one is
    the iteration that saw [vU <= 0]: it still used the ballistic
    parameters. *)
Theorem single_apogee `{M : MathLib} (descentSettings : DescentSettings.t)
    (windSettings : WindSettings.t)
    (lat lon alt vSpeedCurrent groundAlt currentDensity : float) (v : float * float) :
  exists ascent descent,
    visited descentSettings windSettings alt groundAlt currentDensity
      (Z.to_nat MAX_STEPS) (initialState lat lon alt vSpeedCurrent v) = ascent ++ descent
    /\ Forall (fun s => isAscending s = true
                        /\ phaseParameters descentSettings s
                           = (DescentSettings.mass descentSettings * 2.0, 0.015, 0.5)) ascent
    /\ Forall (fun s => isAscending s = false
                        /\ phaseParameters descentSettings s
                           = ((if DescentSettings.mass descentSettings >? 0
                               then DescentSettings.mass descentSettings else 1.0),
                              (if DescentSettings.parachuteArea descentSettings >? 0
                               then DescentSettings.parachuteArea descentSettings else 0.5),
                              (if DescentSettings.dragCoefficient descentSettings >? 0
                               then DescentSettings.dragCoefficient descentSettings else 1.5))
                        /\ exists mass area cd,
                             phaseParameters descentSettings s = (mass, area, cd)
                             /\ (mass >? 0) = true /\ (area >? 0) = true
                             /\ (cd >? 0) = true) descent
    /\ ((vSpeedCurrent >? 0) = false -> ascent = [])
    /\ (forall earlier s, ascent = earlier ++ [s] -> descent <> [] -> (vU s <=? 0) = true).
Proof.
  destruct (visited_phases descentSettings windSettings alt groundAlt currentDensity
              (Z.to_nat MAX_STEPS) (initialState lat lon alt vSpeedCurrent v))
    as (ascent & descent & E & Hup & Hdown & Hnone & Hflip).
  exists ascent, descent. split; [exact E|]. split; [|split; [|split]].
  - eapply Forall_impl; [|exact Hup]. cbn beta. intros s Hs.
    split; [exact Hs|]. unfold phaseParameters. now rewrite Hs.
  - eapply Forall_impl; [|exact Hdown]. cbn beta. intros s Hs.
    split; [exact Hs|]. split.
    + unfold phaseParameters. now rewrite Hs.
    + now apply descent_parameters_positive.
  - exact Hnone.
  - intros earlier s -> Hd. destruct descent as [|d descent]; [now elim Hd|].
    apply (Hflip earlier s d descent).
    + rewrite E, <- app_assoc. reflexivity.
    + rewrite Forall_forall in Hup. apply Hup. apply in_or_app. right. now left.
    + rewrite Forall_forall in Hdown. apply Hdown. now left.
Qed.

(** ** The recorded path *)

Section PathFacts.
Context {M : MathLib}.
Variable descentSettings : DescentSettings.t.
Variable windSettings : WindSettings.t.
Variables alt groundAlt currentDensity : float.

#[local] Abbreviation step1 := (step descentSettings windSettings alt groundAlt currentDensity).
#[local] Abbreviation run := (simulate descentSettings windSettings alt groundAlt currentDensity).
#[local] Abbreviation continues := (loopCondition groundAlt).

(** A property the body keeps holds when the loop is left. *)
Lemma simulate_invariant (P : SimState -> Prop) fuel : forall s,
  (forall s', P s' -> continues s' = true -> P (step1 s')) -> P s -> P (run fuel s).
Proof.
  induction fuel as [|fuel IH]; intros s Hstep Hs; cbn [simulate]; [assumption|].
  destruct (continues s) eqn:Hc; [|assumption].
  apply IH; [assumption|]. now apply Hstep.
Qed.

Lemma step_decimated s :
  decimated groundAlt s -> continues s = true -> decimated groundAlt (step1 s).
Proof.
  intros [H0 Hlen] Hc. apply andb_prop in Hc. destruct Hc as [Habove _].
  destruct Hlen as [Hlen|(_ & Hle & _)].
  2:{ rewrite (leb_ltb_false _ _ Hle) in Habove. discriminate. }
  pose proof (step_path descentSettings windSettings alt groundAlt currentDensity s) as Hp.
  pose proof (step_steps descentSettings windSettings alt groundAlt currentDensity s) as Hs.
  split; [lia|]. rewrite Hp, Hs.
  destruct ((steps s + 1) mod 5 =? 0)%Z eqn:Hmod.
  - left. cbn [orb]. rewrite length_app. cbn [length]. apply Z.eqb_eq in Hmod.
    rewrite Nat2Z.inj_add, Hlen. change (Z.of_nat 1) with 1%Z.
    Z.to_euclidean_division_equations. lia.
  - cbn [orb]. apply Z.eqb_neq in Hmod.
    destruct (currentAlt (step1 s) <=? groundAlt) eqn:Hle.
    + right. rewrite length_app. cbn [length]. split; [|split; [reflexivity|]].
      * rewrite Nat2Z.inj_add, Hlen. change (Z.of_nat 1) with 1%Z.
        Z.to_euclidean_division_equations. lia.
      * do 2 eexists. split; [reflexivity|]. cbn [PathPoint.alt].
        now apply Math_max_below.
    + left. rewrite Hlen. Z.to_euclidean_division_equations. lia.
Qed.

Lemma step_aboveGround s :
  Forall (aboveGround groundAlt) (path s) -> Forall (aboveGround groundAlt) (path (step1 s)).
Proof.
  intros H. rewrite step_path.
  destruct (_ || _); [|assumption].
  apply Forall_app. split; [assumption|]. constructor; [|constructor].
  apply Math_max_ge.
Qed.

Lemma step_pathEndsAt s :
  pathEndsAt groundAlt s -> continues s = true -> pathEndsAt groundAlt (step1 s).
Proof.
  intros H Hc. apply andb_prop in Hc. destruct Hc as [Habove _].
  pose proof (step_path descentSettings windSettings alt groundAlt currentDensity s) as Hp.
  set (s' := step descentSettings windSettings alt groundAlt currentDensity s) in *.
  unfold pathEndsAt. rewrite Hp.
  destruct ((steps s' mod 5 =? 0)%Z || (currentAlt s' <=? groundAlt)) eqn:Hrec.
  - right. do 2 eexists. split; [reflexivity|].
    cbn [PathPoint.alt PathPoint.lat PathPoint.lon].
    destruct (currentAlt s' >? groundAlt) eqn:Hgt.
    + left. now rewrite (Math_max_above _ _ Hgt).
    + right. auto.
  - destruct H as [H|(points & p & E & [H|(H & _)])].
    + now left.
    + right. exists points, p. auto.
    + congruence.
Qed.
End PathFacts.

Section Trajectory.
Context {M : MathLib}.
Variables lat lon alt vSpeedCurrent hSpeedCurrent headingCurrent : float.
Variable descentSettings : DescentSettings.t.
Variable windSettings : WindSettings.t.
Variable landingSettings : LandingSettings.t.
Variables groundAlt currentDensity : float.
Variable history : list HistoryPoint.t.

#[local] Abbreviation predict :=
  (predictLanding lat lon alt vSpeedCurrent hSpeedCurrent headingCurrent
     descentSettings windSettings landingSettings groundAlt currentDensity history).
#[local] Abbreviation final :=
  (finalState lat lon alt vSpeedCurrent hSpeedCurrent headingCurrent
     descentSettings windSettings landingSettings groundAlt currentDensity history).

Lemma final_decimated : decimated groundAlt final.
Proof.
  unfold finalState. apply simulate_invariant.
  - intros s. apply step_decimated.
  - split; cbn [steps path initialState length]; [lia | left; reflexivity].
Qed.

Lemma final_aboveGround : Forall (aboveGround groundAlt) (path final).
Proof.
  unfold finalState.
  apply simulate_invariant with (P := fun s => Forall (aboveGround groundAlt) (path s)).
  - intros s H _. now apply step_aboveGround.
  - constructor.
Qed.

Lemma final_pathEndsAt : pathEndsAt groundAlt final.
Proof.
  unfold finalState. apply simulate_invariant.
  - intros s. apply step_pathEndsAt.
  - now left.
Qed.

(** A run that starts above the ground executes the body at least once. *)
Lemma final_steps_positive : (alt >? groundAlt) = true -> (1 <= steps final)%Z.
Proof.
  intros H. unfold finalState. rewrite simulate_steps.
  replace (Z.to_nat MAX_STEPS) with (S (Z.to_nat 17999)) by (unfold MAX_STEPS; lia).
  cbn [visited]. unfold loopCondition at 1. cbn [currentAlt steps initialState].
  rewrite H. cbn [andb Z.ltb Z.compare MAX_STEPS length]. lia.
Qed.

(** X9. The returned path is decimated: it holds one point for every
    fifth step of the run, plus at most one more (the touchdown between two
    of them, or the closing ground point), so it never has more than 3601
    points. *)
Theorem path_is_decimated r :
  predictLanding lat lon alt vSpeedCurrent hSpeedCurrent headingCurrent
    descentSettings windSettings landingSettings groundAlt currentDensity history = Some r ->
  (steps final / 5 <= Z.of_nat (length (LandingPrediction.path r)) <= steps final / 5 + 1)%Z
  /\ (length (LandingPrediction.path r) <= 3601)%nat.
Proof.
  intros E. apply predictLanding_some in E. subst r. cbn [LandingPrediction.path].
  destruct final_decimated as [H0 Hlen].
  destruct (final_clocked lat lon alt vSpeedCurrent hSpeedCurrent headingCurrent
              descentSettings windSettings landingSettings groundAlt currentDensity history)
    as [Hs _].
  unfold MAX_STEPS in Hs.
  assert (B : (steps final / 5 <= Z.of_nat (length (closePath groundAlt final))
               <= steps final / 5 + 1)%Z).
  { unfold closePath.
    destruct Hlen as [Hlen|(Hlen & _ & points & p & Ep & Hp)].
    - destruct (_ && _); [rewrite length_app; cbn [length]|]; lia.
    - rewrite Ep, last_last.
      replace (PathPoint.alt p >? groundAlt) with false by (symmetry; float_order).
      rewrite andb_false_r, <- Ep. lia. }
  split; [exact B|].
  assert (steps final / 5 <= 3600)%Z by (Z.to_euclidean_division_equations; lia).
  lia.
Qed.

(** X10. No point of the returned path lies below the ground: the
    altitude of every point is at or above [groundAlt] (or NaN, when the
    simulated altitude or the ground altitude is). *)
Theorem path_never_below_ground r :
  predictLanding lat lon alt vSpeedCurrent hSpeedCurrent headingCurrent
    descentSettings windSettings landingSettings groundAlt currentDensity history = Some r ->
  Forall (fun p => (groundAlt <=? PathPoint.alt p) = true \/ is_nan (PathPoint.alt p) = true)
         (LandingPrediction.path r).
Proof.
  intros E. apply predictLanding_some in E. subst r. cbn [LandingPrediction.path].
  pose proof final_aboveGround as H. unfold closePath.
  destruct (0 <? length (path final))%nat; cbn [andb]; [|exact H].
  destruct (_ >? groundAlt) eqn:Hgt; [|exact H].
  apply Forall_app. split; [exact H|]. constructor; [|constructor].
  left. cbn [PathPoint.alt]. float_order.
Qed.

(** X11. The returned path is empty, or its last point is at the predicted
    landing position: its latitude and longitude are the [lat] and [lon] of
    the result, whether the loop ended on the ground, at the step cap or on
    an altitude that is not a number. *)
Theorem path_ends_at_landing r :
  predictLanding lat lon alt vSpeedCurrent hSpeedCurrent headingCurrent
    descentSettings windSettings landingSettings groundAlt currentDensity history = Some r ->
  LandingPrediction.path r = []
  \/ exists points p,
       LandingPrediction.path r = points ++ [p]
       /\ PathPoint.lat p = LandingPrediction.lat r
       /\ PathPoint.lon p = LandingPrediction.lon r.
Proof.
  intros E. apply predictLanding_some in E. subst r.
  cbn [LandingPrediction.path LandingPrediction.lat LandingPrediction.lon].
  unfold closePath.
  destruct final_pathEndsAt as [H|(points & p & Ep & H)].
  - left. rewrite H. reflexivity.
  - right. rewrite Ep, last_last, length_app. cbn [length].
    replace (0 <? length points + 1)%nat with true by (symmetry; apply Nat.ltb_lt; lia).
    cbn [andb]. destruct H as [H|(_ & Hlat & Hlon)].
    + rewrite H. do 2 eexists. split; [reflexivity|]. split; reflexivity.
    + destruct (PathPoint.alt p >? groundAlt).
      * do 2 eexists. split; [reflexivity|]. split; reflexivity.
      * exists points, p. auto.
Qed.

(** ** Inputs that are not numbers *)

(** X12. A NaN altitude is not rejected by the sanity checks ([NaN < 5] is
    false), and neither is a NaN ground altitude: when the fix is accepted
    and the altitude is not below 5, the loop is never entered and the
    result is the input position with an empty path, [timeToImpact = 0] and
    [confidenceRadius = 15 + alt * 0.05], which is NaN for a NaN
    altitude. *)
Theorem predictLanding_without_number :
  (alt <? 5) = false ->
  ((Math_abs lat <? 0.0001) && (Math_abs lon <? 0.0001)) = false ->
  (is_nan alt || is_nan groundAlt) = true ->
  predict = Some (LandingPrediction.mk lat lon 0 (15 + alt * 0.05) []).
Proof.
  intros H5 Hfix Hnan. unfold predictLanding. rewrite H5, Hfix.
  unfold finalState. rewrite simulate_not_entered.
  2:{ unfold loopCondition. cbn [currentAlt initialState].
      replace (alt >? groundAlt) with false; [reflexivity|].
      symmetry. apply orb_prop in Hnan. destruct Hnan; float_order. }
  cbn [currentLat currentLon t initialState closePath path length Nat.ltb Nat.leb andb].
  change (0 * 0.5) with 0.
  destruct (is_nan alt) eqn:N.
  - apply is_nan_eq in N. subst alt. reflexivity.
  - rewrite add_zero_r; [reflexivity|].
    now apply confidence_base_not_neg_zero.
Qed.
End Trajectory.

(** ** Heading sources *)

(** X13. With the heading source [imu] the history is not used: two calls
    that differ in the history only return the same result. With the
    heading source [gps] and a history that yields a GPS ground track,
    [hSpeedCurrent] and [headingCurrent] are not used: two calls that differ
    in them only return the same result. *)
Theorem heading_source_selects_inputs `{M : MathLib}
    (lat lon alt vSpeedCurrent : float)
    (descentSettings : DescentSettings.t) (windSettings : WindSettings.t)
    (landingSettings : LandingSettings.t) (groundAlt currentDensity : float) :
  (LandingSettings.headingSource landingSettings = imu ->
   forall hSpeedCurrent headingCurrent history history',
     predictLanding lat lon alt vSpeedCurrent hSpeedCurrent headingCurrent
       descentSettings windSettings landingSettings groundAlt currentDensity history
     = predictLanding lat lon alt vSpeedCurrent hSpeedCurrent headingCurrent
         descentSettings windSettings landingSettings groundAlt currentDensity history')
  /\ (LandingSettings.headingSource landingSettings = gps ->
      forall history, gpsGroundTrack history <> None ->
      forall hSpeedCurrent headingCurrent hSpeedCurrent' headingCurrent',
        predictLanding lat lon alt vSpeedCurrent hSpeedCurrent headingCurrent
          descentSettings windSettings landingSettings groundAlt currentDensity history
        = predictLanding lat lon alt vSpeedCurrent hSpeedCurrent' headingCurrent'
            descentSettings windSettings landingSettings groundAlt currentDensity history).
Proof.
  split.
  - intros Hsrc hs hd h h'. unfold predictLanding, finalState, fuseVelocity.
    rewrite Hsrc.
    destruct (imuVector hs hd) as [vN_imu vE_imu].
    destruct (gpsGroundTrack h) as [[? ?]|], (gpsGroundTrack h') as [[? ?]|]; reflexivity.
  - intros Hsrc h Hgps hs hd hs' hd'. unfold predictLanding, finalState, fuseVelocity.
    rewrite Hsrc.
    destruct (imuVector hs hd) as [vN_imu vE_imu], (imuVector hs' hd') as [vN_imu' vE_imu'].
    destruct (gpsGroundTrack h) as [[? ?]|]; [reflexivity | now elim Hgps].
Qed.

(** ** The views that call the predictor *)

Lemma gpsGroundTrack_reads `{M : MathLib} (h1 h2 : list HistoryPoint.t) :
  (3 <= length h1)%nat -> (3 <= length h2)%nat ->
  nth_error h1 (length h1 - 1) = nth_error h2 (length h2 - 1) ->
  nth_error h1 (length h1 - 3) = nth_error h2 (length h2 - 3) ->
  gpsGroundTrack h1 = gpsGroundTrack h2.
Proof.
  intros L1 L2 E1 E3. unfold gpsGroundTrack.
  apply Nat.leb_le in L1, L2. rewrite L1, L2, E1, E3. reflexivity.
Qed.

Section CallerFacts.
Context {M : MathLib}.
Variable descent : DescentSettings.t.
Variable wind : WindSettings.t.
Variable landing : LandingSettings.t.

(** X14. In the flight view of [App.tsx] the predictor is called only for
    a last packet with [|latitude| > 0.0001]; there the GPS sanity check of
    [predictLanding] can never reject, and the prediction is [null] exactly
    when the packet's [relAltitude] is below 5. *)
Theorem flight_view_prediction (last : TelemetryPacket.t)
    (dataHistory : list TelemetryPacket.t) :
  (Math_abs (TelemetryPacket.latitude last) >? 0.0001) = true ->
  (predictFrom last descent wind landing dataHistory = None
   <-> (TelemetryPacket.relAltitude last <? 5) = true).
Proof.
  intros Hfix. unfold predictFrom, predictLanding.
  rewrite (ltb_asym _ _ Hfix). cbn [andb].
  destruct (TelemetryPacket.relAltitude last <? 5); split; intros H;
    try reflexivity; discriminate.
Qed.

(** X15. The map view predicts from the last packet of [validHistory],
    the packets that pass its fix filter ([|latitude| > 0.0001] or
    [|longitude| > 0.0001]); for that packet the GPS sanity check of
    [predictLanding] can never reject, and the prediction is [null] exactly
    when the packet's [relAltitude] is below 5. *)
Theorem map_view_prediction (history earlier : list TelemetryPacket.t)
    (last : TelemetryPacket.t) :
  validHistory history = earlier ++ [last] ->
  (predictFrom last descent wind landing (validHistory history) = None
   <-> (TelemetryPacket.relAltitude last <? 5) = true).
Proof.
  intros E.
  assert (Hin : In last (validHistory history)).
  { rewrite E. apply in_or_app. right. now left. }
  apply filter_In in Hin. destruct Hin as [_ Hfix].
  assert (Hcheck : ((Math_abs (TelemetryPacket.latitude last) <? 0.0001)
                    && (Math_abs (TelemetryPacket.longitude last) <? 0.0001)) = false).
  { apply orb_prop in Hfix. destruct Hfix as [H|H]; rewrite (ltb_asym _ _ H);
      [reflexivity | apply andb_false_r]. }
  unfold predictFrom, predictLanding. rewrite Hcheck.
  destruct (TelemetryPacket.relAltitude last <? 5); split; intros H;
    try reflexivity; discriminate.
Qed.

(** X16. The CSV export predicts for a row only when the packet has
    [|latitude| > 0.0001] and [relAltitude > 10]; there [predictLanding]
    never returns [null], whatever slice of the history is passed, and the
    prediction is a simulated one: the loop is entered (10 m is above the
    ground at 0 m) and [timeToImpact] is positive. *)
Theorem export_row_prediction (p : TelemetryPacket.t) (rows : list TelemetryPacket.t) :
  (Math_abs (TelemetryPacket.latitude p) >? 0.0001) = true ->
  (TelemetryPacket.relAltitude p >? 10) = true ->
  exists r,
    predictFrom p descent wind landing rows = Some r
    /\ (LandingPrediction.timeToImpact r >? 0) = true.
Proof.
  intros Hfix Halt. unfold predictFrom.
  assert (H5 : (TelemetryPacket.relAltitude p <? 5) = false).
  { apply ltb_asym. eapply ltb_trans; [|exact Halt]. reflexivity. }
  assert (H0 : (TelemetryPacket.relAltitude p >? 0) = true).
  { eapply ltb_trans; [|exact Halt]. reflexivity. }
  unfold predictLanding. rewrite H5, (ltb_asym _ _ Hfix). cbn [andb].
  eexists. split; [reflexivity|]. cbn [LandingPrediction.timeToImpact].
  match goal with |- context [t ?f] => set (final := f) end.
  pose proof (final_steps_positive
                (TelemetryPacket.latitude p) (TelemetryPacket.longitude p)
                (TelemetryPacket.relAltitude p) (TelemetryPacket.vSpeed p)
                (TelemetryPacket.hSpeed p) (TelemetryPacket.heading p)
                descent wind landing 0 (TelemetryPacket.density p)
                (map historyPoint rows) H0) as Hsteps.
  destruct (final_clocked
              (TelemetryPacket.latitude p) (TelemetryPacket.longitude p)
              (TelemetryPacket.relAltitude p) (TelemetryPacket.vSpeed p)
              (TelemetryPacket.hSpeed p) (TelemetryPacket.heading p)
              descent wind landing 0 (TelemetryPacket.density p)
              (map historyPoint rows)) as [Hs Ht].
  fold final in Hsteps, Hs, Ht. unfold MAX_STEPS in Hs.
  assert (Hk : (Z.of_nat (Z.to_nat (steps final)) <= 18000)%Z) by lia.
  destruct (timeAfter_bounds _ Hk) as (Hpos & _ & _ & [Hz|Hnz]); [lia|].
  rewrite <- Ht in Hpos, Hnz. revert Hpos Hnz. float_order.
Qed.

(** X17. For a row [i] with [5 < i < history.length] the slice
    [history.slice(Math.max(0, i - 5), i + 1)] the CSV export passes has 6
    packets, ends with packet [i] and has packet [i - 2] two places before
    it; the predictor reads no other packet of a history, so the exported
    prediction is the one obtained with all packets up to [i] as history. *)
Theorem export_history_window (history : list TelemetryPacket.t) (i : nat)
    (p : TelemetryPacket.t) :
  (5 < i < length history)%nat ->
  length (histSlice history i) = 6%nat
  /\ nth_error (histSlice history i) 5 = nth_error history i
  /\ nth_error (histSlice history i) 3 = nth_error history (i - 2)
  /\ predictFrom p descent wind landing (histSlice history i)
     = predictFrom p descent wind landing (firstn (i + 1) history).
Proof.
  intros Hi. unfold histSlice, slice.
  replace (Z.to_nat (Z.max 0 (Z.of_nat i - 5))) with (i - 5)%nat by lia.
  replace (i + 1 - (i - 5))%nat with 6%nat by lia.
  assert (Hlen : length (firstn 6 (skipn (i - 5) history)) = 6%nat).
  { rewrite length_firstn, length_skipn. lia. }
  assert (H5 : nth_error (firstn 6 (skipn (i - 5) history)) 5 = nth_error history i).
  { rewrite nth_error_firstn, nth_error_skipn. cbn. f_equal. lia. }
  assert (H3 : nth_error (firstn 6 (skipn (i - 5) history)) 3 = nth_error history (i - 2)).
  { rewrite nth_error_firstn, nth_error_skipn. cbn. f_equal. lia. }
  repeat split; try assumption.
  unfold predictFrom, predictLanding, finalState.
  rewrite (gpsGroundTrack_reads (map historyPoint (firstn 6 (skipn (i - 5) history)))
             (map historyPoint (firstn (i + 1) history))); [reflexivity| | | |].
  - rewrite length_map. lia.
  - rewrite length_map, length_firstn. lia.
  - rewrite !length_map, Hlen, length_firstn, !nth_error_map.
    replace (Nat.min (i + 1) (length history) - 1)%nat with i by lia.
    change (6 - 1)%nat with 5%nat. rewrite H5, nth_error_firstn.
    replace (i <? i + 1)%nat with true by (symmetry; apply Nat.ltb_lt; lia).
    reflexivity.
  - rewrite !length_map, Hlen, length_firstn, !nth_error_map.
    replace (Nat.min (i + 1) (length history) - 3)%nat with (i - 2)%nat by lia.
    change (6 - 3)%nat with 3%nat. rewrite H3, nth_error_firstn.
    replace (i - 2 <? i + 1)%nat with true by (symmetry; apply Nat.ltb_lt; lia).
    reflexivity.
Qed.
End CallerFacts.

(** ** Density readings that are not used *)

Section DensityReading.
Context {M : MathLib}.
Variable descentSettings : DescentSettings.t.
Variable windSettings : WindSettings.t.
Variables alt groundAlt currentDensity : float.
Hypothesis Hlow : (currentDensity >? 0.1) = false.

Lemma stepDensity_low s :
  stepDensity alt currentDensity s = stepDensity alt 0 s.
Proof.
  unfold stepDensity, referenceDensity.
  destruct (strict_eq (t s) 0); [|reflexivity].
  unfold getAirDensity. rewrite Hlow. change (0 >? 0.1) with false. reflexivity.
Qed.

Lemma step_low s :
  step descentSettings windSettings alt groundAlt currentDensity s
  = step descentSettings windSettings alt groundAlt 0 s.
Proof.
  unfold step, acceleration, dragForce. now rewrite stepDensity_low.
Qed.

Lemma simulate_low fuel : forall s,
  simulate descentSettings windSettings alt groundAlt currentDensity fuel s
  = simulate descentSettings windSettings alt groundAlt 0 fuel s.
Proof.
  induction fuel as [|fuel IH]; intros s; cbn [simulate]; [reflexivity|].
  destruct (loopCondition groundAlt s); [|reflexivity].
  now rewrite step_low, IH.
Qed.
End DensityReading.

(** X18. A density reading that is not above 0.1 kg/m3 (0, a negative
    number, NaN) is treated as no reading: the prediction is the one
    obtained with [currentDensity = 0]. *)
Theorem density_reading_threshold `{M : MathLib}
    (lat lon alt vSpeedCurrent hSpeedCurrent headingCurrent : float)
    (descentSettings : DescentSettings.t) (windSettings : WindSettings.t)
    (landingSettings : LandingSettings.t) (groundAlt currentDensity : float)
    (history : list HistoryPoint.t) :
  (currentDensity >? 0.1) = false ->
  predictLanding lat lon alt vSpeedCurrent hSpeedCurrent headingCurrent
    descentSettings windSettings landingSettings groundAlt currentDensity history
  = predictLanding lat lon alt vSpeedCurrent hSpeedCurrent headingCurrent
      descentSettings windSettings landingSettings groundAlt 0 history.
Proof.
  intros H. unfold predictLanding, finalState.
  now rewrite (simulate_low descentSettings windSettings alt groundAlt currentDensity H).
Qed.

(** ** Timestamps out of order *)

(** X19. When the last sample of the history is not stamped later than
    the sample two places before it (both timestamps finite), there is no
    GPS ground track: nothing is divided by the elapsed time, which is zero
    or negative, and the fused velocity is the IMU estimate for every
    heading source. *)
Theorem gps_track_needs_later_sample `{M : MathLib} (older : list HistoryPoint.t)
    (pPrev pMid pLast : HistoryPoint.t) (hSpeedCurrent headingCurrent : float)
    (landingSettings : LandingSettings.t) :
  finite (HistoryPoint.timeElapsed pPrev) -> finite (HistoryPoint.timeElapsed pLast) ->
  (HistoryPoint.timeElapsed pLast <=? HistoryPoint.timeElapsed pPrev) = true ->
  gpsGroundTrack (older ++ [pPrev; pMid; pLast]) = None
  /\ fuseVelocity (gpsGroundTrack (older ++ [pPrev; pMid; pLast]))
       (imuVector hSpeedCurrent headingCurrent) hSpeedCurrent landingSettings
     = imuVector hSpeedCurrent headingCurrent.
Proof.
  intros Fp Fl Hle.
  assert (E : gpsGroundTrack (older ++ [pPrev; pMid; pLast]) = None).
  { unfold gpsGroundTrack. rewrite length_app. cbn [length].
    replace (3 <=? length older + 3)%nat with true by (symmetry; apply Nat.leb_le; lia).
    rewrite !nth_error_app2 by lia.
    replace (length older + 3 - 1 - length older)%nat with 2%nat by lia.
    replace (length older + 3 - 3 - length older)%nat with 0%nat by lia.
    cbn [nth_error].
    destruct (sub_finite _ _ Fl Fp) as [_ S].
    destruct (div_positive
                (HistoryPoint.timeElapsed pLast - HistoryPoint.timeElapsed pPrev)
                1000 _ _ Prim2SF_1000) as [_ D].
    specialize (D (S Hle)).
    rewrite (ltb_asym _ _ (leb_ltb_trans _ 0 0.1 D eq_refl)). reflexivity. }
  split; [exact E|]. rewrite E. reflexivity.
Qed.

(** ** Numbers that are not finite *)

Lemma not_finite_SF x :
  is_finite x = false
  <-> Prim2SF x = S754_nan \/ exists s, Prim2SF x = S754_infinity s.
Proof.
  unfold is_finite. rewrite negb_false_iff, orb_true_iff, is_nan_SF, is_infinity_SF.
  reflexivity.
Qed.

(** A quotient by a zero or by NaN is an infinity or NaN. *)
Lemma div_by_zero x z : (is_zero z || is_nan z) = true -> is_finite (x / z) = false.
Proof.
  intros H. apply not_finite_SF. rewrite div_spec.
  apply orb_prop in H. destruct H as [H|H].
  - apply is_zero_SF in H. destruct H as (s & ->).
    destruct (Prim2SF x) as [sx|sx| |sx m e]; cbn; eauto.
  - apply is_nan_SF in H. rewrite H.
    destruct (Prim2SF x) as [sx|sx| |sx m e]; cbn; eauto.
Qed.

(** Infinities and NaN stay infinities or NaN in sums, products and
    quotients. *)
Lemma not_finite_mul_l x y : is_finite x = false -> is_finite (x * y) = false.
Proof.
  intros H. apply not_finite_SF. rewrite mul_spec.
  apply not_finite_SF in H. destruct H as [->|(s & ->)]; [now left|].
  destruct (Prim2SF y) as [sy|sy| |sy m e]; cbn; eauto.
Qed.

Lemma not_finite_div_l x y : is_finite x = false -> is_finite (x / y) = false.
Proof.
  intros H. apply not_finite_SF. rewrite div_spec.
  apply not_finite_SF in H. destruct H as [->|(s & ->)]; [now left|].
  destruct (Prim2SF y) as [sy|sy| |sy m e]; cbn; eauto.
Qed.

Lemma not_finite_add_l x y : is_finite x = false -> is_finite (x + y) = false.
Proof.
  intros H. apply not_finite_SF. rewrite add_spec.
  apply not_finite_SF in H. destruct H as [->|(s & ->)]; [now left|].
  destruct (Prim2SF y) as [sy|sy| |sy m e], s; try destruct sy; cbn; eauto.
Qed.

Lemma not_finite_add_r x y : is_finite y = false -> is_finite (x + y) = false.
Proof.
  intros H. apply not_finite_SF. rewrite add_spec.
  apply not_finite_SF in H. destruct H as [->|(s & ->)].
  - destruct (Prim2SF x) as [sx|sx| |sx m e]; cbn; eauto.
  - destruct (Prim2SF x) as [sx|sx| |sx m e], s; try destruct sx; cbn; eauto.
Qed.

(** Twice a zero is a zero, twice NaN is NaN. *)
Lemma double_zero_or_nan m :
  (is_zero m || is_nan m) = true -> (is_zero (m * 2.0) || is_nan (m * 2.0)) = true.
Proof.
  intros H. apply orb_prop in H. apply orb_true_iff. destruct H as [H|H].
  - left. apply mul_zero_l; [assumption | reflexivity].
  - right. apply is_nan_eq in H. subst m. rewrite mul_nan_l. reflexivity.
Qed.

Section MassFacts.
Context {M : MathLib}.
Variable descentSettings : DescentSettings.t.
Variable windSettings : WindSettings.t.
Variables alt groundAlt currentDensity : float.

#[local] Abbreviation step1 := (step descentSettings windSettings alt groundAlt currentDensity).

(** A position that is not finite stays so. *)
Lemma step_position_not_finite s :
  is_finite (currentLat s) = false /\ is_finite (currentLon s) = false ->
  is_finite (currentLat (step1 s)) = false /\ is_finite (currentLon (step1 s)) = false.
Proof.
  intros [Hlat Hlon]. unfold step.
  destruct (acceleration _ _ _ _ s) as [[aN aE] aU].
  cbn [currentLat currentLon]. unfold displaceCoordinate. cbn [Coord.lat Coord.lon].
  split; now apply not_finite_add_l.
Qed.

(** A ballistic iteration without a mass leaves no finite position. *)
Lemma step_without_mass s :
  isAscending s = true ->
  (is_zero (DescentSettings.mass descentSettings)
   || is_nan (DescentSettings.mass descentSettings)) = true ->
  is_finite (currentLat (step1 s)) = false /\ is_finite (currentLon (step1 s)) = false.
Proof.
  intros Ha Hm. apply double_zero_or_nan in Hm.
  unfold step, acceleration, phaseParameters. rewrite Ha.
  destruct (dragForce _ _ _ _ s) as [[fDragN fDragE] fDragU].
  cbn [currentLat currentLon]. unfold displaceCoordinate. cbn [Coord.lat Coord.lon].
  split; apply not_finite_add_r, not_finite_mul_l, not_finite_div_l, not_finite_mul_l,
           not_finite_add_r, not_finite_mul_l, div_by_zero; exact Hm.
Qed.
End MassFacts.

(** X20. The ballistic branch has no fallback for the mass: when the
    vehicle climbs ([vSpeedCurrent > 0]) from above the ground and the
    configured mass is 0 (or NaN), the first iteration divides by a zero
    mass, and the predicted latitude and longitude are infinities or NaN,
    whatever the other inputs. *)
Theorem ballistic_ascent_needs_mass `{M : MathLib}
    (lat lon alt vSpeedCurrent hSpeedCurrent headingCurrent : float)
    (descentSettings : DescentSettings.t) (windSettings : WindSettings.t)
    (landingSettings : LandingSettings.t) (groundAlt currentDensity : float)
    (history : list HistoryPoint.t) :
  (alt <? 5) = false ->
  ((Math_abs lat <? 0.0001) && (Math_abs lon <? 0.0001)) = false ->
  (vSpeedCurrent >? 0) = true ->
  (alt >? groundAlt) = true ->
  (is_zero (DescentSettings.mass descentSettings)
   || is_nan (DescentSettings.mass descentSettings)) = true ->
  exists r,
    predictLanding lat lon alt vSpeedCurrent hSpeedCurrent headingCurrent
      descentSettings windSettings landingSettings groundAlt currentDensity history = Some r
    /\ is_finite (LandingPrediction.lat r) = false
    /\ is_finite (LandingPrediction.lon r) = false.
Proof.
  intros H5 Hfix Hup Habove Hm. unfold predictLanding. rewrite H5, Hfix.
  eexists. split; [reflexivity|]. cbn [LandingPrediction.lat LandingPrediction.lon].
  unfold finalState.
  replace (Z.to_nat MAX_STEPS) with (S (Z.to_nat 17999)) by (unfold MAX_STEPS; lia).
  cbn [simulate].
  match goal with |- context [loopCondition groundAlt ?s0] =>
    replace (loopCondition groundAlt s0) with true
      by (unfold loopCondition; cbn [currentAlt steps initialState]; now rewrite Habove)
  end.
  refine (simulate_invariant descentSettings windSettings alt groundAlt currentDensity
            (fun s => is_finite (currentLat s) = false /\ is_finite (currentLon s) = false)
            _ _ _ _).
  - intros s H _. now apply step_position_not_finite.
  - apply step_without_mass; [|exact Hm]. cbn [isAscending initialState]. exact Hup.
Qed.

(** ** Sample runs of the further properties *)

(** X2, witness: the call of the map view, with a window of 12 segments,
    on three samples that span one second. *)
Lemma calculateSmoothedSpeed_window_sample :
  calculateSmoothedSpeed (M := exact_only) (A := exact_only_atan2) Sample.atRest 12
  = Returns (calculateTotalDistance (M := exact_only) (A := exact_only_atan2) Sample.atRest
             / ((1000 - 0) / 1000)).
Proof.
  exact (proj2 (calculateSmoothedSpeed_window (M := exact_only) (A := exact_only_atan2) 12
                  ltac:(lia))
           (HistoryPoint.mk 0 20 0) [HistoryPoint.mk 0 20 500] (HistoryPoint.mk 0 20 1000)
           ltac:(cbn; lia)).
Defined.

(** X3, witness: a window of -1 segments on three samples throws. *)
Lemma calculateSmoothedSpeed_negative_window :
  calculateSmoothedSpeed (M := exact_only) (A := exact_only_atan2) Sample.atRest (-1)
  = ThrowsTypeError.
Proof.
  exact (proj1 (proj2 (proj2 (calculateSmoothedSpeed_edges (M := exact_only)
                                (A := exact_only_atan2) Sample.atRest (-1))))
           ltac:(cbn; lia) ltac:(lia)).
Defined.

(** X4, witness: a sample stamped 500 ms that follows one stamped 1000 ms. *)
Lemma calculateSpeed_not_later_sample :
  calculateSpeed (M := exact_only) (A := exact_only_atan2) 10 20 1000 10.00001 20 500 = 0.
Proof.
  exact (calculateSpeed_not_later (M := exact_only) (A := exact_only_atan2)
           10 20 1000 10.00001 20 500 eq_refl eq_refl eq_refl).
Defined.

(** X5, witness: three samples at rest on the equator. *)
Lemma stationary_track_sample :
  calculateDistance (M := exact_only) (A := exact_only_atan2) 0 20 0 20 = 0
  /\ calculateTotalDistance (M := exact_only) (A := exact_only_atan2) Sample.atRest = 0
  /\ calculateSmoothedSpeed (M := exact_only) (A := exact_only_atan2) Sample.atRest 12
     = Returns 0.
Proof.
  assert (H : stationaryAt 0 20 Sample.atRest) by (repeat constructor).
  destruct (stationary_track (M := exact_only) (A := exact_only_atan2) 0 20 Sample.atRest 12
              exact_only_ES exact_only_atan2_ES eq_refl eq_refl eq_refl H) as (D & T & S).
  split; [exact D|]. split; [exact T|]. apply S. lia.
Defined.

(** X6, witness: at 1500 m, over layers at 0, 3000, 1000 and 2000 m, the
    wind is a blend of an adjacent pair that encloses 1500 m. *)
Lemma gradient_wind_unsorted_sample :
  exists below lower upper above,
    Sample.unsorted = below ++ lower :: upper :: above
    /\ (1500 >=? WindLayer.altitude lower) = true
    /\ (1500 <=? WindLayer.altitude upper) = true
    /\ getWindAtAltitude 1500 (gradientField Sample.unsorted)
       = linearBlend lower upper (altitudeFraction lower upper 1500).
Proof.
  destruct (proj1 gradient_wind_total (WindLayer.mk 0 2 10)
              [WindLayer.mk 3000 8 40; WindLayer.mk 1000 4 20; WindLayer.mk 2000 6 30]
              1500 eq_refl eq_refl) as [[H _]|[[H _]|H]].
  - vm_compute in H. discriminate H.
  - vm_compute in H. discriminate H.
  - exact H.
Defined.

(** X9, witness: the fall of [free_fall_final] takes 6 steps and returns 2 points. *)
Lemma path_is_decimated_free_fall :
  exists r,
    predictLanding (M := exact_only) 0 1 40007 0 0 0
      Sample.descent Sample.calm Sample.policy 40000 0 [] = Some r
    /\ (6 / 5 <= Z.of_nat (length (LandingPrediction.path r)) <= 6 / 5 + 1)%Z
    /\ (length (LandingPrediction.path r) <= 3601)%nat.
Proof.
  pose proof (free_fall_prediction exact_only_ES) as E.
  destruct (path_is_decimated (M := exact_only) 0 1 40007 0 0 0
              Sample.descent Sample.calm Sample.policy 40000 0 [] _ E) as [A B].
  rewrite (free_fall_final exact_only_ES) in A. cbn [steps] in A.
  eexists. split; [exact E|]. split; assumption.
Defined.

(** X10, witness: the two points of the same fall, over a ground at 40,000 m. *)
Lemma path_never_below_ground_free_fall :
  exists r,
    predictLanding (M := exact_only) 0 1 40007 0 0 0
      Sample.descent Sample.calm Sample.policy 40000 0 [] = Some r
    /\ Forall (fun p => (40000 <=? PathPoint.alt p) = true \/ is_nan (PathPoint.alt p) = true)
         (LandingPrediction.path r).
Proof.
  pose proof (free_fall_prediction exact_only_ES) as E.
  eexists. split; [exact E|].
  exact (path_never_below_ground (M := exact_only) 0 1 40007 0 0 0
           Sample.descent Sample.calm Sample.policy 40000 0 [] _ E).
Defined.

(** X11, witness: the same fall ends at latitude 0, longitude 1. *)
Lemma path_ends_at_landing_free_fall :
  exists r points p,
    predictLanding (M := exact_only) 0 1 40007 0 0 0
      Sample.descent Sample.calm Sample.policy 40000 0 [] = Some r
    /\ LandingPrediction.path r = points ++ [p]
    /\ PathPoint.lat p = LandingPrediction.lat r
    /\ PathPoint.lon p = LandingPrediction.lon r.
Proof.
  pose proof (free_fall_prediction exact_only_ES) as E.
  destruct (path_ends_at_landing (M := exact_only) 0 1 40007 0 0 0
              Sample.descent Sample.calm Sample.policy 40000 0 [] _ E)
    as [H|(points & p & H)].
  - cbn [LandingPrediction.path] in H. discriminate H.
  - eexists. exists points, p. split; [exact E | exact H].
Defined.

(** X12, witness: a packet whose altitude is NaN, over Munich. *)
Lemma predictLanding_nan_altitude_sample :
  predictLanding (M := exact_only) 48.1 11.5 nan 0 0 0
    Sample.descent Sample.calm Sample.policy 0 0 []
  = Some (LandingPrediction.mk 48.1 11.5 0 (15 + nan * 0.05) [])
  /\ is_nan (15 + nan * 0.05) = true.
Proof.
  split; [|reflexivity].
  exact (predictLanding_without_number (M := exact_only) 48.1 11.5 nan 0 0 0
           Sample.descent Sample.calm Sample.policy 0 0 [] eq_refl eq_refl eq_refl).
Defined.

(** X13, witness: with the heading source [imu] the track of
    [Sample.track] changes nothing. *)
Lemma heading_source_imu_sample :
  predictLanding (M := exact_only) 0 1 40007 0 0 0
    Sample.descent Sample.calm Sample.imuOnly 40000 0 Sample.track
  = predictLanding (M := exact_only) 0 1 40007 0 0 0
      Sample.descent Sample.calm Sample.imuOnly 40000 0 [].
Proof.
  exact (proj1 (heading_source_selects_inputs (M := exact_only) 0 1 40007 0
                  Sample.descent Sample.calm Sample.imuOnly 40000 0)
           eq_refl 0 0 Sample.track []).
Defined.

(** X14, witness: a packet 3 m above the ground with a fix. *)
Lemma flight_view_prediction_sample :
  (Math_abs 48.1 >? 0.0001) = true
  /\ predictFrom (M := exact_only) (Sample.packet 3 0)
       Sample.descent Sample.calm Sample.policy [Sample.packet 3 0] = None.
Proof.
  split; [reflexivity|].
  apply (proj2 (flight_view_prediction (M := exact_only)
                  Sample.descent Sample.calm Sample.policy
                  (Sample.packet 3 0) [Sample.packet 3 0] eq_refl)).
  reflexivity.
Defined.

(** X15, witness: a packet without a fix is filtered out, and the
    prediction is made from the packet that remains. *)
Lemma map_view_prediction_sample :
  validHistory [Sample.noFix; Sample.packet 3 0] = [Sample.packet 3 0]
  /\ predictFrom (M := exact_only) (Sample.packet 3 0)
       Sample.descent Sample.calm Sample.policy
       (validHistory [Sample.noFix; Sample.packet 3 0]) = None.
Proof.
  split; [reflexivity|].
  apply (proj2 (map_view_prediction (M := exact_only)
                  Sample.descent Sample.calm Sample.policy
                  [Sample.noFix; Sample.packet 3 0] [] (Sample.packet 3 0) eq_refl)).
  reflexivity.
Defined.

(** X16, witness: row 6 of a flight at 120 m. *)
Lemma export_row_prediction_sample :
  exists r,
    predictFrom (M := exact_only) (Sample.packet 120 3000)
      Sample.descent Sample.calm Sample.policy (histSlice Sample.flight 6) = Some r
    /\ (LandingPrediction.timeToImpact r >? 0) = true.
Proof.
  exact (export_row_prediction (M := exact_only)
           Sample.descent Sample.calm Sample.policy
           (Sample.packet 120 3000) (histSlice Sample.flight 6) eq_refl eq_refl).
Defined.

(** X17, witness: row 6 of a flight of 7 packets. *)
Lemma export_history_window_sample :
  length (histSlice Sample.flight 6) = 6%nat
  /\ nth_error (histSlice Sample.flight 6) 5 = nth_error Sample.flight 6
  /\ nth_error (histSlice Sample.flight 6) 3 = nth_error Sample.flight (6 - 2)
  /\ predictFrom (M := exact_only) (Sample.packet 120 3000)
       Sample.descent Sample.calm Sample.policy (histSlice Sample.flight 6)
     = predictFrom (M := exact_only) (Sample.packet 120 3000)
         Sample.descent Sample.calm Sample.policy (firstn (6 + 1) Sample.flight).
Proof.
  apply (export_history_window (M := exact_only)
           Sample.descent Sample.calm Sample.policy Sample.flight 6 (Sample.packet 120 3000)).
  cbn. lia.
Defined.

(** X18, witness: the fall of [free_fall_final] with a NaN density reading. *)
Lemma density_reading_nan_sample :
  predictLanding (M := exact_only) 0 1 40007 0 0 0
    Sample.descent Sample.calm Sample.policy 40000 nan []
  = Some (LandingPrediction.mk 0 1 1.2 2015.95
            [PathPoint.mk 0 1 40001.114000000001; PathPoint.mk 0 1 40000]).
Proof.
  rewrite (density_reading_threshold (M := exact_only) 0 1 40007 0 0 0
             Sample.descent Sample.calm Sample.policy 40000 nan [] eq_refl).
  exact (free_fall_prediction exact_only_ES).
Defined.

(** X19, witness: three samples stamped 1000, 500 and 0 ms. *)
Lemma gps_track_reversed_sample :
  gpsGroundTrack (M := exact_only) Sample.reversed = None
  /\ fuseVelocity (gpsGroundTrack (M := exact_only) Sample.reversed)
       (imuVector (M := exact_only) 3 0) 3 Sample.policy
     = imuVector (M := exact_only) 3 0.
Proof.
  exact (gps_track_needs_later_sample (M := exact_only) []
           (HistoryPoint.mk 10 20 1000) (HistoryPoint.mk 10.00001 20 500)
           (HistoryPoint.mk 10.00002 20 0) 3 0 Sample.policy eq_refl eq_refl eq_refl).
Defined.

(** X20, witness: a climb at 10 m/s from 100 m with a mass of 0. *)
Lemma ballistic_ascent_without_mass_sample :
  exists r,
    predictLanding (M := exact_only) 48.1 11.5 100 10 0 0
      Sample.noMass Sample.calm Sample.policy 0 0 [] = Some r
    /\ is_finite (LandingPrediction.lat r) = false
    /\ is_finite (LandingPrediction.lon r) = false.
Proof.
  exact (ballistic_ascent_needs_mass (M := exact_only) 48.1 11.5 100 10 0 0
           Sample.noMass Sample.calm Sample.policy 0 0 []
           eq_refl eq_refl eq_refl eq_refl eq_refl).
Defined.

(** * The range of the atmosphere model

    [getAirDensity] computes in binary64, so whether it returns a finite
    positive number is a fact about rounded products, differences and
    quotients.  This part reads each operation on exact rational values
    ([F2Q]): a result differs from the exact one by a relative error of at
    most [2^-49], or by [2^-1072] near zero, and it is finite when the exact
    one is below [2^1022].  Intervals of rationals then follow the
    computation of the ISA density step by step. *)

(** ** Mantissas shifted to the right *)

Section ShiftedMantissas.
#[local] Open Scope Z_scope.

(** One shift halves the mantissa, rounding down. *)
Lemma shr_1_value r :
  0 <= shr_m r -> 2 * shr_m (shr_1 r) <= shr_m r < 2 * shr_m (shr_1 r) + 2.
Proof.
  destruct r as [m rb sb]. cbn [shr_m]. intros H.
  destruct m as [|[p|p|]|p]; cbn [shr_1 shr_m]; lia.
Qed.

(** Two successive roundings down are one. *)
Lemma floor_compose a b q x y :
  0 < a -> 0 < b ->
  a * q <= x < a * (q + 1) -> b * x <= y < b * (x + 1) ->
  (b * a) * q <= y < (b * a) * (q + 1).
Proof. intros. nia. Qed.

(** [p] shifts divide the mantissa by [2^p], rounding down. *)
Lemma iter_shr_1_value p : forall r,
  0 <= shr_m r ->
  2 ^ Zpos p * shr_m (Corelib.Floats.SpecFloat.iter_pos shr_1 p r) <= shr_m r
  /\ shr_m r < 2 ^ Zpos p * (shr_m (Corelib.Floats.SpecFloat.iter_pos shr_1 p r) + 1).
Proof.
  assert (P : forall k, 0 < 2 ^ Zpos k) by (intros; apply Z.pow_pos_nonneg; lia).
  induction p as [p IH|p IH|]; intros r H; cbn [Corelib.Floats.SpecFloat.iter_pos].
  - destruct (shr_1_spec r H) as [H1 _]. pose proof (shr_1_value r H) as V1.
    destruct (iter_shr_1_spec p _ H1) as [H2 _]. pose proof (IH _ H1) as V2.
    pose proof (IH _ H2) as V3.
    remember (shr_1 r) as r1. remember (Corelib.Floats.SpecFloat.iter_pos shr_1 p r1) as r2.
    remember (Corelib.Floats.SpecFloat.iter_pos shr_1 p r2) as r3.
    replace (2 ^ Zpos p~1) with (2 * (2 ^ Zpos p * 2 ^ Zpos p)).
    2:{ rewrite <- Z.pow_add_r by lia. rewrite <- Z.pow_succ_r by lia. f_equal. lia. }
    specialize (P p).
    pose proof (floor_compose (2 ^ Zpos p) (2 ^ Zpos p) (shr_m r3) (shr_m r2) (shr_m r1)
                  P P ltac:(lia) ltac:(lia)) as C1.
    pose proof (floor_compose (2 ^ Zpos p * 2 ^ Zpos p) 2 (shr_m r3) (shr_m r1) (shr_m r)
                  (Z.mul_pos_pos _ _ P P) ltac:(lia) C1 ltac:(lia)) as C2.
    lia.
  - destruct (iter_shr_1_spec p _ H) as [H2 _]. pose proof (IH _ H) as V2.
    pose proof (IH _ H2) as V3.
    remember (Corelib.Floats.SpecFloat.iter_pos shr_1 p r) as r2.
    remember (Corelib.Floats.SpecFloat.iter_pos shr_1 p r2) as r3.
    replace (2 ^ Zpos p~0) with (2 ^ Zpos p * 2 ^ Zpos p).
    2:{ rewrite <- Z.pow_add_r by lia. f_equal. lia. }
    specialize (P p).
    pose proof (floor_compose (2 ^ Zpos p) (2 ^ Zpos p) (shr_m r3) (shr_m r2) (shr_m r)
                  P P ltac:(lia) ltac:(lia)).
    lia.
  - pose proof (shr_1_value r H). change (2 ^ 1) with 2. lia.
Qed.

(** Rounding to nearest keeps the mantissa or adds one. *)
Lemma round_nearest_even_value m l :
  m <= round_nearest_even m l <= m + 1.
Proof.
  destruct l as [|[]]; cbn [round_nearest_even]; try lia.
  destruct (IntDef.Z.even m); lia.
Qed.

(** The shift to the exponent of the format. *)
Lemma shr_fexp_value m e l :
  0 <= m ->
  let '(mrs, e') := shr_fexp prec emax m e l in
  e <= e'
  /\ 2 ^ (e' - e) * shr_m mrs <= m < 2 ^ (e' - e) * (shr_m mrs + 1).
Proof.
  intros H. unfold shr_fexp, shr.
  pose proof (shr_record_of_loc_m m l) as Hm.
  destruct (fexp prec emax (Zdigits2 m + e) - e) as [|p|p] eqn:E.
  - rewrite Hm, Z.sub_diag. change (2 ^ 0) with 1. lia.
  - destruct (iter_shr_1_value p (shr_record_of_loc m l)) as [A B]; [rewrite Hm; lia|].
    rewrite Hm in A, B. replace (e + Zpos p - e) with (Zpos p) by lia.
    repeat split; lia.
  - rewrite Hm, Z.sub_diag. change (2 ^ 0) with 1. lia.
Qed.

(** The rounded mantissa, at its exponent, is within two units of the
    exact mantissa. *)
Lemma binary_round_aux_value sx mx ex lx :
  0 <= mx ->
  exists mf ef,
    binary_round_aux prec emax sx mx ex lx
    = match mf with
      | 0 => S754_zero sx
      | Zpos m => if ef <=? emax - prec then S754_finite sx m ef else S754_infinity sx
      | Zneg _ => S754_nan
      end
    /\ 0 <= mf /\ ex <= ef
    /\ ef <= Z.max (Z.max ex (Zdigits2 mx + ex - 52)) (-1074)
    /\ mx - 2 * 2 ^ (ef - ex) <= mf * 2 ^ (ef - ex) <= mx + 2 * 2 ^ (ef - ex).
Proof.
  intros Hm. unfold binary_round_aux.
  pose proof (shr_fexp_spec mx ex lx Hm) as H1.
  pose proof (shr_fexp_value mx ex lx Hm) as V1.
  destruct (shr_fexp prec emax mx ex lx) as [mrs' e'].
  destruct H1 as (N1 & E1 & D1). destruct V1 as (L1 & V1).
  destruct (round_nearest_even_spec (shr_m mrs') (loc_of_shr_record mrs') N1) as [N2 D2].
  pose proof (round_nearest_even_value (shr_m mrs') (loc_of_shr_record mrs')) as R.
  pose proof (shr_fexp_spec _ e' loc_Exact N2) as H2.
  pose proof (shr_fexp_value _ e' loc_Exact N2) as V2.
  destruct (shr_fexp prec emax _ e' loc_Exact) as [mrs'' e''].
  destruct H2 as (N3 & E2 & D3). destruct V2 as (L2 & V2).
  exists (shr_m mrs''), e''. split; [reflexivity|].
  split; [exact N3|]. split; [lia|]. split.
  - unfold fexp, emin, prec, emax in *. lia.
  - replace (e'' - ex) with ((e'' - e') + (e' - ex)) by lia.
    rewrite Z.pow_add_r by lia.
    set (a := 2 ^ (e' - ex)) in *. set (b := 2 ^ (e'' - e')) in *.
    assert (0 < a) by (apply Z.pow_pos_nonneg; lia).
    assert (0 < b) by (apply Z.pow_pos_nonneg; lia).
    set (q := shr_m mrs') in *. set (m1 := round_nearest_even _ _) in *.
    set (mf := shr_m mrs'') in *. nia.
Qed.
End ShiftedMantissas.

(** ** The exact value of a number *)

Section Values.
#[local] Open Scope Q_scope.

Lemma F2Q_SF x : F2Q x = SF2Q (Prim2SF x).
Proof. reflexivity. Qed.

(** Powers of two with an integer exponent. *)
Lemma pow2_pos e : 0 < 2 ^ e.
Proof. apply Qpower_0_lt. reflexivity. Qed.

Lemma pow2_add a b : 2 ^ (a + b) == 2 ^ a * 2 ^ b.
Proof. apply Qpower_plus. discriminate. Qed.

Lemma pow2_le a b : (a <= b)%Z -> 2 ^ a <= 2 ^ b.
Proof. intros H. apply Qpower_le_compat_l; [exact H | discriminate]. Qed.

Lemma pow2_le_inv a b : 2 ^ a <= 2 ^ b -> (a <= b)%Z.
Proof. intros H. apply (Qpower_le_compat_l_inv 2); [exact H | reflexivity]. Qed.

Lemma pow2_inject k : (0 <= k)%Z -> inject_Z (2 ^ k) == 2 ^ k.
Proof. intros H. now rewrite Zpower_Qpower. Qed.

(** The value of a finite number is its signed mantissa times a power of two. *)
Lemma SF2Q_finite s m e :
  SF2Q (S754_finite s m e) == inject_Z (cond_Zopp s (Zpos m)) * 2 ^ e.
Proof.
  unfold SF2Q. cbv zeta.
  replace (if s then Z.neg m else Z.pos m) with (cond_Zopp s (Zpos m)) by (now destruct s).
  destruct e as [|p|p].
  - rewrite Z.mul_1_r. change (2 ^ 0) with 1. ring.
  - rewrite inject_Z_mult, pow2_inject by lia. reflexivity.
  - rewrite Qmake_Qdiv. unfold Qdiv.
    change (2 ^ Z.neg p) with (/ 2 ^ Z.pos p).
    rewrite Pos2Z.inj_pow, pow2_inject by lia. reflexivity.
Qed.

Lemma F2Q_finite x s m e :
  Prim2SF x = S754_finite s m e -> F2Q x == inject_Z (cond_Zopp s (Zpos m)) * 2 ^ e.
Proof. intros E. rewrite F2Q_SF, E. apply SF2Q_finite. Qed.

Lemma F2Q_zero x s : Prim2SF x = S754_zero s -> F2Q x = 0.
Proof. intros E. rewrite F2Q_SF, E. reflexivity. Qed.

(** An integer inequality at a shifted exponent, read on the values. *)
Lemma scaled_le a b k e :
  (0 <= k)%Z -> (a * 2 ^ k <= b)%Z -> inject_Z a * 2 ^ (k + e) <= inject_Z b * 2 ^ e.
Proof.
  intros Hk H. rewrite pow2_add, Qmult_assoc.
  apply Qmult_le_compat_r; [|apply Qlt_le_weak, pow2_pos].
  rewrite <- pow2_inject, <- inject_Z_mult by exact Hk.
  rewrite <- Zle_Qle. exact H.
Qed.

Lemma scaled_ge a b k e :
  (0 <= k)%Z -> (b <= a * 2 ^ k)%Z -> inject_Z b * 2 ^ e <= inject_Z a * 2 ^ (k + e).
Proof.
  intros Hk H. rewrite pow2_add, Qmult_assoc.
  apply Qmult_le_compat_r; [|apply Qlt_le_weak, pow2_pos].
  rewrite <- pow2_inject, <- inject_Z_mult by exact Hk.
  rewrite <- Zle_Qle. exact H.
Qed.

(** A positive integer is at least the power of two below its size. *)
Lemma digits_lower p : (2 ^ (Zdigits2 (Zpos p) - 1) <= Zpos p)%Z.
Proof.
  cbn [Zdigits2]. rewrite digits2_pos_size.
  pose proof (Pos.size_le p) as L. apply Pos2Z.pos_le_pos in L.
  rewrite Pos2Z.inj_pow in L. change (Z.pos p~0) with (2 * Z.pos p)%Z in L.
  replace (Zpos (Pos.size p)) with (Zpos (Pos.size p) - 1 + 1)%Z in L by lia.
  rewrite Z.pow_add_r in L by lia. change (2 ^ 1)%Z with 2%Z in L. lia.
Qed.

(** And it is below the power of two of its size. *)
Lemma digits_upper p : (Zpos p < 2 ^ Zdigits2 (Zpos p))%Z.
Proof.
  cbn [Zdigits2]. rewrite digits2_pos_size.
  pose proof (Pos.size_gt p) as G. apply Pos2Z.pos_lt_pos in G.
  now rewrite Pos2Z.inj_pow in G.
Qed.

(** The same bounds on the value of a mantissa at an exponent. *)
Lemma value_lower p e : 2 ^ (Zdigits2 (Zpos p) + e - 1) <= inject_Z (Zpos p) * 2 ^ e.
Proof.
  replace (Zdigits2 (Zpos p) + e - 1)%Z with ((Zdigits2 (Zpos p) - 1) + e)%Z by lia.
  rewrite pow2_add. apply Qmult_le_compat_r; [|apply Qlt_le_weak, pow2_pos].
  assert (0 <= Zdigits2 (Zpos p) - 1)%Z by (cbn [Zdigits2]; lia).
  rewrite <- pow2_inject by assumption. rewrite <- Zle_Qle. apply digits_lower.
Qed.

Lemma value_upper p e : inject_Z (Zpos p) * 2 ^ e < 2 ^ (Zdigits2 (Zpos p) + e).
Proof.
  rewrite pow2_add. apply Qmult_lt_compat_r; [apply pow2_pos|].
  rewrite <- pow2_inject by (cbn [Zdigits2]; lia). rewrite <- Zlt_Qlt. apply digits_upper.
Qed.
End Values.

(** ** The value of a rounded result *)

Section RoundedValues.
#[local] Open Scope Q_scope.

Lemma inject_cond_Zopp s a :
  inject_Z (cond_Zopp s a) == if s then - inject_Z a else inject_Z a.
Proof. destruct s; cbn [cond_Zopp]; [|reflexivity]. now rewrite inject_Z_opp. Qed.

(** Rounding moves a value by at most a relative [2^-50], or by [2^-1073]
    near zero, and the result is finite below [2^1022]. *)
Lemma binary_round_aux_Q sx mx ex lx :
  (0 <= mx)%Z ->
  (ex <= Z.max (Zdigits2 mx + ex - 53) (-1074))%Z ->
  inject_Z mx * 2 ^ ex <= 2 ^ 1022 ->
  (binary_round_aux prec emax sx mx ex lx = S754_zero sx
   \/ exists m e, binary_round_aux prec emax sx mx ex lx = S754_finite sx m e)
  /\ Qabs (SF2Q (binary_round_aux prec emax sx mx ex lx) - inject_Z (cond_Zopp sx mx) * 2 ^ ex)
     <= inject_Z mx * 2 ^ ex * 2 ^ (-50) + 2 ^ (-1073).
Proof.
  intros Hm He Hv.
  destruct (binary_round_aux_value sx mx ex lx Hm) as (mf & ef & R & N & L & U & V).
  assert (HM : (Zdigits2 mx + ex <= 1023)%Z).
  { destruct mx as [|p|p]; [cbn [Zdigits2] in *; lia| |lia].
    pose proof (value_lower p ex) as G.
    assert (G' : 2 ^ (Zdigits2 (Z.pos p) + ex - 1) <= 2 ^ 1022) by (eapply Qle_trans; eassumption).
    apply pow2_le_inv in G'. lia. }
  assert (Hf : (ef <=? emax - prec)%Z = true).
  { apply Z.leb_le. unfold emax, prec. lia. }
  rewrite Hf in R.
  assert (B : 0 <= inject_Z mx * 2 ^ ex).
  { apply Qmult_le_0_compat; [|apply Qlt_le_weak, pow2_pos].
    change 0 with (inject_Z 0). now rewrite <- Zle_Qle. }
  assert (T : 2 * 2 ^ ef <= inject_Z mx * 2 ^ ex * 2 ^ (-50) + 2 ^ (-1073)).
  { assert (D : 2 * 2 ^ ef == 2 ^ (ef + 1)).
    { rewrite pow2_add. change (2 ^ 1) with 2. ring. }
    rewrite D.
    assert (P50 : 0 < 2 ^ (-50)) by apply pow2_pos.
    assert (P1073 : 0 < 2 ^ (-1073)) by apply pow2_pos.
    destruct (Z_le_gt_dec ef (-1074)) as [Hs|Hs].
    - apply Qle_trans with (2 ^ (-1073)); [apply pow2_le; lia|].
      assert (0 <= inject_Z mx * 2 ^ ex * 2 ^ (-50)).
      { apply Qmult_le_0_compat; [exact B | now apply Qlt_le_weak]. }
      lra.
    - destruct mx as [|p|p]; [cbn [Zdigits2] in *; lia| |lia].
      apply Qle_trans with (2 ^ (Zdigits2 (Z.pos p) + ex - 1) * 2 ^ (-50)).
      + rewrite <- pow2_add. apply pow2_le. lia.
      + apply Qle_trans with (inject_Z (Z.pos p) * 2 ^ ex * 2 ^ (-50)).
        * apply Qmult_le_compat_r; [apply value_lower | now apply Qlt_le_weak].
        * lra. }
  assert (A : inject_Z mx * 2 ^ ex - 2 * 2 ^ ef <= inject_Z mf * 2 ^ ef
              /\ inject_Z mf * 2 ^ ef <= inject_Z mx * 2 ^ ex + 2 * 2 ^ ef).
  { destruct V as [V1 V2].
    assert (K : (0 <= ef - ex)%Z) by lia.
    pose proof (scaled_le mf _ (ef - ex) ex K V2) as S2.
    pose proof (scaled_ge mf _ (ef - ex) ex K V1) as S1.
    replace (ef - ex + ex)%Z with ef in S1, S2 by lia.
    assert (Q2 : inject_Z (2 * 2 ^ (ef - ex)) * 2 ^ ex == 2 * 2 ^ ef).
    { rewrite inject_Z_mult, pow2_inject by exact K.
      rewrite <- Qmult_assoc, <- pow2_add. replace (ef - ex + ex)%Z with ef by lia.
      reflexivity. }
    unfold Z.sub in S1 at 1. rewrite inject_Z_plus, inject_Z_opp in S1.
    rewrite inject_Z_plus in S2.
    split; [|]; lra. }
  split.
  - destruct mf as [|m|m]; [now left| |lia]. right. now exists m, ef.
  - assert (Sv : SF2Q (binary_round_aux prec emax sx mx ex lx)
                 == inject_Z (cond_Zopp sx mf) * 2 ^ ef).
    { rewrite R. destruct mf as [|m|m]; [|apply SF2Q_finite|lia].
      replace (cond_Zopp sx 0) with 0%Z by (now destruct sx).
      cbn [SF2Q]. now rewrite Qmult_0_l. }
    rewrite Sv, !inject_cond_Zopp.
    apply Qabs_Qle_condition. destruct sx; split; lra.
Qed.
End RoundedValues.

(** ** Products *)

Section Products.
#[local] Open Scope Q_scope.

(** An integer that reaches [2^k] has more than [k] bits. *)
Lemma digits_ge p k : (0 <= k)%Z -> (2 ^ k <= Zpos p)%Z -> (k + 1 <= Zdigits2 (Zpos p))%Z.
Proof.
  intros Hk H. pose proof (digits_upper p) as U.
  assert (L : (2 ^ k < 2 ^ Zdigits2 (Zpos p))%Z) by lia.
  apply Z.pow_lt_mono_r_iff in L; [lia | lia | cbn [Zdigits2]; lia].
Qed.

(** The magnitude of a finite number. *)
Lemma abs_cond_Zopp s p : Qabs (inject_Z (cond_Zopp s (Zpos p))) == inject_Z (Zpos p).
Proof.
  rewrite inject_cond_Zopp. destruct s.
  - rewrite Qabs_opp. apply Qabs_pos. now rewrite <- (Zle_Qle 0).
  - apply Qabs_pos. now rewrite <- (Zle_Qle 0).
Qed.

Lemma F2Q_abs x s m e :
  Prim2SF x = S754_finite s m e -> Qabs (F2Q x) == inject_Z (Zpos m) * 2 ^ e.
Proof.
  intros E. rewrite (F2Q_finite x s m e E), Qabs_Qmult, abs_cond_Zopp.
  rewrite (Qabs_pos (2 ^ e)); [reflexivity | apply Qlt_le_weak, pow2_pos].
Qed.

(** The product of two finite numbers. *)
Lemma mul_value x y :
  finite x -> finite y -> Qabs (F2Q x * F2Q y) <= 2 ^ 1022 ->
  finite (x * y)
  /\ Qabs (F2Q (x * y) - F2Q x * F2Q y) <= Qabs (F2Q x * F2Q y) * 2 ^ (-50) + 2 ^ (-1073).
Proof.
  intros Hx Hy Hv.
  assert (P : 0 <= Qabs (F2Q x * F2Q y) * 2 ^ (-50) + 2 ^ (-1073)).
  { pose proof (pow2_pos (-50)). pose proof (pow2_pos (-1073)).
    pose proof (Qabs_nonneg (F2Q x * F2Q y)).
    assert (0 <= Qabs (F2Q x * F2Q y) * 2 ^ (-50)) by (apply Qmult_le_0_compat; lra).
    lra. }
  assert (Z0 : forall s, Prim2SF (x * y) = S754_zero s -> F2Q x * F2Q y == 0 ->
               finite (x * y)
               /\ Qabs (F2Q (x * y) - F2Q x * F2Q y)
                  <= Qabs (F2Q x * F2Q y) * 2 ^ (-50) + 2 ^ (-1073)).
  { intros s E V. split; [apply finite_SF; left; now exists s|].
    rewrite (F2Q_zero _ s E). rewrite V in *. exact P. }
  apply finite_SF in Hx, Hy.
  destruct Hx as [(sx & Ex)|(sx & mx & ex & Ex)], Hy as [(sy & Ey)|(sy & my & ey & Ey)].
  - apply (Z0 (xorb sx sy)); [now rewrite mul_spec, Ex, Ey|].
    rewrite (F2Q_zero x sx Ex). ring.
  - apply (Z0 (xorb sx sy)); [now rewrite mul_spec, Ex, Ey|].
    rewrite (F2Q_zero x sx Ex). ring.
  - apply (Z0 (xorb sx sy)); [now rewrite mul_spec, Ex, Ey|].
    rewrite (F2Q_zero y sy Ey). ring.
  - destruct (canonical_bounds x sx mx ex Ex) as (Bx & Lx & Nx).
    destruct (canonical_bounds y sy my ey Ey) as (By & Ly & Ny).
    assert (Vabs : Qabs (F2Q x * F2Q y) == inject_Z (Zpos (mx * my)) * 2 ^ (ex + ey)).
    { rewrite Qabs_Qmult, (F2Q_abs x sx mx ex Ex), (F2Q_abs y sy my ey Ey).
      rewrite Pos2Z.inj_mul, inject_Z_mult, pow2_add. ring. }
    assert (Vs : F2Q x * F2Q y
                 == inject_Z (cond_Zopp (xorb sx sy) (Zpos (mx * my))) * 2 ^ (ex + ey)).
    { rewrite (F2Q_finite x sx mx ex Ex), (F2Q_finite y sy my ey Ey), !inject_cond_Zopp.
      rewrite Pos2Z.inj_mul, inject_Z_mult, pow2_add. destruct sx, sy; cbn [xorb]; ring. }
    destruct (binary_round_aux_Q (xorb sx sy) (Zpos (mx * my)) (ex + ey) loc_Exact) as [F A].
    + lia.
    + destruct (Z_le_gt_dec ex (-1074)) as [Hex|Hex], (Z_le_gt_dec ey (-1074)) as [Hey|Hey].
      * lia.
      * specialize (Ny ltac:(lia)).
        assert (52 + 1 <= Zdigits2 (Zpos (mx * my)))%Z; [|lia].
        apply digits_ge; [lia|]. rewrite Pos2Z.inj_mul. nia.
      * specialize (Nx ltac:(lia)).
        assert (52 + 1 <= Zdigits2 (Zpos (mx * my)))%Z; [|lia].
        apply digits_ge; [lia|]. rewrite Pos2Z.inj_mul. nia.
      * specialize (Nx ltac:(lia)). specialize (Ny ltac:(lia)).
        assert (104 + 1 <= Zdigits2 (Zpos (mx * my)))%Z; [|lia].
        apply digits_ge; [lia|]. rewrite Pos2Z.inj_mul.
        change (2 ^ 104)%Z with (2 ^ 52 * 2 ^ 52)%Z. nia.
    + now rewrite <- Vabs.
    + assert (R : Prim2SF (x * y)
                  = binary_round_aux prec emax (xorb sx sy) (Zpos (mx * my)) (ex + ey) loc_Exact).
      { now rewrite mul_spec, Ex, Ey. }
      split.
      * apply finite_SF. rewrite R.
        destruct F as [F|(m & e & F)]; rewrite F; eauto.
      * rewrite F2Q_SF, R, Vabs, Vs. exact A.
Qed.
End Products.

(** ** The order of numbers and of their values *)

Section ValueOrder.
#[local] Open Scope Q_scope.

Lemma scaled_compare a b c : 0 < c -> (inject_Z a * c ?= inject_Z b * c) = (a ?= b)%Z.
Proof.
  intros Hc. destruct (Z.compare_spec a b) as [H|H|H].
  - subst b. now apply (proj1 (Qeq_alt _ _)).
  - apply (proj1 (Qlt_alt _ _)). apply Qmult_lt_compat_r; [exact Hc|]. now rewrite <- Zlt_Qlt.
  - apply (proj1 (Qgt_alt _ _)). apply Qmult_lt_compat_r; [exact Hc|]. now rewrite <- Zlt_Qlt.
Qed.

(** The value of a number, read on a mantissa aligned to a smaller exponent. *)
Lemma aligned_value x s m e ez :
  Prim2SF x = S754_finite s m e -> (ez <= e)%Z ->
  F2Q x == inject_Z (cond_Zopp s (Zpos (fst (shl_align m e ez)))) * 2 ^ ez.
Proof.
  intros E H. rewrite (F2Q_finite x s m e E), shl_align_value by exact H.
  replace (2 ^ e) with (2 ^ ((e - ez) + ez)) by (f_equal; lia).
  rewrite pow2_add, <- (pow2_inject (e - ez)) by lia.
  destruct s; cbn [cond_Zopp]; rewrite ?inject_Z_opp, ?inject_Z_mult; ring.
Qed.

(** The order of finite numbers is the order of their values. *)
Lemma compare_value x y :
  finite x -> finite y -> SFcompare (Prim2SF x) (Prim2SF y) = Some (F2Q x ?= F2Q y).
Proof.
  intros Hx Hy. apply finite_SF in Hx, Hy.
  assert (Pv : forall m e, 0 < inject_Z (Zpos m) * 2 ^ e).
  { intros. apply Qmult_lt_0_compat; [reflexivity | apply pow2_pos]. }
  destruct Hx as [(sx & Ex)|(sx & mx & ex & Ex)], Hy as [(sy & Ey)|(sy & my & ey & Ey)].
  - rewrite (F2Q_zero x sx Ex), (F2Q_zero y sy Ey), Ex, Ey. reflexivity.
  - rewrite (F2Q_zero x sx Ex). rewrite (Qcompare_comp _ _ (Qeq_refl 0) _ _ (F2Q_finite y sy my ey Ey)).
    rewrite Ex, Ey. cbn [SFcompare]. f_equal. symmetry.
    specialize (Pv my ey). rewrite inject_cond_Zopp.
    destruct sy; [apply (proj1 (Qgt_alt _ _)) | apply (proj1 (Qlt_alt _ _))]; lra.
  - rewrite (F2Q_zero y sy Ey). rewrite (Qcompare_comp _ _ (F2Q_finite x sx mx ex Ex) _ _ (Qeq_refl 0)).
    rewrite Ex, Ey. cbn [SFcompare]. f_equal. symmetry.
    specialize (Pv mx ex). rewrite inject_cond_Zopp.
    destruct sx; [apply (proj1 (Qlt_alt _ _)) | apply (proj1 (Qgt_alt _ _))]; lra.
  - rewrite (SFcompare_aligned x y sx mx ex sy my ey Ex Ey). cbv zeta. f_equal.
    rewrite (Qcompare_comp _ _ (aligned_value x sx mx ex (Z.min ex ey) Ex ltac:(lia))
               _ _ (aligned_value y sy my ey (Z.min ex ey) Ey ltac:(lia))).
    symmetry. apply scaled_compare. apply pow2_pos.
Qed.

Lemma leb_value x y : finite x -> finite y -> (x <=? y) = true <-> F2Q x <= F2Q y.
Proof.
  intros Hx Hy. rewrite FloatAxioms.leb_spec. unfold SFleb.
  rewrite (compare_value x y Hx Hy), Qle_alt.
  destruct (F2Q x ?= F2Q y); split; intros H; try reflexivity; try discriminate.
  now elim H.
Qed.

Lemma ltb_value x y : finite x -> finite y -> (x <? y) = true <-> F2Q x < F2Q y.
Proof.
  intros Hx Hy. rewrite FloatAxioms.ltb_spec. unfold SFltb.
  rewrite (compare_value x y Hx Hy), Qlt_alt.
  destruct (F2Q x ?= F2Q y); split; intros H; try reflexivity; try discriminate.
Qed.

(** A number between two finite numbers is finite. *)
Lemma between_finite a x b :
  finite a -> finite b -> (a <=? x) = true -> (x <=? b) = true -> finite x.
Proof.
  intros Ha Hb H1 H2. apply finite_SF.
  rewrite FloatAxioms.leb_spec in H1, H2. unfold SFleb in H1, H2.
  apply finite_SF in Ha, Hb.
  destruct (Prim2SF x) as [s|s| |s m e]; eauto.
  - destruct s.
    + destruct Ha as [(sa & Ea)|(sa & ma & ea & Ea)]; rewrite Ea in H1;
        try destruct sa; discriminate.
    + destruct Hb as [(sb & Eb)|(sb & mb & eb & Eb)]; rewrite Eb in H2;
        try destruct sb; discriminate.
  - destruct (Prim2SF a) as [?|[]| |[] ? ?]; discriminate.
Qed.
End ValueOrder.

(** ** Differences *)

Section Differences.
#[local] Open Scope Q_scope.

(** The alignment to a smaller exponent keeps the value. *)
Lemma shl_align_spec m e e0 :
  exists m', shl_align m e e0 = (m', Z.min e e0)
             /\ Zpos m' = (Zpos m * 2 ^ (e - Z.min e e0))%Z.
Proof.
  unfold shl_align. destruct (e0 - e)%Z as [|d|d] eqn:E.
  - exists m. replace (Z.min e e0) with e by lia. rewrite Z.sub_diag. split; [reflexivity | lia].
  - exists m. replace (Z.min e e0) with e by lia. rewrite Z.sub_diag. split; [reflexivity | lia].
  - exists (PosDef.Pos.iter xO m d). replace (Z.min e e0) with e0 by lia.
    split; [reflexivity|]. replace (e - e0)%Z with (Zpos d) by lia.
    change (PosDef.Pos.iter xO m d) with (shift_pos d m).
    rewrite shift_pos_correct, Z.pow_pos_fold. lia.
Qed.

(** Rounding an integer at an exponent. *)
Lemma binary_round_Q s d ez :
  inject_Z (Zpos d) * 2 ^ ez <= 2 ^ 1022 ->
  (binary_round prec emax s d ez = S754_zero s
   \/ exists m e, binary_round prec emax s d ez = S754_finite s m e)
  /\ Qabs (SF2Q (binary_round prec emax s d ez) - inject_Z (cond_Zopp s (Zpos d)) * 2 ^ ez)
     <= inject_Z (Zpos d) * 2 ^ ez * 2 ^ (-50) + 2 ^ (-1073).
Proof.
  intros Hv. unfold binary_round.
  destruct (shl_align_spec d ez (fexp prec emax (Zpos (digits2_pos d) + ez))) as (m' & E & V).
  rewrite E. set (e' := Z.min ez _) in *.
  assert (Le : (e' <= ez)%Z) by (subst e'; lia).
  assert (Vq : inject_Z (Zpos m') * 2 ^ e' == inject_Z (Zpos d) * 2 ^ ez).
  { rewrite V, inject_Z_mult, pow2_inject by lia.
    rewrite <- Qmult_assoc, <- pow2_add. replace (ez - e' + e')%Z with ez by lia. reflexivity. }
  assert (Vs : inject_Z (cond_Zopp s (Zpos m')) * 2 ^ e'
               == inject_Z (cond_Zopp s (Zpos d)) * 2 ^ ez).
  { destruct s; cbn [cond_Zopp]; [|exact Vq].
    change (- Zpos m')%Z with (- Zpos m')%Z. rewrite !inject_Z_opp.
    setoid_replace (- inject_Z (Z.pos m') * 2 ^ e') with (- (inject_Z (Z.pos m') * 2 ^ e')) by ring.
    rewrite Vq. ring. }
  destruct (binary_round_aux_Q s (Zpos m') e' loc_Exact) as [F A].
  - lia.
  - assert (D : (Zdigits2 (Zpos d) + (ez - e') <= Zdigits2 (Zpos m'))%Z).
    { pose proof (digits_lower d) as L.
      assert (0 < Zdigits2 (Zpos d))%Z by (cbn [Zdigits2]; lia).
      replace (Zdigits2 (Zpos d) + (ez - e'))%Z
        with ((Zdigits2 (Zpos d) - 1 + (ez - e')) + 1)%Z by lia.
      apply digits_ge; [lia|]. rewrite V, Z.pow_add_r by lia.
      apply Z.mul_le_mono_nonneg_r; [apply Z.pow_nonneg; lia | exact L]. }
    subst e'. cbn [Zdigits2] in *. unfold fexp, emin, prec, emax in *. lia.
  - now rewrite Vq.
  - split; [exact F|]. rewrite <- Vs, <- Vq. exact A.
Qed.

(** The difference of two finite numbers. *)
Lemma sub_value x y :
  finite x -> finite y -> Qabs (F2Q x - F2Q y) <= 2 ^ 1022 ->
  finite (x - y)
  /\ Qabs (F2Q (x - y) - (F2Q x - F2Q y)) <= Qabs (F2Q x - F2Q y) * 2 ^ (-50) + 2 ^ (-1073).
Proof.
  intros Hx Hy Hv.
  assert (P : 0 <= Qabs (F2Q x - F2Q y) * 2 ^ (-50) + 2 ^ (-1073)).
  { pose proof (pow2_pos (-50)). pose proof (pow2_pos (-1073)).
    pose proof (Qabs_nonneg (F2Q x - F2Q y)).
    assert (0 <= Qabs (F2Q x - F2Q y) * 2 ^ (-50)) by (apply Qmult_le_0_compat; lra).
    lra. }
  assert (Exact : F2Q (x - y) == F2Q x - F2Q y -> finite (x - y) ->
                  finite (x - y)
                  /\ Qabs (F2Q (x - y) - (F2Q x - F2Q y))
                     <= Qabs (F2Q x - F2Q y) * 2 ^ (-50) + 2 ^ (-1073)).
  { intros V F. split; [exact F|].
    setoid_replace (F2Q (x - y) - (F2Q x - F2Q y)) with 0 by (rewrite V; ring).
    exact P. }
  apply finite_SF in Hx, Hy.
  destruct Hx as [(sx & Ex)|(sx & mx & ex & Ex)], Hy as [(sy & Ey)|(sy & my & ey & Ey)].
  - assert (E : exists s, Prim2SF (x - y) = S754_zero s).
    { rewrite sub_spec, Ex, Ey. destruct sx, sy; cbn; eauto. }
    destruct E as (s & E). apply Exact; [|apply finite_SF; eauto].
    rewrite (F2Q_zero _ s E), (F2Q_zero x sx Ex), (F2Q_zero y sy Ey). ring.
  - assert (E : Prim2SF (x - y) = S754_finite (negb sy) my ey).
    { now rewrite sub_spec, Ex, Ey. }
    apply Exact; [|apply finite_SF; right; eauto].
    rewrite (F2Q_finite _ _ _ _ E), (F2Q_zero x sx Ex), (F2Q_finite y sy my ey Ey).
    rewrite !inject_cond_Zopp. destruct sy; cbn [negb]; ring.
  - assert (E : Prim2SF (x - y) = Prim2SF x).
    { now rewrite sub_spec, Ex, Ey. }
    apply Exact; [|apply finite_SF; right; rewrite E; eauto].
    rewrite (F2Q_zero y sy Ey), !F2Q_SF, E. ring.
  - set (ez := Z.min ex ey).
    set (X := cond_Zopp sx (Zpos (fst (shl_align mx ex ez)))).
    set (Y := cond_Zopp sy (Zpos (fst (shl_align my ey ez)))).
    assert (R : Prim2SF (x - y) = binary_normalize prec emax (X - Y) ez false).
    { now rewrite sub_spec, Ex, Ey. }
    assert (Vs : F2Q x - F2Q y == inject_Z (X - Y) * 2 ^ ez).
    { rewrite (aligned_value x sx mx ex ez Ex), (aligned_value y sy my ey ez Ey)
        by (subst ez; lia).
      fold X Y. unfold Z.sub. rewrite inject_Z_plus, inject_Z_opp. ring. }
    destruct (X - Y)%Z as [|d|d] eqn:D.
    + apply Exact; [|apply finite_SF; left; exists false; now rewrite R].
      rewrite Vs, F2Q_SF, R. cbn [binary_normalize SF2Q]. ring.
    + assert (Va : Qabs (F2Q x - F2Q y) == inject_Z (Zpos d) * 2 ^ ez).
      { rewrite Vs. apply Qabs_pos. apply Qmult_le_0_compat; [|apply Qlt_le_weak, pow2_pos].
        now rewrite <- (Zle_Qle 0). }
      destruct (binary_round_Q false d ez) as [F A]; [now rewrite <- Va|].
      cbn [binary_normalize] in R. split.
      * apply finite_SF. rewrite R. destruct F as [F|(m & e & F)]; rewrite F; eauto.
      * rewrite F2Q_SF, R, Va, Vs. exact A.
    + assert (Va : Qabs (F2Q x - F2Q y) == inject_Z (Zpos d) * 2 ^ ez).
      { rewrite Vs. change (Z.neg d) with (- Zpos d)%Z. rewrite inject_Z_opp.
        setoid_replace (- inject_Z (Z.pos d) * 2 ^ ez) with (- (inject_Z (Z.pos d) * 2 ^ ez))
          by ring.
        rewrite Qabs_opp. apply Qabs_pos.
        apply Qmult_le_0_compat; [|apply Qlt_le_weak, pow2_pos].
        now rewrite <- (Zle_Qle 0). }
      destruct (binary_round_Q true d ez) as [F A]; [now rewrite <- Va|].
      cbn [binary_normalize] in R. split.
      * apply finite_SF. rewrite R. destruct F as [F|(m & e & F)]; rewrite F; eauto.
      * rewrite F2Q_SF, R, Va, Vs. exact A.
Qed.
End Differences.

(** ** Quotients *)

Section QuotientDigits.
#[local] Open Scope Z_scope.

(** The integer quotient computed by a division, its exponent, and the
    room the exponent leaves. *)
Lemma SFdiv_core_binary_spec mx ex my ey :
  exists q e' l,
    SFdiv_core_binary prec emax (Zpos mx) ex (Zpos my) ey = (q, e', l)
    /\ 0 <= q
    /\ e' <= ex - ey
    /\ e' <= Z.max (Zdigits2 (Zpos mx) + ex - (Zdigits2 (Zpos my) + ey) - 53) (-1074)
    /\ e' <= Z.max (Zdigits2 q + e' - 53) (-1074)
    /\ Zpos my * q <= Zpos mx * 2 ^ (ex - ey - e') < Zpos my * (q + 1).
Proof.
  unfold SFdiv_core_binary. cbv zeta.
  set (d1 := Zdigits2 (Zpos mx)). set (d2 := Zdigits2 (Zpos my)).
  set (e' := IntDef.Z.min (fexp prec emax (d1 + ex - (d2 + ey))) (ex - ey)).
  assert (He : e' = Z.min (Z.max (d1 + ex - (d2 + ey) - 53) (-1074)) (ex - ey)) by reflexivity.
  set (s := ex - ey - e'). assert (Hs : 0 <= s) by lia.
  set (m' := match s with 0 => Zpos mx | Zpos _ => IntDef.Z.shiftl (Zpos mx) s | Zneg _ => 0 end).
  assert (Hm : m' = Zpos mx * 2 ^ s).
  { subst m'. destruct s as [|p|p] eqn:E; [change (2 ^ 0) with 1; lia | | lia].
    change (IntDef.Z.shiftl (Zpos mx) (Zpos p)) with (Z.shiftl (Zpos mx) (Zpos p)).
    now rewrite Z.shiftl_mul_pow2 by lia. }
  pose proof (Z_div_mod m' (Zpos my) ltac:(lia)) as DM.
  change (Z.div_eucl m' (Zpos my)) with (IntDef.Z.div_eucl m' (Zpos my)) in DM.
  destruct (IntDef.Z.div_eucl m' (Zpos my)) as [q r]. destruct DM as [DM Hr].
  exists q, e', (new_location (Zpos my) r). split; [reflexivity|].
  assert (P : 0 < 2 ^ s) by (apply Z.pow_pos_nonneg; lia).
  assert (Hq : 0 <= q) by nia.
  split; [exact Hq|]. split; [lia|]. split; [lia|]. split; [|fold s; rewrite <- Hm; lia].
  destruct (Z_le_gt_dec e' (-1074)) as [Hlow|Hlow]; [lia|].
  assert (J : 0 <= d1 - 1 + s - d2) by lia.
  pose proof (digits_lower mx) as L1. fold d1 in L1.
  pose proof (digits_upper my) as U2. fold d2 in U2.
  assert (D1 : 0 < d1) by (subst d1; cbn [Zdigits2]; lia).
  assert (D2 : 0 < d2) by (subst d2; cbn [Zdigits2]; lia).
  assert (Q : 2 ^ (d1 - 1 + s - d2) <= q).
  { assert (G : 2 ^ (d1 - 1 + s - d2) * 2 ^ d2 <= m').
    { rewrite <- Z.pow_add_r by lia. replace (d1 - 1 + s - d2 + d2) with ((d1 - 1) + s) by lia.
      rewrite Z.pow_add_r, Hm by lia. apply Z.mul_le_mono_nonneg_r; lia. }
    assert (0 < 2 ^ (d1 - 1 + s - d2)) by (apply Z.pow_pos_nonneg; lia).
    nia. }
  destruct q as [|q|q]; [lia| |lia].
  pose proof (digits_ge q (d1 - 1 + s - d2) J Q). lia.
Qed.
End QuotientDigits.

Section Quotients.
#[local] Open Scope Q_scope.

(** The quotient of two finite numbers. *)
Lemma div_value x y :
  finite x -> finite y -> is_zero y = false -> Qabs (F2Q x / F2Q y) <= 2 ^ 1022 ->
  finite (x / y)
  /\ Qabs (F2Q (x / y) - F2Q x / F2Q y) <= Qabs (F2Q x / F2Q y) * 2 ^ (-49) + 2 ^ (-1072).
Proof.
  intros Hx Hy Hz Hv.
  pose proof (pow2_pos (-1073)) as P1073.
  assert (E1072 : 2 ^ (-1072) == 2 * 2 ^ (-1073)).
  { change (-1072)%Z with (1 + -1073)%Z. rewrite pow2_add. reflexivity. }
  apply finite_SF in Hx, Hy.
  destruct Hy as [(sy & Ey)|(sy & my & ey & Ey)].
  { assert (is_zero y = true) by (apply is_zero_SF; eauto). congruence. }
  destruct Hx as [(sx & Ex)|(sx & mx & ex & Ex)].
  - assert (E : Prim2SF (x / y) = S754_zero (xorb sx sy)).
    { now rewrite div_spec, Ex, Ey. }
    split; [apply finite_SF; eauto|].
    rewrite (F2Q_zero _ _ E), (F2Q_zero x sx Ex).
    assert (Z0 : 0 / F2Q y == 0) by (unfold Qdiv; ring).
    rewrite Z0, E1072. change (Qabs (0 - 0)) with 0. change (Qabs 0) with 0. lra.
  - destruct (SFdiv_core_binary_spec mx ex my ey) as (q & e' & l & C & Hq & Le & Lf & Lq & Hdiv).
    assert (R : Prim2SF (x / y) = binary_round_aux prec emax (xorb sx sy) q e' l).
    { rewrite div_spec, Ex, Ey. cbn [SF64div SFdiv]. now rewrite C. }
    set (Xv := inject_Z (Zpos mx) * 2 ^ ex). set (Yv := inject_Z (Zpos my) * 2 ^ ey).
    assert (PX : 0 < Xv) by (apply Qmult_lt_0_compat; [reflexivity | apply pow2_pos]).
    assert (PY : 0 < Yv) by (apply Qmult_lt_0_compat; [reflexivity | apply pow2_pos]).
    set (W := Xv / Yv).
    assert (Vs : F2Q x / F2Q y == (if xorb sx sy then - W else W)).
    { rewrite (F2Q_finite x sx mx ex Ex), (F2Q_finite y sy my ey Ey), !inject_cond_Zopp.
      subst W Xv Yv. destruct sx, sy; cbn [xorb]; field; split;
        try (apply Qpower_not_0; discriminate); discriminate. }
    assert (PW : 0 <= W).
    { subst W. apply Qle_shift_div_l; [exact PY | lra]. }
    assert (Va : Qabs (F2Q x / F2Q y) == W).
    { rewrite Vs. destruct (xorb sx sy); [rewrite Qabs_opp|]; now apply Qabs_pos. }
    set (T := 2 ^ e'). assert (PT : 0 < T) by apply pow2_pos.
    set (A := inject_Z q * T).
    assert (Xs : Xv == inject_Z (Zpos mx * 2 ^ (ex - ey - e')) * T * 2 ^ ey).
    { subst Xv T. rewrite inject_Z_mult, pow2_inject by lia.
      rewrite <- !Qmult_assoc, <- !pow2_add.
      replace (ex - ey - e' + (e' + ey))%Z with ex by lia. reflexivity. }
    assert (Bq : A <= W /\ W <= A + T).
    { destruct Hdiv as [D1 D2].
      rewrite Zle_Qle, (inject_Z_mult (Zpos my)) in D1.
      rewrite Zlt_Qlt, (inject_Z_mult (Zpos my)), inject_Z_plus in D2.
      set (M' := inject_Z (Zpos mx * 2 ^ (ex - ey - e'))) in *.
      assert (P2 : 0 < 2 ^ ey) by apply pow2_pos.
      assert (P3 : 0 < T * 2 ^ ey) by (apply Qmult_lt_0_compat; assumption).
      subst W A. split.
      - apply Qle_shift_div_l; [exact PY|]. rewrite Xs. subst Yv.
        setoid_replace (inject_Z q * T * (inject_Z (Z.pos my) * 2 ^ ey))
          with (inject_Z (Z.pos my) * inject_Z q * (T * 2 ^ ey)) by ring.
        setoid_replace (M' * T * 2 ^ ey) with (M' * (T * 2 ^ ey)) by ring.
        apply Qmult_le_compat_r; [exact D1 | now apply Qlt_le_weak].
      - apply Qle_shift_div_r; [exact PY|]. rewrite Xs. subst Yv.
        setoid_replace ((inject_Z q * T + T) * (inject_Z (Z.pos my) * 2 ^ ey))
          with (inject_Z (Z.pos my) * (inject_Z q + inject_Z 1) * (T * 2 ^ ey))
          by (change (inject_Z 1) with 1; ring).
        setoid_replace (M' * T * 2 ^ ey) with (M' * (T * 2 ^ ey)) by ring.
        apply Qmult_le_compat_r; [now apply Qlt_le_weak | now apply Qlt_le_weak]. }
    assert (PA : 0 <= A).
    { subst A. apply Qmult_le_0_compat; [|now apply Qlt_le_weak].
      now rewrite <- (Zle_Qle 0). }
    assert (Tb : T <= W * (1 # 1125899906842624) + 2 ^ (-1073)).
    { destruct (Z_le_gt_dec e' (-1074)) as [Hlow|Hlow].
      - assert (T <= 2 ^ (-1073)) by (apply pow2_le; lia).
        assert (0 <= W * (1 # 1125899906842624)) by (apply Qmult_le_0_compat; [exact PW | discriminate]).
        lra.
      - set (D := (Zdigits2 (Zpos mx) + ex - (Zdigits2 (Zpos my) + ey))%Z) in *.
        assert (G : 2 ^ (D - 1) <= W).
        { subst W. apply Qle_shift_div_l; [exact PY|].
          apply Qle_trans with (2 ^ (D - 1) * 2 ^ (Zdigits2 (Zpos my) + ey)).
          - apply Qmult_le_l; [apply pow2_pos|]. apply Qlt_le_weak, value_upper.
          - rewrite <- pow2_add. replace (D - 1 + (Zdigits2 (Zpos my) + ey))%Z
              with (Zdigits2 (Zpos mx) + ex - 1)%Z by (subst D; lia).
            apply value_lower. }
        apply Qle_trans with (2 ^ (D - 1) * 2 ^ (-50)).
        + rewrite <- pow2_add. apply pow2_le. lia.
        + change (2 ^ (-50)) with (1 # 1125899906842624).
          assert (2 ^ (D - 1) * (1 # 1125899906842624) <= W * (1 # 1125899906842624))
            by (apply Qmult_le_compat_r; [exact G | discriminate]).
          lra. }
    destruct (binary_round_aux_Q (xorb sx sy) q e' l Hq Lq) as [F Ar].
    { fold T A. apply Qle_trans with W; [apply Bq | now rewrite <- Va]. }
    split.
    + apply finite_SF. rewrite R. destruct F as [F|(m & e & F)]; rewrite F; eauto.
    + rewrite F2Q_SF, R, Va, Vs, E1072.
      fold T A in Ar. rewrite inject_cond_Zopp in Ar.
      change (2 ^ (-50)) with (1 # 1125899906842624) in Ar.
      change (2 ^ (-49)) with (1 # 562949953421312).
      set (Rv := SF2Q _) in *.
      apply Qabs_Qle_condition in Ar. apply Qabs_Qle_condition.
      destruct Bq as [Bq1 Bq2]. unfold A in *. clear A.
      destruct (xorb sx sy); split; lra.
Qed.
End Quotients.

(** ** Intervals around rounded results *)

Section Enclosures.
#[local] Open Scope Q_scope.

(** One error bound for the three operations. *)
Lemma weaker_error v :
  Qabs v * 2 ^ (-50) + 2 ^ (-1073) <= Qabs v * 2 ^ (-49) + 2 ^ (-1072).
Proof.
  pose proof (Qabs_nonneg v). set (a := Qabs v) in *. lra.
Qed.

Lemma mul_rounds x y :
  finite x -> finite y -> Qabs (F2Q x * F2Q y) <= 2 ^ 1022 ->
  finite (x * y)
  /\ Qabs (F2Q (x * y) - F2Q x * F2Q y) <= Qabs (F2Q x * F2Q y) * 2 ^ (-49) + 2 ^ (-1072).
Proof.
  intros Hx Hy Hv. destruct (mul_value x y Hx Hy Hv) as [F A].
  split; [exact F|]. eapply Qle_trans; [exact A | apply weaker_error].
Qed.

Lemma sub_rounds x y :
  finite x -> finite y -> Qabs (F2Q x - F2Q y) <= 2 ^ 1022 ->
  finite (x - y)
  /\ Qabs (F2Q (x - y) - (F2Q x - F2Q y)) <= Qabs (F2Q x - F2Q y) * 2 ^ (-49) + 2 ^ (-1072).
Proof.
  intros Hx Hy Hv. destruct (sub_value x y Hx Hy Hv) as [F A].
  split; [exact F|]. eapply Qle_trans; [exact A | apply weaker_error].
Qed.

Lemma div_rounds x y :
  finite x -> finite y -> 0 < F2Q y -> Qabs (F2Q x / F2Q y) <= 2 ^ 1022 ->
  finite (x / y)
  /\ Qabs (F2Q (x / y) - F2Q x / F2Q y) <= Qabs (F2Q x / F2Q y) * 2 ^ (-49) + 2 ^ (-1072).
Proof.
  intros Hx Hy Hp Hv. apply div_value; try assumption.
  destruct (is_zero y) eqn:E; [|reflexivity].
  apply is_zero_SF in E. destruct E as (s & E). rewrite (F2Q_zero y s E) in Hp.
  discriminate Hp.
Qed.

(** A value moved by rounding stays in an interval widened by the error. *)
Lemma enclose r v lo hi B :
  Qabs (r - v) <= Qabs v * 2 ^ (-49) + 2 ^ (-1072) ->
  lo <= v <= hi -> - B <= lo -> hi <= B ->
  lo - (B * 2 ^ (-49) + 2 ^ (-1072)) <= r <= hi + (B * 2 ^ (-49) + 2 ^ (-1072)).
Proof.
  intros A [L H] BL BH. apply Qabs_Qle_condition in A.
  assert (Qabs v <= B) by (apply Qabs_Qle_condition; split; lra).
  set (a := Qabs v) in *. split; lra.
Qed.

(** The same for a value that is not negative, with a relative error. *)
Lemma enclose_pos r v lo hi :
  Qabs (r - v) <= Qabs v * 2 ^ (-49) + 2 ^ (-1072) ->
  0 <= lo -> lo <= v <= hi ->
  lo * (1 - 2 ^ (-49)) - 2 ^ (-1072) <= r <= hi * (1 + 2 ^ (-49)) + 2 ^ (-1072).
Proof.
  intros A P [L H]. rewrite (Qabs_pos v) in A by lra.
  apply Qabs_Qle_condition in A. split; lra.
Qed.

(** Intervals of rationals. *)
Lemma Qabs_between v lo hi B : lo <= v <= hi -> - B <= lo -> hi <= B -> Qabs v <= B.
Proof. intros [L H] BL BH. apply Qabs_Qle_condition. split; lra. Qed.

(** A quotient of a value that is not negative by a positive one lies
    between [lo] and [hi] when the products say so. *)
Lemma Qdiv_within p d plo phi dlo dhi lo hi :
  0 <= plo -> plo <= p <= phi -> 0 < dlo -> dlo <= d <= dhi ->
  lo * dhi <= plo -> phi <= hi * dlo -> 0 <= lo ->
  lo <= p / d <= hi.
Proof.
  intros P0 [P1 P2] D0 [D1 D2] L H L0.
  assert (Hd : 0 < d) by lra.
  assert (E : p == (p / d) * d) by (field; lra).
  assert (Q0 : 0 <= p / d) by (apply Qle_shift_div_l; [exact Hd | lra]).
  set (q := p / d) in *. split; nra.
Qed.

Lemma Qmult_between a f alo ahi flo fhi :
  0 <= alo -> alo <= a <= ahi -> 0 <= flo -> flo <= f <= fhi ->
  alo * flo <= a * f <= ahi * fhi.
Proof. intros A0 [A1 A2] F0 [F1 F2]. split; nra. Qed.

(** A finite number is below [2^1024]. *)
Lemma finite_value_bound x : finite x -> Qabs (F2Q x) <= 2 ^ 1024.
Proof.
  intros H. apply finite_SF in H. destruct H as [(s & E)|(s & m & e & E)].
  - rewrite (F2Q_zero x s E). apply Qlt_le_weak, pow2_pos.
  - rewrite (F2Q_abs x s m e E).
    destruct (valid_finite_bounds x s m e E) as [D X].
    apply Qlt_le_weak. eapply Qlt_le_trans; [apply value_upper|].
    apply pow2_le. cbn [Zdigits2]. lia.
Qed.

(** A finite number with a positive value is positive. *)
Lemma finite_above (x : float) lo : finite x -> 0 < lo -> lo <= F2Q x -> (0 <? x)%float = true.
Proof.
  intros F P L. apply ltb_value; [reflexivity | exact F|].
  change (F2Q 0) with 0. lra.
Qed.
End Enclosures.

(** ** The ISA density in its range *)

Lemma leb_trans x y z : (x <=? y) = true -> (y <=? z) = true -> (x <=? z) = true.
Proof. intros. float_order. Qed.

Lemma ltb_leb x y : (x <? y) = true -> (x <=? y) = true.
Proof. intros. float_order. Qed.

(** A product by an infinity or by NaN is an infinity or NaN. *)
Lemma not_finite_mul_r x y : is_finite y = false -> is_finite (x * y) = false.
Proof.
  intros H. apply not_finite_SF. rewrite mul_spec.
  apply not_finite_SF in H. destruct H as [->|(s & ->)].
  - destruct (Prim2SF x) as [sx|sx| |sx m e]; cbn; eauto.
  - destruct (Prim2SF x) as [sx|sx| |sx m e]; cbn; eauto.
Qed.

(** The platform of the sample run is within the bound on [Math.pow]. *)
Lemma sea_level_only_in_range : pow_in_range sea_level_only.
Proof.
  intros b H1 H2.
  change (Math_pow b 5.2561) with (if (0x1p-16 <=? b) && (b <=? 0x1p+16) then 1 else nan).
  rewrite H1, H2. split; reflexivity.
Qed.

Section AtmosphereRange.
Context {M : MathLib}.
#[local] Open Scope Q_scope.

(** The values of the constants of the model. *)
Lemma F2Q_L_RATE : F2Q L_RATE = 7493989779944505 # 1152921504606846976.
Proof. vm_compute. reflexivity. Qed.

Lemma F2Q_T_STD : F2Q T_STD = 5069188408698470 # 17592186044416.
Proof. vm_compute. reflexivity. Qed.

Lemma F2Q_R_GAS : F2Q R_GAS = 5049837004049613 # 17592186044416.
Proof. vm_compute. reflexivity. Qed.

Lemma F2Q_P_STD : F2Q P_STD == 101325.
Proof. vm_compute. reflexivity. Qed.

Lemma F2Q_1 : F2Q 1 == 1.
Proof. vm_compute. reflexivity. Qed.

(** A comparison of two given rationals. *)
Ltac closed := vm_compute; discriminate.

(** The quotient [x / T_STD], read on the values. *)
Lemma over_T_STD (x : float) :
  F2Q x / F2Q T_STD == F2Q x * (17592186044416 # 5069188408698470).
Proof. rewrite F2Q_T_STD. reflexivity. Qed.

(** Between -1e9 m and 44,330 m the ISA temperature is between 0.0048 K
    and 6,500,290 K, and the base of the pressure power is between
    0.00001735 and 22,560. *)
Lemma isa_temperature_and_base (a : float) :
  (-1e9 <=? a)%float = true -> (a <=? 44330)%float = true ->
  finite (T_STD - L_RATE * a)
  /\ (48 # 10000) <= F2Q (T_STD - L_RATE * a) <= 6500290
  /\ finite (1 - L_RATE * a / T_STD)
  /\ (1735 # 100000000) <= F2Q (1 - L_RATE * a / T_STD) <= 22560.
Proof.
  intros Hlo Hhi.
  assert (Fa : finite a) by (apply (between_finite (-1e9) a 44330); auto; reflexivity).
  assert (Ba : -1000000000 <= F2Q a <= 44330).
  { split.
    - apply (leb_value (-1e9) a) in Hlo; [|reflexivity|exact Fa].
      eapply Qle_trans; [|exact Hlo]. closed.
    - apply (leb_value a 44330) in Hhi; [|exact Fa|reflexivity].
      eapply Qle_trans; [exact Hhi|]. closed. }
  destruct Ba as [Ba1 Ba2].
  assert (FL : finite L_RATE) by reflexivity.
  assert (FT : finite T_STD) by reflexivity.
  assert (F1 : finite 1) by reflexivity.
  (* L_RATE * a *)
  assert (V1 : - (65000001 # 10) <= F2Q L_RATE * F2Q a <= 28814500001 # 100000000).
  { rewrite F2Q_L_RATE. split; lra. }
  destruct (mul_rounds L_RATE a FL Fa) as [Fx A1].
  { apply Qabs_Qle_condition. destruct V1. split; lra. }
  destruct (enclose _ _ _ _ 6500001 A1 V1 ltac:(lra) ltac:(lra)) as [E1 E1'].
  clear A1 V1.
  (* T_STD - L_RATE * a *)
  assert (V2 : (49 # 10000) <= F2Q T_STD - F2Q (L_RATE * a) <= 6500289).
  { rewrite F2Q_T_STD. split; lra. }
  destruct (sub_rounds T_STD (L_RATE * a) FT Fx) as [Ft A2].
  { apply Qabs_Qle_condition. destruct V2. split; lra. }
  destruct (enclose _ _ _ _ 6500289 A2 V2 ltac:(lra) ltac:(lra)) as [E2 E2'].
  split; [exact Ft|]. split; [split; lra|]. clear A2 E2 E2' V2.
  (* L_RATE * a / T_STD *)
  assert (PT : 0 < F2Q T_STD) by (rewrite F2Q_T_STD; reflexivity).
  assert (V3 : - 22558 <= F2Q (L_RATE * a) / F2Q T_STD <= 9999826481 # 10000000000).
  { rewrite over_T_STD. split; lra. }
  destruct (div_rounds (L_RATE * a) T_STD Fx FT PT) as [Fq A3].
  { apply Qabs_Qle_condition. destruct V3. split; lra. }
  destruct (enclose _ _ _ _ 22558 A3 V3 ltac:(lra) ltac:(lra)) as [E3 E3'].
  clear A3 V3.
  (* 1 - L_RATE * a / T_STD *)
  assert (V4 : (17351 # 1000000000) <= F2Q 1 - F2Q (L_RATE * a / T_STD) <= 22559 + (1 # 10)).
  { rewrite F2Q_1. split; lra. }
  destruct (sub_rounds 1 (L_RATE * a / T_STD) F1 Fq) as [Fb A4].
  { apply Qabs_Qle_condition. destruct V4. split; lra. }
  destruct (enclose _ _ _ _ 22560 A4 V4 ltac:(lra) ltac:(lra)) as [E4 E4'].
  split; [exact Fb|]. split; lra.
Qed.

(** With a power in range, the ISA density between -1e9 m and 44,330 m is
    a finite number between 9e-31 and 3.1e30 kg/m3. *)
Lemma isaDensityAt_range (a : float) :
  pow_in_range M ->
  (-1e9 <=? a)%float = true -> (a <=? 44330)%float = true ->
  finite (isaDensityAt a)
  /\ 9 * 10 ^ (-31) <= F2Q (isaDensityAt a) <= 31 * 10 ^ 29.
Proof.
  intros Hpow Hlo Hhi.
  destruct (isa_temperature_and_base a Hlo Hhi) as (Ft & [Bt1 Bt2] & Fb & [Bb1 Bb2]).
  unfold isaDensityAt. cbv zeta.
  set (temperature := (T_STD - L_RATE * a)%float) in *.
  set (base := (1 - L_RATE * a / T_STD)%float) in *.
  destruct (Hpow base) as [P1 P2].
  { apply leb_value; [reflexivity | exact Fb|].
    eapply Qle_trans; [|exact Bb1]. closed. }
  { apply leb_value; [exact Fb | reflexivity|].
    eapply Qle_trans; [exact Bb2|]. closed. }
  set (p := Math_pow base 5.2561) in *.
  assert (Fp : finite p)
    by (apply (between_finite 0x1p-85 p 0x1p+85);
        [reflexivity | reflexivity | exact P1 | exact P2]).
  assert (Bp : 2 ^ (-85) <= F2Q p <= 2 ^ 85).
  { split.
    - apply leb_value in P1; [|reflexivity|exact Fp]. eapply Qle_trans; [|exact P1]. closed.
    - apply leb_value in P2; [|exact Fp|reflexivity]. eapply Qle_trans; [exact P2|]. closed. }
  destruct Bp as [Bp1 Bp2].
  assert (FP : finite P_STD) by reflexivity.
  assert (FR : finite R_GAS) by reflexivity.
  (* P_STD * p *)
  assert (V1 : 2 * 10 ^ (-21) <= F2Q P_STD * F2Q p <= 4 * 10 ^ 30).
  { rewrite F2Q_P_STD. split; lra. }
  destruct (mul_rounds P_STD p FP Fp) as [Fpr A1].
  { apply Qabs_Qle_condition. destruct V1. split; lra. }
  destruct (enclose_pos _ _ (2 * 10 ^ (-21)) (4 * 10 ^ 30) A1 ltac:(lra) V1) as [E1 E1'].
  clear A1 V1.
  (* R_GAS * temperature *)
  assert (V2 : (137 # 100) <= F2Q R_GAS * F2Q temperature <= 1866000000).
  { rewrite F2Q_R_GAS. split; lra. }
  destruct (mul_rounds R_GAS temperature FR Ft) as [Frt A2].
  { apply Qabs_Qle_condition. destruct V2. split; lra. }
  destruct (enclose_pos _ _ (137 # 100) 1866000000 A2 ltac:(lra) V2) as [E2 E2'].
  clear A2 V2.
  (* the quotient *)
  assert (V3 : 10 ^ (-30) <= F2Q (P_STD * p) / F2Q (R_GAS * temperature) <= 3 * 10 ^ 30).
  { apply (Qdiv_within _ _ (19 * 10 ^ (-22)) (40001 * 10 ^ 26) (136 # 100) 1866100000);
      try split; lra. }
  destruct (div_rounds (P_STD * p) (R_GAS * temperature) Fpr Frt) as [Fd A3].
  { lra. }
  { apply Qabs_Qle_condition. destruct V3. split; lra. }
  destruct (enclose_pos _ _ (10 ^ (-30)) (3 * 10 ^ 30) A3 ltac:(lra) V3) as [E3 E3'].
  split; [exact Fd|]. split; lra.
Qed.

(** From 44,331 m on, the base of the ISA pressure power is a negative
    finite number. *)
Lemma isa_base_negative (r : float) :
  finite r -> (44331 <=? r)%float = true ->
  finite (1 - L_RATE * r / T_STD) /\ F2Q (1 - L_RATE * r / T_STD) < 0.
Proof.
  intros Fr Hr.
  assert (Br : 44331 <= F2Q r).
  { apply (leb_value 44331 r) in Hr; [|reflexivity|exact Fr].
    eapply Qle_trans; [|exact Hr]. closed. }
  pose proof (finite_value_bound r Fr) as Ur.
  rewrite Qabs_pos in Ur by lra.
  assert (FL : finite L_RATE) by reflexivity.
  assert (FT : finite T_STD) by reflexivity.
  assert (F1 : finite 1) by reflexivity.
  (* L_RATE * r *)
  assert (V1 : (288151 # 1000) <= F2Q L_RATE * F2Q r <= 2 ^ 1017).
  { rewrite F2Q_L_RATE. split; lra. }
  destruct (mul_rounds L_RATE r FL Fr) as [Fx A1].
  { apply Qabs_Qle_condition. destruct V1. split; lra. }
  destruct (enclose_pos _ _ (288151 # 1000) (2 ^ 1017) A1 ltac:(lra) V1) as [E1 E1'].
  clear A1 V1.
  (* L_RATE * r / T_STD *)
  assert (PT : 0 < F2Q T_STD) by (rewrite F2Q_T_STD; reflexivity).
  assert (V3 : (1000002 # 1000000) <= F2Q (L_RATE * r) / F2Q T_STD <= 2 ^ 1016).
  { rewrite over_T_STD. split; lra. }
  destruct (div_rounds (L_RATE * r) T_STD Fx FT PT) as [Fq A3].
  { apply Qabs_Qle_condition. destruct V3. split; lra. }
  destruct (enclose_pos _ _ (1000002 # 1000000) (2 ^ 1016) A3 ltac:(lra) V3) as [E3 E3'].
  clear A3 V3.
  (* 1 - L_RATE * r / T_STD *)
  set (v := F2Q 1 - F2Q (L_RATE * r / T_STD)).
  assert (Nv : - 2 ^ 1017 <= v <= - (1 # 1000000)) by (subst v; rewrite F2Q_1; split; lra).
  destruct Nv as [Nv1 Nv2].
  assert (Av : Qabs v == - v) by (apply Qabs_neg; lra).
  destruct (sub_rounds 1 (L_RATE * r / T_STD) F1 Fq) as [Fb A4].
  { fold v. rewrite Av. lra. }
  split; [exact Fb|].
  fold v in A4. rewrite Av in A4.
  apply Qabs_Qle_condition in A4. destruct A4 as [_ A4]. lra.
Qed.

(** With a negative base the power is NaN, and so is the ISA density. *)
Lemma isaDensityAt_above_44331 (r : float) :
  ES_exact M -> finite r -> (44331 <=? r)%float = true -> isaDensityAt r = nan.
Proof.
  intros E Fr Hr. destruct (isa_base_negative r Fr Hr) as [Fb Nb].
  unfold isaDensityAt. cbv zeta.
  rewrite (pow_neg_base M E).
  - rewrite mul_nan_r. apply div_nan_l.
  - apply ltb_value; [exact Fb | reflexivity | exact Nb].
  - unfold finite, is_finite in Fb. apply negb_true_iff, orb_false_iff in Fb. apply Fb.
Qed.

(** At an altitude of [-Infinity] the pressure and the temperature are
    both infinite, and their quotient is NaN. *)
Lemma isaDensityAt_neg_infinity :
  Math_pow infinity 5.2561 = infinity -> isaDensityAt neg_infinity = nan.
Proof.
  intros E. unfold isaDensityAt. cbv zeta.
  replace (1 - L_RATE * neg_infinity / T_STD)%float with infinity by reflexivity.
  rewrite E. reflexivity.
Qed.

(** The product [isaDensity * (refDensity / refIsaDensity)] of the
    calibration, for densities in the range of [isaDensityAt_range] and a
    reading between 0.1 and 1e200. *)
Lemma calibration_in_range (isa refDensity refIsa : float) :
  finite isa -> 9 * 10 ^ (-31) <= F2Q isa <= 31 * 10 ^ 29 ->
  finite refIsa -> 9 * 10 ^ (-31) <= F2Q refIsa <= 31 * 10 ^ 29 ->
  (0.1 <? refDensity)%float = true -> (refDensity <=? 1e200)%float = true ->
  finite (isa * (refDensity / refIsa)) /\ (0 <? isa * (refDensity / refIsa))%float = true.
Proof.
  intros Fi [Bi1 Bi2] Fr [Br1 Br2] Hcal Hmax.
  assert (Fd : finite refDensity).
  { apply (between_finite 0.1 refDensity 1e200); try reflexivity; [|exact Hmax].
    now apply ltb_leb. }
  assert (Bd : (1 # 10) <= F2Q refDensity <= 2 * 10 ^ 200).
  { split.
    - apply ltb_value in Hcal; [|reflexivity|exact Fd].
      apply Qlt_le_weak. eapply Qle_lt_trans; [|exact Hcal]. closed.
    - apply leb_value in Hmax; [|exact Fd|reflexivity].
      eapply Qle_trans; [exact Hmax|]. closed. }
  destruct Bd as [Bd1 Bd2].
  (* refDensity / refIsaDensity *)
  assert (V1 : 3 * 10 ^ (-32) <= F2Q refDensity / F2Q refIsa <= 3 * 10 ^ 230).
  { apply (Qdiv_within _ _ (1 # 10) (2 * 10 ^ 200) (9 * 10 ^ (-31)) (31 * 10 ^ 29));
      try split; lra. }
  destruct (div_rounds refDensity refIsa Fd Fr) as [Ff A1].
  { lra. }
  { apply Qabs_Qle_condition. destruct V1. split; lra. }
  destruct (enclose_pos _ _ (3 * 10 ^ (-32)) (3 * 10 ^ 230) A1 ltac:(lra) V1) as [E1 E1'].
  clear A1 V1.
  (* isaDensity * factor *)
  set (factor := (refDensity / refIsa)%float) in *.
  assert (V2 : 9 * 10 ^ (-31) * (2 * 10 ^ (-32)) <= F2Q isa * F2Q factor
               <= 31 * 10 ^ 29 * (4 * 10 ^ 230)).
  { apply Qmult_between; try split; lra. }
  destruct (mul_rounds isa factor Fi Ff) as [Fm A2].
  { apply Qabs_Qle_condition. destruct V2. split; lra. }
  destruct (enclose_pos _ _ (9 * 10 ^ (-31) * (2 * 10 ^ (-32))) (31 * 10 ^ 29 * (4 * 10 ^ 230))
              A2 ltac:(lra) V2) as [E2 E2'].
  split; [exact Fm|].
  apply (finite_above _ (10 ^ (-62))); [exact Fm | lra | lra].
Qed.
End AtmosphereRange.

(** ** The density returned *)

(** C8 (as the code has it). [getAirDensity] has no error state: it is a
    total function of three numbers, and it returns exactly 0 above
    40,000 m.  On a platform within the bound [pow_in_range], the number it
    returns is finite and positive (so never negative) for every altitude
    between -1e9 m and 40,000 m, when the calibration is not active
    ([refDensity > 0.1] is false, as for a NaN reading), and when it is
    active with a reading of at most 1e200 taken between -1e9 m and
    44,330 m.  The number is not finite for every input.  It is NaN for a
    NaN altitude, and for the altitude [-Infinity] when
    [Math.pow(Infinity, 5.2561)] is [Infinity], as ECMAScript requires.
    When the altitude is not above 40,000 m and the calibration is active,
    it is an infinity or NaN for an infinite reading, and, on every
    platform, NaN for every finite reference altitude of 44,331 m or more,
    where the base of the ISA pressure power is negative. *)
Theorem getAirDensity_range `{M : MathLib} (altitude refDensity refAlt : float) :
  ((altitude >? 40000) = true -> getAirDensity altitude refDensity refAlt = 0)
  /\ (pow_in_range M ->
      (-1e9 <=? altitude) = true -> (altitude <=? 40000) = true ->
      (refDensity >? 0.1) = false
      \/ ((refDensity <=? 1e200) = true
          /\ (-1e9 <=? refAlt) = true /\ (refAlt <=? 44330) = true) ->
      is_finite (getAirDensity altitude refDensity refAlt) = true
      /\ (getAirDensity altitude refDensity refAlt >? 0) = true)
  /\ (is_nan altitude = true -> is_nan (getAirDensity altitude refDensity refAlt) = true)
  /\ (Math_pow infinity 5.2561 = infinity ->
      is_nan (getAirDensity neg_infinity refDensity refAlt) = true)
  /\ ((altitude >? 40000) = false -> (refDensity >? 0.1) = true ->
      is_finite refDensity = false ->
      is_finite (getAirDensity altitude refDensity refAlt) = false)
  /\ (ES_exact M ->
      (altitude >? 40000) = false -> (refDensity >? 0.1) = true ->
      is_finite refAlt = true -> (44331 <=? refAlt) = true ->
      is_nan (getAirDensity altitude refDensity refAlt) = true).
Proof.
  split; [|split; [|split; [|split; [|split]]]].
  - intros H. unfold getAirDensity. now rewrite H.
  - intros Hpow Hlo Hhi Href.
    assert (Hhi' : (altitude <=? 44330) = true)
      by (apply (leb_trans _ 40000); [exact Hhi | reflexivity]).
    destruct (isaDensityAt_range altitude Hpow Hlo Hhi') as (Fi & Bi).
    unfold getAirDensity. rewrite (leb_ltb_false _ _ Hhi). cbv zeta.
    destruct (refDensity >? 0.1) eqn:Hcal.
    + destruct Href as [Href|(Hmax & Rlo & Rhi)]; [discriminate Href|].
      destruct (isaDensityAt_range refAlt Hpow Rlo Rhi) as (Fr & Br).
      exact (calibration_in_range _ _ _ Fi Bi Fr Br Hcal Hmax).
    + split; [exact Fi|].
      apply (finite_above _ (9 * 10 ^ (-31))%Q); [exact Fi | reflexivity | apply Bi].
  - intros N. apply is_nan_eq in N. subst altitude. unfold getAirDensity.
    change (nan >? 40000) with false. cbv iota. rewrite isaDensityAt_nan.
    destruct (refDensity >? 0.1); [rewrite mul_nan_l|]; reflexivity.
  - intros E. unfold getAirDensity.
    change (neg_infinity >? 40000) with false. cbv iota.
    rewrite (isaDensityAt_neg_infinity E).
    destruct (refDensity >? 0.1); [rewrite mul_nan_l|]; reflexivity.
  - intros Ha Hc Hr. unfold getAirDensity. rewrite Ha, Hc. cbv zeta.
    apply not_finite_mul_r, not_finite_div_l, Hr.
  - intros E Ha Hc Fr Hr. unfold getAirDensity. rewrite Ha, Hc. cbv zeta.
    rewrite (isaDensityAt_above_44331 refAlt E Fr Hr), div_nan_r, mul_nan_r. reflexivity.
Qed.

(** C8, witness: the density at sea level, calibrated by a reading of
    1.2 kg/m3 taken at sea level, where the base of the power is 1. *)
Lemma getAirDensity_range_sea_level :
  is_finite (getAirDensity (M := sea_level_only) 0 1.2 0) = true
  /\ (getAirDensity (M := sea_level_only) 0 1.2 0 >? 0) = true.
Proof.
  exact (proj1 (proj2 (getAirDensity_range (M := sea_level_only) 0 1.2 0))
           sea_level_only_in_range eq_refl eq_refl
           (or_intror (conj eq_refl (conj eq_refl eq_refl)))).
Defined.

(** C8, counterexample: the density is NaN, not a finite number, for a
    calibration reading taken at 50,000 m (on every platform, by
    [getAirDensity_nan_calibration]) and for a NaN altitude. *)
Lemma getAirDensity_not_finite :
  getAirDensity (M := exact_only) 0 1.2 50000 = nan
  /\ getAirDensity (M := exact_only) nan 0 0 = nan
  /\ is_finite nan = false.
Proof.
  split; [exact (getAirDensity_nan_calibration exact_only_ES)|].
  split; reflexivity.
Qed.
